(** * Rickipedia: reference resolution, caching and pagination of [app.py]

    A shallow embedding of the data-access and page-state logic of the
    Streamlit application [src/app.py] and the properties of its
    specification, each settled against the embedded code.

    Conventions of the embedding.
    - A Python [str] is a [string]: a sequence of code points below 256.  On
      that range the regular-expression class [\d] is exactly ['0'..'9'].
    - A Python [int] is a [Z].
    - A decoded JSON document is a [json] value; a [dict] is an association
      list in insertion order.
    - A function that touches the network, a cache or [st.session_state] is a
      computation [M A]: it takes the [world] and returns either a value or
      a raised exception, with the new [world].
    - Streamlit calls that only emit display elements ([st.markdown],
      [st.error], [st.info], [st.caption], [st.columns], ...) carry no state
      and are left out; the data accesses made while their arguments are
      evaluated are kept, with the exceptions they raise.
    - A widget created with a key is identified by that key, as in the
      current releases of Streamlit: it returns the value Streamlit holds
      under the key, and its default when Streamlit holds none.  (Older
      releases, which took the arguments of a widget into its identity, gave
      a number widget its [value] again whenever [value] had changed.)
      Streamlit records the keys of the widgets a run creates: two widgets
      with one key in a run raise an exception, and after a run that ends
      normally or by [st.rerun()] the values of the widgets it did not
      create are forgotten. *)

From Stdlib Require Import ZArith List Bool Lia Ascii String DecimalString.
Import ListNotations.
Local Open Scope string_scope.
Local Open Scope Z_scope.

(* ================================================================== *)
(** ** Python strings *)

Module PyStr.

(** Truth value of a string: [if s:] holds for every non-empty string. *)
Definition truthy (s : string) : bool :=
  match s with
  | EmptyString => false
  | String _ _ => true
  end.

(** [s.startswith(p)]. *)
Fixpoint starts_with (p s : string) : bool :=
  match p, s with
  | EmptyString, _ => true
  | String a p', String b s' => Ascii.eqb a b && starts_with p' s'
  | String _ _, EmptyString => false
  end.

(** [needle in s] for two strings: [needle] occurs in [s] as a substring. *)
Fixpoint contains (needle s : string) : bool :=
  starts_with needle s
  || match s with
     | EmptyString => false
     | String _ r => contains needle r
     end.

(** [sep.join(parts)]. *)
Definition join (sep : string) (parts : list string) : string :=
  String.concat sep parts.

(** [f"{n}"] for an integer [n]. *)
Definition of_int (n : Z) : string := NilZero.string_of_int (Z.to_int n).

(** [c.lower()] on one code point below 256: [A-Z], and the accented capitals
    U+00C0..U+00DE other than the multiplication sign U+00D7. *)
Definition lower_char (c : ascii) : ascii :=
  let n := nat_of_ascii c in
  if ((65 <=? n) && (n <=? 90))%nat
     || ((192 <=? n) && (n <=? 222) && negb (n =? 215))%nat
  then ascii_of_nat (n + 32) else c.

Fixpoint lower (s : string) : string :=
  match s with
  | EmptyString => EmptyString
  | String c r => String (lower_char c) (lower r)
  end.

(** The characters of a string, as one-character strings (iteration over a
    [str]). *)
Fixpoint chars (s : string) : list string :=
  match s with
  | EmptyString => []
  | String c r => String c EmptyString :: chars r
  end.

(** [c in s] for one character [c]. *)
Fixpoint has_char (c : ascii) (s : string) : bool :=
  match s with
  | EmptyString => false
  | String a r => Ascii.eqb a c || has_char c r
  end.

Definition squote : ascii := ascii_of_nat 39.
Definition dquote : ascii := ascii_of_nat 34.
Definition backslash : ascii := ascii_of_nat 92.

Definition hex_digit (n : nat) : ascii :=
  ascii_of_nat (if (n <? 10)%nat then 48 + n else 87 + n).

(** [c.isprintable()] on one code point below 256: the ASCII characters
    from the space to the tilde, and U+00A1..U+00FF other than the soft
    hyphen U+00AD. *)
Definition printable (c : ascii) : bool :=
  let n := nat_of_ascii c in
  ((32 <=? n) && (n <=? 126))%nat
  || ((161 <=? n) && negb (n =? 173))%nat.

(** One character of [repr(s)] between the quotes [quote]. *)
Definition repr_char (quote c : ascii) : string :=
  let n := nat_of_ascii c in
  if Ascii.eqb c backslash || Ascii.eqb c quote
  then String backslash (String c EmptyString)
  else if (n =? 9)%nat then String backslash "t"
  else if (n =? 10)%nat then String backslash "n"
  else if (n =? 13)%nat then String backslash "r"
  else if printable c then String c EmptyString
  else String backslash
         (String "x" (String (hex_digit (n / 16))
                        (String (hex_digit (n mod 16)) EmptyString))).

Fixpoint repr_chars (quote : ascii) (s : string) : string :=
  match s with
  | EmptyString => EmptyString
  | String c r => repr_char quote c ++ repr_chars quote r
  end.

(** [repr(s)]: between single quotes, or between double quotes when [s]
    holds a single quote and no double quote. *)
Definition repr (s : string) : string :=
  let quote := if has_char squote s && negb (has_char dquote s)
               then dquote else squote in
  String quote (repr_chars quote s ++ String quote EmptyString).

End PyStr.

(** [ids[:n]]: a non-negative [n] keeps the first [n] elements, a negative
    [n] drops the last [-n]. *)
Definition py_slice_to {A : Type} (n : Z) (l : list A) : list A :=
  if 0 <=? n then firstn (Z.to_nat n) l
  else firstn (List.length l - Z.to_nat (- n)) l.

(* ================================================================== *)
(** ** The pattern [/(\d+)/?$] *)

Module Re.

Definition newline : ascii := ascii_of_nat 10.

Definition is_digit (c : ascii) : bool :=
  let n := nat_of_ascii c in ((48 <=? n) && (n <=? 57))%nat.

(** The longest run of digits at the head of [s], and what follows it. *)
Fixpoint span_digits (s : string) : string * string :=
  match s with
  | EmptyString => (EmptyString, EmptyString)
  | String c r =>
      if is_digit c
      then let (d, t) := span_digits r in (String c d, t)
      else (EmptyString, s)
  end.

(** [$] without [re.MULTILINE]: the end of the string, or just before a
    newline that ends the string. *)
Definition at_end (s : string) : bool :=
  match s with
  | EmptyString => true
  | String c EmptyString => Ascii.eqb c newline
  | _ => false
  end.

(** The pattern matched at the head of [s]; the result is group 1.  [\d+] is
    greedy, and giving a digit back never helps: the next character would
    be a digit, which neither [/?] nor [$] accepts. *)
Definition match_here (s : string) : option string :=
  match s with
  | String "/" r =>
      let (d, t) := span_digits r in
      match d with
      | EmptyString => None
      | _ =>
          match t with
          | String "/" t' => if at_end t' then Some d else None
          | _ => if at_end t then Some d else None
          end
      end
  | _ => None
  end.

(** [re.search]: the match at the leftmost position that has one. *)
Fixpoint search (s : string) : option string :=
  match match_here s with
  | Some d => Some d
  | None =>
      match s with
      | EmptyString => None
      | String _ r => search r
      end
  end.

End Re.

(** [extract_id_from_url]: the identifier at the end of a resource URL, the
    empty string when there is none.  [re.search] on a [str] does not raise,
    so the [except] branch is not taken. *)
Definition extract_id_from_url (u : string) : string :=
  match Re.search u with
  | Some d => d
  | None => ""
  end.

(* ================================================================== *)
(** ** JSON values and Python dictionaries *)

(** A decoded JSON document.  Numbers are integers, as every number of the
    upstream API is; an object keeps its members in document order, with
    distinct keys. *)
#[local] Set Warnings "-register-all".
Inductive json : Type :=
| JNull
| JBool (b : bool)
| JNum (n : Z)
| JStr (s : string)
| JList (l : list json)
| JObj (members : list (string * json)).

(** [d.get(k)] on the members of a dictionary. *)
Fixpoint dict_get {V : Type} (k : string) (d : list (string * V)) : option V :=
  match d with
  | [] => None
  | (k', v) :: r => if String.eqb k k' then Some v else dict_get k r
  end.

(** [d[k] = v]: the value of an existing key is replaced in place, a new key
    goes to the end. *)
Fixpoint dict_set {V : Type} (k : string) (v : V) (d : list (string * V))
  : list (string * V) :=
  match d with
  | [] => [(k, v)]
  | (k', v') :: r =>
      if String.eqb k k' then (k, v) :: r else (k', v') :: dict_set k v r
  end.

Definition dict_keys {V : Type} (d : list (string * V)) : list string :=
  map fst d.

(** A value of the [params] dictionary given to [requests.get]. *)
Inductive pval : Type :=
| PInt (n : Z)
| PStr (s : string).

Definition params : Type := list (string * pval).

Definition pval_eqb (a b : pval) : bool :=
  match a, b with
  | PInt x, PInt y => Z.eqb x y
  | PStr x, PStr y => String.eqb x y
  | _, _ => false
  end.

Fixpoint params_eqb (a b : params) : bool :=
  match a, b with
  | [], [] => true
  | (k, v) :: a', (k', v') :: b' =>
      String.eqb k k' && pval_eqb v v' && params_eqb a' b'
  | _, _ => false
  end.

(* ================================================================== *)
(** ** Exceptions and results *)

Inductive exn : Type :=
| RequestException (msg : string)  (* [requests.get] failed: timeout, connection *)
| JSONDecodeError                  (* [r.json()] on a body that is not JSON *)
| TypeError
| AttributeError
| KeyError (k : string)
| IndexError
| StreamlitAPIException            (* a widget refused: value below minimum, key used twice *)
| RerunException.                  (* raised by [st.rerun()] to stop the script *)

(** [except Exception] catches every exception but the script-control one,
    which derives from [BaseException]. *)
Definition is_Exception (e : exn) : bool :=
  match e with
  | RerunException => false
  | _ => true
  end.

Inductive res (A : Type) : Type :=
| Val (a : A)
| Exc (e : exn).
Arguments Val {A} a.
Arguments Exc {A} e.

Definition res_bind {A B : Type} (r : res A) (k : A -> res B) : res B :=
  match r with
  | Val a => k a
  | Exc e => Exc e
  end.

(** *** Python operations on JSON values *)

Definition py_truthy (j : json) : bool :=
  match j with
  | JNull => false
  | JBool b => b
  | JNum n => negb (n =? 0)
  | JStr s => PyStr.truthy s
  | JList l => match l with [] => false | _ => true end
  | JObj m => match m with [] => false | _ => true end
  end.

(** [a or b]. *)
Definition py_or (a b : json) : json := if py_truthy a then a else b.

(** [d.get(k, default)]: only a dictionary has the method. *)
Definition py_get (d : json) (k : string) (default : json) : res json :=
  match d with
  | JObj m => Val (match dict_get k m with Some v => v | None => default end)
  | _ => Exc AttributeError
  end.

(** [d[k]] with a string key. *)
Definition py_getitem (d : json) (k : string) : res json :=
  match d with
  | JObj m => match dict_get k m with Some v => Val v | None => Exc (KeyError k) end
  | _ => Exc TypeError
  end.

Definition is_str (k : string) (j : json) : bool :=
  match j with
  | JStr s => String.eqb s k
  | _ => false
  end.

(** [k in d] for a string [k]: a key of a dictionary, an element of a list, a
    substring of a string. *)
Definition py_in (k : string) (d : json) : res bool :=
  match d with
  | JObj m => Val (match dict_get k m with Some _ => true | None => false end)
  | JList l => Val (existsb (is_str k) l)
  | JStr s => Val (PyStr.contains k s)
  | _ => Exc TypeError
  end.

(** The elements a [for] loop visits. *)
Definition py_iter (j : json) : res (list json) :=
  match j with
  | JList l => Val l
  | JObj m => Val (map JStr (dict_keys m))
  | JStr s => Val (map JStr (PyStr.chars s))
  | _ => Exc TypeError
  end.

(** [s.lower()]: only a string has the method. *)
Definition py_lower (j : json) : res string :=
  match j with
  | JStr s => Val (PyStr.lower s)
  | _ => Exc AttributeError
  end.

(** A number in a comparison or in [min]; [True] and [False] count as 1
    and 0. *)
Definition py_number (j : json) : res Z :=
  match j with
  | JNum n => Val n
  | JBool b => Val (Z.b2z b)
  | _ => Exc TypeError
  end.

(** A reference field read as [list[str]], the type [fetch_multiple] declares
    for its argument; the embedding stops with [TypeError] on any other
    shape. *)
Fixpoint as_urls_list (l : list json) : res (list string) :=
  match l with
  | [] => Val []
  | JStr u :: r => res_bind (as_urls_list r) (fun us => Val (u :: us))
  | _ :: _ => Exc TypeError
  end.

Definition as_urls (j : json) : res (list string) :=
  match j with
  | JList l => as_urls_list l
  | _ => Exc TypeError
  end.

(** [repr(x)] and [str(x)], which is also what an f-string puts for [{x}]:
    a string stands for itself, every other value for its [repr]. *)
Fixpoint py_repr (j : json) : string :=
  match j with
  | JNull => "None"
  | JBool true => "True"
  | JBool false => "False"
  | JNum n => PyStr.of_int n
  | JStr s => PyStr.repr s
  | JList l => "[" ++ PyStr.join ", " (map py_repr l) ++ "]"
  | JObj m =>
      "{" ++ PyStr.join ", "
               (map (fun kv => PyStr.repr (fst kv) ++ ": " ++ py_repr (snd kv)) m)
          ++ "}"
  end.

Definition py_str (j : json) : string :=
  match j with
  | JStr s => s
  | _ => py_repr j
  end.

(** [status_class]: the CSS class of a character status. *)
Definition status_class (s : json) : res string :=
  res_bind (py_lower (py_or s (JStr ""))) (fun s =>
  Val (if String.eqb s "alive" then "alive"
       else if String.eqb s "dead" then "dead"
       else "unknown")).

(** [get_status_color]: the CSS variable of a character status. *)
Definition get_status_color (s : json) : res string :=
  res_bind (py_lower (py_or s (JStr ""))) (fun s =>
  Val (if String.eqb s "alive" then "var(--ok)"
       else if String.eqb s "dead" then "var(--bad)"
       else "var(--warn)")).

(* ================================================================== *)
(** ** The memoising store behind [st.cache_data] *)

(** [st.cache_data(ttl, max_entries)] keeps the values a function returned,
    keyed by its arguments: an entry is served until [ttl] seconds after it
    was stored; storing into a full store first drops the expired entries
    and then the least recently used ones; a call that raises stores
    nothing.  Entries are kept least recently used first. *)
Module Cache.
Section Store.
Context {K V : Type} (eqb : K -> K -> bool).

Record entry : Type := mkEntry { key : K; value : V; expires : Z }.

Definition t : Type := list entry.

Definition live (now : Z) (e : entry) : bool := now <? expires e.

Definition expire (now : Z) (c : t) : t := filter (live now) c.

Fixpoint find (k : K) (c : t) : option entry :=
  match c with
  | [] => None
  | e :: r => if eqb k (key e) then Some e else find k r
  end.

Definition remove (k : K) (c : t) : t :=
  filter (fun e => negb (eqb k (key e))) c.

(** A lookup: the stored value, if it has not expired, and the store with
    the entry moved to the most recently used end. *)
Definition get (now : Z) (k : K) (c : t) : option (V * t) :=
  match find k c with
  | Some e => if live now e then Some (value e, (remove k c ++ [e])%list) else None
  | None => None
  end.

(** Room for one more entry under a bound of [n >= 1] entries. *)
Definition make_room (max_entries : option nat) (c : t) : t :=
  match max_entries with
  | Some n => skipn (List.length c + 1 - n) c
  | None => c
  end.

Definition put (ttl : Z) (max_entries : option nat) (now : Z) (k : K) (v : V)
           (c : t) : t :=
  (make_room max_entries (remove k (expire now c))
     ++ [mkEntry k v (now + ttl)])%list.

End Store.
Arguments entry : clear implicits.
Arguments t : clear implicits.
End Cache.

(* ================================================================== *)
(** ** The world: clock, network, caches and session state *)

(** One [requests.get(url, params=..., timeout=...)]. *)
Record request : Type := mkRequest {
  req_url : string;
  req_params : option params;
  req_timeout : Z
}.

(** What came back: the status code, the body as text, and the body decoded
    as JSON when it is JSON. *)
Record response : Type := mkResponse {
  status_code : Z;
  text : string;
  body : option json
}.

(** The upstream service and the transport to it are outside the program:
    the [n]-th request of a session either fails in transport or is
    answered. *)
Inductive outcome : Type :=
| Fails (msg : string)
| Responds (r : response).

Definition upstream : Type := nat -> request -> outcome.

Inductive page_key : Type :=
| char_page_key   (* "char_page" *)
| ep_page_key     (* "ep_page" *)
| loc_page_key.   (* "loc_page" *)

(** The keys of [st.session_state] the list views use: the three page
    cursors, which the script sets itself, and what Streamlit holds under
    the keys of the widgets: the text of each filter widget ([ep_name] is
    the widget "ep-name", and so on; the empty string, the default of each
    of them, when Streamlit holds nothing), and the number of each page
    number widget ("ep-page-input", "loc-page-input"), when Streamlit holds
    one. *)
Record session : Type := mkSession {
  char_page : Z;
  ep_page : Z;
  loc_page : Z;
  q_name : string;
  q_status : string;
  q_species : string;
  q_gender : string;
  ep_name : string;
  ep_code : string;
  loc_name : string;
  loc_type : string;
  ep_page_input : option Z;
  loc_page_input : option Z
}.

(** The state a fresh session starts from (lines 15-26; no widget has been
    created yet). *)
Definition initial_session : session :=
  mkSession 1 1 1 "" "" "" "" "" "" "" "" None None.

Definition page (k : page_key) (s : session) : Z :=
  match k with
  | char_page_key => char_page s
  | ep_page_key => ep_page s
  | loc_page_key => loc_page s
  end.

Definition with_page (k : page_key) (n : Z) (s : session) : session :=
  match k with
  | char_page_key =>
      mkSession n (ep_page s) (loc_page s) (q_name s) (q_status s)
                (q_species s) (q_gender s) (ep_name s) (ep_code s)
                (loc_name s) (loc_type s) (ep_page_input s) (loc_page_input s)
  | ep_page_key =>
      mkSession (char_page s) n (loc_page s) (q_name s) (q_status s)
                (q_species s) (q_gender s) (ep_name s) (ep_code s)
                (loc_name s) (loc_type s) (ep_page_input s) (loc_page_input s)
  | loc_page_key =>
      mkSession (char_page s) (ep_page s) n (q_name s) (q_status s)
                (q_species s) (q_gender s) (ep_name s) (ep_code s)
                (loc_name s) (loc_type s) (ep_page_input s) (loc_page_input s)
  end.

Definition api_key : Type := string * option params.
Definition fm_key : Type := list string * Z.

Definition api_key_eqb (a b : api_key) : bool :=
  String.eqb (fst a) (fst b)
  && match snd a, snd b with
     | None, None => true
     | Some x, Some y => params_eqb x y
     | _, _ => false
     end.

Fixpoint urls_eqb (a b : list string) : bool :=
  match a, b with
  | [], [] => true
  | x :: a', y :: b' => String.eqb x y && urls_eqb a' b'
  | _, _ => false
  end.

Definition fm_key_eqb (a b : fm_key) : bool :=
  urls_eqb (fst a) (fst b) && Z.eqb (snd a) (snd b).

Record world : Type := mkWorld {
  now : Z;                                (* the clock, in seconds *)
  net_log : list request;                 (* the requests sent so far *)
  api_cache : Cache.t api_key json;       (* the store of [api_get] *)
  fm_cache : Cache.t fm_key (list json);  (* the store of [fetch_multiple] *)
  session_state : session;
  run_keys : list string                  (* the keys of the widgets created in
                                             this run, the latest first *)
}.

Definition with_net_log (l : list request) (w : world) : world :=
  mkWorld (now w) l (api_cache w) (fm_cache w) (session_state w) (run_keys w).
Definition with_api_cache (c : Cache.t api_key json) (w : world) : world :=
  mkWorld (now w) (net_log w) c (fm_cache w) (session_state w) (run_keys w).
Definition with_fm_cache (c : Cache.t fm_key (list json)) (w : world) : world :=
  mkWorld (now w) (net_log w) (api_cache w) c (session_state w) (run_keys w).
Definition with_session (s : session) (w : world) : world :=
  mkWorld (now w) (net_log w) (api_cache w) (fm_cache w) s (run_keys w).
Definition with_run_keys (ks : list string) (w : world) : world :=
  mkWorld (now w) (net_log w) (api_cache w) (fm_cache w) (session_state w) ks.

(** Time passing between two interactions. *)
Definition elapse (d : Z) (w : world) : world :=
  mkWorld (now w + d) (net_log w) (api_cache w) (fm_cache w) (session_state w)
          (run_keys w).

Definition fresh_world (s : session) : world := mkWorld 0 [] [] [] s [].

(* ================================================================== *)
(** ** Computations *)

Definition M (A : Type) : Type := world -> res A * world.

Definition ret {A : Type} (a : A) : M A := fun w => (Val a, w).

Definition raise {A : Type} (e : exn) : M A := fun w => (Exc e, w).

Definition bind {A B : Type} (m : M A) (k : A -> M B) : M B :=
  fun w =>
    match m w with
    | (Val a, w') => k a w'
    | (Exc e, w') => (Exc e, w')
    end.

Definition lift {A : Type} (r : res A) : M A := fun w => (r, w).

(** [try: m  except Exception as e: h e]. *)
Definition try_except {A : Type} (m : M A) (h : exn -> M A) : M A :=
  fun w =>
    match m w with
    | (Val a, w') => (Val a, w')
    | (Exc e, w') => if is_Exception e then h e w' else (Exc e, w')
    end.

Declare Scope py_scope.
Delimit Scope py_scope with py.
Notation "x <- m ;; k" := (bind m (fun x => k))
  (at level 61, m at next level, right associativity) : py_scope.
Notation "m ;; k" := (bind m (fun _ => k))
  (at level 61, right associativity) : py_scope.
Local Open Scope py_scope.

(** [for x in l: body x]. *)
Fixpoint for_each {A : Type} (l : list A) (body : A -> M unit) : M unit :=
  match l with
  | [] => ret tt
  | x :: r => body x ;; for_each r body
  end.

Definition get_session : M session := fun w => (Val (session_state w), w).

Definition set_page (k : page_key) (n : Z) : M unit :=
  fun w => (Val tt, with_session (with_page k n (session_state w)) w).

(** [st.rerun()]. *)
Definition st_rerun {A : Type} : M A := raise RerunException.

(** A widget with the key [key] has been created in this run. *)
Definition rendered (key : string) (w : world) : bool :=
  existsb (String.eqb key) (run_keys w).

(** Streamlit records the key of a widget the run creates. *)
Definition created (key : string) : M unit :=
  fun w => (Val tt, with_run_keys (key :: run_keys w) w).

(* ================================================================== *)
(** ** API functions (section 2 of [app.py]) *)

Definition BASE : string := "https://rickandmortyapi.com/api/".

Section Api.
Variable up : upstream.

(** [requests.get(url, params=params, timeout=timeout)]: the request goes
    out, and either an exception of [requests] is raised or the response
    is returned. *)
Definition requests_get (url : string) (ps : option params) (timeout : Z)
  : M response :=
  fun w =>
    let rq := mkRequest url ps timeout in
    let w' := with_net_log (net_log w ++ [rq])%list w in
    match up (List.length (net_log w)) rq with
    | Fails msg => (Exc (RequestException msg), w')
    | Responds r => (Val r, w')
    end.

(** [r.json()]. *)
Definition r_json (r : response) : M json :=
  match body r with
  | Some j => ret j
  | None => raise JSONDecodeError
  end.

(** The decorator [st.cache_data(ttl=..., max_entries=...)] around a
    function, at one argument tuple [k] with body [m]. *)
Definition cache_data {K V : Type} (eqb : K -> K -> bool)
           (ttl : Z) (max_entries : option nat)
           (store : world -> Cache.t K V)
           (with_store : Cache.t K V -> world -> world)
           (k : K) (m : M V) : M V :=
  fun w =>
    match Cache.get eqb (now w) k (store w) with
    | Some (v, c) => (Val v, with_store c w)
    | None =>
        match m w with
        | (Val v, w') =>
            (Val v,
             with_store (Cache.put eqb ttl max_entries (now w') k v (store w')) w')
        | (Exc e, w') => (Exc e, w')
        end
    end.

(** The body of [api_get] (lines 38-45). *)
Definition api_get_wrapped (endpoint : string) (ps : option params) : M json :=
  let url := BASE ++ endpoint in
  r <- requests_get url ps 20 ;;
  if status_code r =? 200 then r_json r
  else ret (JObj [("error",
                   JStr ("API Error " ++ PyStr.of_int (status_code r)
                         ++ ": " ++ text r))]).

(** [api_get], as the callers see it: memoised for 300 seconds, 50 entries
    at most. *)
Definition api_get (endpoint : string) (ps : option params) : M json :=
  cache_data api_key_eqb 300 (Some 50%nat) api_cache with_api_cache
             (endpoint, ps) (api_get_wrapped endpoint ps).

(** The identifiers [fetch_multiple] collects: one per non-empty URL. *)
Definition fm_ids (urls : list string) : list string :=
  map extract_id_from_url (filter PyStr.truthy urls).

(** The endpoint [fetch_multiple] picks from the first URL. *)
Definition fm_endpoint (u0 : string) : string :=
  if PyStr.contains "character" u0 then "character" else "episode".

(** The body of [fetch_multiple] (lines 48-70). *)
Definition fetch_multiple_wrapped (urls : list string) (limit : Z)
  : M (list json) :=
  let ids := fm_ids urls in
  match ids with
  | [] => ret []
  | _ :: _ =>
      let ids_to_fetch := py_slice_to limit ids in
      match urls with
      | [] => raise IndexError
      | u0 :: _ =>
          let endpoint := fm_endpoint u0 in
          let bulk_url :=
            BASE ++ endpoint ++ "/" ++ PyStr.join "," ids_to_fetch in
          try_except
            (r <- requests_get bulk_url None 20 ;;
             if status_code r =? 200 then
               result <- r_json r ;;
               ret (match result with
                    | JList l => l
                    | _ => [result]
                    end)
             else ret [])
            (fun _ => ret [])
      end
  end.

(** [fetch_multiple], as the callers see it: memoised for 300 seconds,
    without a bound on the number of entries. *)
Definition fetch_multiple (urls : list string) (limit : Z) : M (list json) :=
  cache_data fm_key_eqb 300 None fm_cache with_fm_cache
             (urls, limit) (fetch_multiple_wrapped urls limit).

(* ================================================================ *)
(** ** Callbacks, widgets and the pager (section 3) *)

(** [reset_char_page]. *)
Definition reset_char_page : M unit := set_page char_page_key 1.

Inductive widget : Type :=
| W_q_name | W_q_status | W_q_species | W_q_gender
| W_ep_name | W_ep_code
| W_loc_name | W_loc_type.

(** What the user did to start a run of the script. *)
Inductive event : Type :=
| NoEvent
| TextChanged (wd : widget) (v : string)
| NumberChanged (key : string) (n : Z)
| Clicked (key : string).

Definition widget_value (wd : widget) (s : session) : string :=
  match wd with
  | W_q_name => q_name s
  | W_q_status => q_status s
  | W_q_species => q_species s
  | W_q_gender => q_gender s
  | W_ep_name => ep_name s
  | W_ep_code => ep_code s
  | W_loc_name => loc_name s
  | W_loc_type => loc_type s
  end.

Definition with_widget (wd : widget) (v : string) (s : session) : session :=
  let pick (x : widget -> bool) (old : string) := if x wd then v else old in
  mkSession (char_page s) (ep_page s) (loc_page s)
    (pick (fun x => match x with W_q_name => true | _ => false end) (q_name s))
    (pick (fun x => match x with W_q_status => true | _ => false end) (q_status s))
    (pick (fun x => match x with W_q_species => true | _ => false end) (q_species s))
    (pick (fun x => match x with W_q_gender => true | _ => false end) (q_gender s))
    (pick (fun x => match x with W_ep_name => true | _ => false end) (ep_name s))
    (pick (fun x => match x with W_ep_code => true | _ => false end) (ep_code s))
    (pick (fun x => match x with W_loc_name => true | _ => false end) (loc_name s))
    (pick (fun x => match x with W_loc_type => true | _ => false end) (loc_type s))
    (ep_page_input s) (loc_page_input s).

(** The key each filter widget is created with. *)
Definition widget_key (wd : widget) : string :=
  match wd with
  | W_q_name => "q_name"
  | W_q_status => "q_status"
  | W_q_species => "q_species"
  | W_q_gender => "q_gender"
  | W_ep_name => "ep-name"
  | W_ep_code => "ep-code"
  | W_loc_name => "loc-name"
  | W_loc_type => "loc-type"
  end.

(** The two page number widgets (lines 318 and 358), their keys, their
    [min_value], and what Streamlit holds for them. *)
Inductive number_widget : Type := N_ep_page | N_loc_page.

Definition number_key (nw : number_widget) : string :=
  match nw with
  | N_ep_page => "ep-page-input"
  | N_loc_page => "loc-page-input"
  end.

Definition number_min (nw : number_widget) : Z := 1.

Definition number_held (nw : number_widget) (s : session) : option Z :=
  match nw with
  | N_ep_page => ep_page_input s
  | N_loc_page => loc_page_input s
  end.

Definition with_number (nw : number_widget) (v : option Z) (s : session)
  : session :=
  mkSession (char_page s) (ep_page s) (loc_page s) (q_name s) (q_status s)
            (q_species s) (q_gender s) (ep_name s) (ep_code s) (loc_name s)
            (loc_type s)
            (match nw with N_ep_page => v | N_loc_page => ep_page_input s end)
            (match nw with N_ep_page => loc_page_input s | N_loc_page => v end).

Definition number_widget_of_key (key : string) : option number_widget :=
  if String.eqb key (number_key N_ep_page) then Some N_ep_page
  else if String.eqb key (number_key N_loc_page) then Some N_loc_page
  else None.

(** The [on_change] callback each filter widget is created with: the four
    character filters name [reset_char_page] (lines 258-266); the episode
    and location filters name none (lines 314-316, 354-356). *)
Definition on_change (wd : widget) : option (M unit) :=
  match wd with
  | W_q_name | W_q_status | W_q_species | W_q_gender => Some reset_char_page
  | W_ep_name | W_ep_code | W_loc_name | W_loc_type => None
  end.

Definition set_number (nw : number_widget) (v : option Z) : M unit :=
  fun w => (Val tt, with_session (with_number nw v (session_state w)) w).

(** Before the script runs again, Streamlit stores the new value of the
    widget the user changed and calls its callback.  A number widget takes
    a number from its [min_value] on. *)
Definition apply_event (ev : event) : M unit :=
  match ev with
  | TextChanged wd v =>
      (fun w => (Val tt, with_session (with_widget wd v (session_state w)) w)) ;;
      match on_change wd with
      | Some callback => callback
      | None => ret tt
      end
  | NumberChanged key n =>
      match number_widget_of_key key with
      | Some nw => if number_min nw <=? n then set_number nw (Some n) else ret tt
      | None => ret tt
      end
  | _ => ret tt
  end.

(** [st.text_input(..., key=wd)] and [st.selectbox(..., key=wd)]: the
    widget is created, and its value is what Streamlit holds under the
    key. *)
Definition text_input (wd : widget) : M string :=
  created (widget_key wd) ;;
  s <- get_session ;; ret (widget_value wd s).

(** [st.number_input(min_value=..., value=..., key=...)]: the widget is
    created; a [value] below [min_value] is refused; the number is the one
    Streamlit holds under the key, and when it holds none, [value], which
    it then holds. *)
Definition number_input (nw : number_widget) (min_value value : Z) : M Z :=
  created (number_key nw) ;;
  if value <? min_value then raise StreamlitAPIException
  else
    s <- get_session ;;
    let n := match number_held nw s with
             | Some held => held
             | None => value
             end in
    set_number nw (Some n) ;;
    ret n.

(** [st.button(..., key=key, on_click=...)] whose result is not used: the
    widget is created, which Streamlit refuses when the run has created a
    widget with this key before. *)
Definition keyed_button (key : string) : M unit :=
  fun w => if rendered key w then (Exc StreamlitAPIException, w)
           else created key w.

(** [st.button(..., disabled=..., key=...)]: true in the run started by a
    click on this button; a disabled button cannot be clicked.  The pager
    buttons and the theme button have fixed keys, which differ from each
    other and from every other key, the Back button has none, and a button
    holds no value between runs: they are not recorded. *)
Definition button (ev : event) (key : string) (disabled : bool) : bool :=
  match ev with
  | Clicked k => String.eqb k key && negb disabled
  | _ => false
  end.

(** [pager_controls] (lines 112-132). *)
Definition pager_controls (ev : event) (info : json)
           (current_page_key : page_key) (key_prefix : string) : M unit :=
  s <- get_session ;;
  let current_page := page current_page_key s in
  total_pages <- lift (py_get info "pages" (JNum current_page)) ;;
  (if button ev (key_prefix ++ "-prev") (current_page <=? 1)
   then set_page current_page_key (Z.max 1 (current_page - 1)) ;; st_rerun
   else ret tt) ;;
  total <- lift (py_number total_pages) ;;
  if button ev (key_prefix ++ "-next") (current_page >=? total)
  then set_page current_page_key (Z.min total (current_page + 1)) ;; st_rerun
  else ret tt.

(* ================================================================== *)
(** ** View rendering functions (section 4) *)

(** The data accesses of [render_character_card] (lines 139-148), which
    give the identifier of the character.  The default of the species and
    of the origin name is a dash that is only displayed. *)
Definition card_fields (char : json) : res json :=
  res_bind (py_get char "id" JNull) (fun char_id =>
  res_bind (py_get char "status" (JStr "unknown")) (fun status =>
  res_bind (status_class status) (fun badge =>
  res_bind (py_get char "image" (JStr "")) (fun img =>
  res_bind (py_get char "name" (JStr "Unknown")) (fun title =>
  res_bind (py_get char "species" (JStr "-")) (fun species =>
  res_bind (py_get char "origin" JNull) (fun o =>
  res_bind (py_get (py_or o (JObj [])) "name" (JStr "-")) (fun origin =>
  res_bind (get_status_color status) (fun status_color =>
  Val char_id))))))))).

(** The key of the "View Details" button of a card (line 173). *)
Definition card_key (char_id : json) : string := "char_btn_" ++ py_str char_id.

(** [render_character_card] (lines 135-179): the card is display, the
    button is created with the key of the character. *)
Definition render_character_card (char : json) : M unit :=
  char_id <- lift (card_fields char) ;;
  keyed_button (card_key char_id).

(** The request parameters of the character list (lines 270-274). *)
Definition character_params (page : Z) (name status species gender : string)
  : params :=
  let ps := [("page", PInt page)] in
  let ps := if PyStr.truthy name then dict_set "name" (PStr name) ps else ps in
  let ps := if PyStr.truthy status then dict_set "status" (PStr status) ps else ps in
  let ps := if PyStr.truthy species then dict_set "species" (PStr species) ps else ps in
  let ps := if PyStr.truthy gender then dict_set "gender" (PStr gender) ps else ps in
  ps.

(** The request parameters of the episode list (lines 321-323). *)
Definition episode_params (page : Z) (name code : string) : params :=
  let ps := [("page", PInt page)] in
  let ps := if PyStr.truthy name then dict_set "name" (PStr name) ps else ps in
  let ps := if PyStr.truthy code then dict_set "episode" (PStr code) ps else ps in
  ps.

(** The request parameters of the location list (lines 361-363). *)
Definition location_params (page : Z) (name type : string) : params :=
  let ps := [("page", PInt page)] in
  let ps := if PyStr.truthy name then dict_set "name" (PStr name) ps else ps in
  let ps := if PyStr.truthy type then dict_set "type" (PStr type) ps else ps in
  ps.

(** What [render_character_list] does with the reply of the API call
    (lines 279-304). *)
Definition show_character_reply (ev : event) (data : json) : M unit :=
  is_error <- lift (py_in "error" data) ;;
  if is_error then
    _ <- lift (py_getitem data "error") ;;
    s <- get_session ;;
    if negb (char_page s =? 1)
    then set_page char_page_key 1 ;; st_rerun
    else ret tt
  else
    info <- lift (py_get data "info" (JObj [])) ;;
    results <- lift (py_get data "results" (JList [])) ;;
    if py_truthy results then
      items <- lift (py_iter results) ;;
      for_each items render_character_card ;;
      pager_controls ev info char_page_key "char_bottom"
    else ret tt.

(** [render_character_list] (lines 249-304). *)
Definition render_character_list (ev : event) : M unit :=
  _ <- text_input W_q_name ;;
  _ <- text_input W_q_status ;;
  _ <- text_input W_q_species ;;
  _ <- text_input W_q_gender ;;
  s <- get_session ;;
  let ps := character_params (char_page s) (q_name s) (q_status s)
                             (q_species s) (q_gender s) in
  data <- api_get "character" (Some ps) ;;
  show_character_reply ev data.

(** One item of the episode list (lines 333-341). *)
Definition render_episode_item (ep : json) : M unit :=
  _ <- lift (py_getitem ep "name") ;;
  _ <- lift (py_getitem ep "episode") ;;
  _ <- lift (py_getitem ep "air_date") ;;
  _ <- lift (py_getitem ep "id") ;;
  refs <- lift (py_get ep "characters" (JList [])) ;;
  urls <- lift (as_urls refs) ;;
  chars <- fetch_multiple urls 10 ;;
  for_each chars (fun c => _ <- lift (py_getitem c "name") ;; ret tt).

(** What [render_episodes] does with the reply of the API call (lines
    326-344). *)
Definition show_episodes_reply (ev : event) (data : json) : M unit :=
  is_error <- lift (py_in "error" data) ;;
  if is_error then
    _ <- lift (py_getitem data "error") ;; ret tt
  else
    info <- lift (py_get data "info" (JObj [])) ;;
    results <- lift (py_get data "results" (JList [])) ;;
    if py_truthy results then
      items <- lift (py_iter results) ;;
      for_each items render_episode_item ;;
      pager_controls ev info ep_page_key "ep_bottom"
    else ret tt.

(** [render_episodes] (lines 307-344). *)
Definition render_episodes (ev : event) : M unit :=
  name <- text_input W_ep_name ;;
  code <- text_input W_ep_code ;;
  s <- get_session ;;
  n <- number_input N_ep_page 1 (ep_page s) ;;
  set_page ep_page_key n ;;
  s <- get_session ;;
  let ps := episode_params (ep_page s) name code in
  data <- api_get "episode" (Some ps) ;;
  show_episodes_reply ev data.

(** One item of the location list (lines 372-380). *)
Definition render_location_item (loc : json) : M unit :=
  _ <- lift (py_getitem loc "name") ;;
  _ <- lift (py_getitem loc "type") ;;
  _ <- lift (py_getitem loc "dimension") ;;
  _ <- lift (py_getitem loc "id") ;;
  refs <- lift (py_get loc "residents" (JList [])) ;;
  urls <- lift (as_urls refs) ;;
  residents <- fetch_multiple urls 10 ;;
  for_each residents (fun r => _ <- lift (py_getitem r "name") ;; ret tt).

(** What [render_locations] does with the reply of the API call (lines
    366-383). *)
Definition show_locations_reply (ev : event) (data : json) : M unit :=
  is_error <- lift (py_in "error" data) ;;
  if is_error then
    _ <- lift (py_getitem data "error") ;; ret tt
  else
    info <- lift (py_get data "info" (JObj [])) ;;
    results <- lift (py_get data "results" (JList [])) ;;
    if py_truthy results then
      items <- lift (py_iter results) ;;
      for_each items render_location_item ;;
      pager_controls ev info loc_page_key "loc_bottom"
    else ret tt.

(** [render_locations] (lines 347-383). *)
Definition render_locations (ev : event) : M unit :=
  name <- text_input W_loc_name ;;
  type <- text_input W_loc_type ;;
  s <- get_session ;;
  n <- number_input N_loc_page 1 (loc_page s) ;;
  set_page loc_page_key n ;;
  s <- get_session ;;
  let ps := location_params (loc_page s) name type in
  data <- api_get "location" (Some ps) ;;
  show_locations_reply ev data.

(** The three list views. *)
Inductive view : Type := Characters | Episodes | Locations.


Definition render (v : view) (ev : event) : M unit :=
  match v with
  | Characters => render_character_list ev
  | Episodes => render_episodes ev
  | Locations => render_locations ev
  end.

(** One interaction with a view: the event is applied, then the view is
    rendered. *)
Definition interact (v : view) (ev : event) : M unit :=
  apply_event ev ;; render v ev.

(** The pager alone, driven by a sequence of events under one [info]. *)
Fixpoint pager_run (evs : list event) (info : json) (k : page_key)
         (key_prefix : string) (w : world) : world :=
  match evs with
  | [] => w
  | ev :: r =>
      pager_run r info k key_prefix (snd (pager_controls ev info k key_prefix w))
  end.

End Api.

(* ================================================================== *)
(** ** Reference URLs and sample data *)

(** The three kinds of entity, and the reference URL the upstream service
    uses for the entity of a kind with a given identifier. *)
Inductive kind : Type := Character | Episode | Location.

Definition kind_name (k : kind) : string :=
  match k with
  | Character => "character"
  | Episode => "episode"
  | Location => "location"
  end.

Definition ref_url (k : kind) (id : positive) : string :=
  BASE ++ kind_name k ++ "/" ++ PyStr.of_int (Z.pos id).

(** The endpoint on which [fetch_multiple] looks up references of a kind. *)
Definition served_endpoint (k : kind) : string :=
  match k with
  | Character => "character"
  | Episode | Location => "episode"
  end.

(** A reply that is an error dictionary: a dictionary with the key "error". *)
Definition is_error_reply (data : json) : bool :=
  match data with
  | JObj m => match dict_get "error" m with Some _ => true | None => false end
  | _ => false
  end.

(** The page a view shows in a run without an interaction: in the
    character list the page cursor; in the other two views the number of
    the page widget, which is the one Streamlit holds and, when it holds
    none, the page cursor. *)
Definition shown_page (v : view) (s : session) : Z :=
  match v with
  | Characters => char_page s
  | Episodes =>
      match ep_page_input s with Some n => n | None => ep_page s end
  | Locations =>
      match loc_page_input s with Some n => n | None => loc_page s end
  end.


Definition view_params (v : view) (s : session) : params :=
  match v with
  | Characters =>
      character_params (shown_page v s) (q_name s) (q_status s) (q_species s)
                       (q_gender s)
  | Episodes => episode_params (shown_page v s) (ep_name s) (ep_code s)
  | Locations => location_params (shown_page v s) (loc_name s) (loc_type s)
  end.

(** The keys of the filter and page widgets a view creates, the latest
    first. *)
Definition view_keys (v : view) : list string :=
  match v with
  | Characters => ["q_gender"; "q_species"; "q_status"; "q_name"]
  | Episodes => ["ep-page-input"; "ep-code"; "ep-name"]
  | Locations => ["loc-page-input"; "loc-type"; "loc-name"]
  end.

(** Upstreams for the examples: one that gives the same outcome to every
    request, and one whose first outcome differs from the later ones. *)
Definition always (o : outcome) : upstream := fun _ _ => o.

Definition first_then (o1 o2 : outcome) : upstream :=
  fun n _ => match n with O => o1 | S _ => o2 end.

Definition not_found : outcome :=
  Responds (mkResponse 404 "There is nothing here" None).

Definition timed_out : outcome := Fails "Read timed out.".

Definition rick : json :=
  JObj [("id", JNum 1); ("name", JStr "Rick Sanchez");
        ("status", JStr "Alive"); ("species", JStr "Human");
        ("image",
         JStr "https://rickandmortyapi.com/api/character/avatar/1.jpeg");
        ("origin", JObj [("name", JStr "Earth (C-137)")])].

Definition pilot : json :=
  JObj [("id", JNum 1); ("name", JStr "Pilot");
        ("air_date", JStr "December 2, 2013"); ("episode", JStr "S01E01")].

(** A successful list reply that reports 5 items on 1 page. *)
Definition one_page_reply : json :=
  JObj [("info", JObj [("count", JNum 5); ("pages", JNum 1)]);
        ("results", JList [rick])].


Definition answers (j : json) : outcome :=
  Responds (mkResponse 200 "" (Some j)).

(** A session on page 2 of the character list with the filter status =
    alive. *)
Definition alive_page_2 : session :=
  mkSession 2 1 1 "" "alive" "" "" "" "" "" "" None None.

(** A session on page 3 of the episode list, the number entered in the
    page widget. *)
Definition episodes_page_3 : session :=
  mkSession 1 3 1 "" "" "" "" "" "" "" "" (Some 3) None.


(** The request [api_get] sends for an endpoint and parameters, and the
    value it returns for a response whose status is not 200. *)
Definition api_request (endpoint : string) (ps : option params) : request :=
  mkRequest (BASE ++ endpoint) ps 20.

Definition api_error (r : response) : json :=
  JObj [("error",
         JStr ("API Error " ++ PyStr.of_int (status_code r) ++ ": " ++ text r))].

(** The request [fetch_multiple] sends when the first URL is [u0] and the
    identifiers to fetch are [ids_to_fetch]. *)
Definition bulk_request (u0 : string) (ids_to_fetch : list string) : request :=
  mkRequest (BASE ++ fm_endpoint u0 ++ "/" ++ PyStr.join "," ids_to_fetch)
            None 20.

(** A string of decimal digits, possibly empty. *)
Fixpoint all_digits (s : string) : bool :=
  match s with
  | EmptyString => true
  | String c r => Re.is_digit c && all_digits r
  end.

(** A result that is the request for a rerun. *)
Definition reruns {A : Type} (r : res A) : bool :=
  match r with
  | Exc RerunException => true
  | _ => false
  end.

(** A computation is quiet when it neither asks for a rerun nor changes the
    session state; a result is calm when it is not a request for a rerun. *)
Definition quiet {A : Type} (m : M A) : Prop :=
  forall w, reruns (fst (m w)) = false
            /\ session_state (snd (m w)) = session_state w.

Definition calm {A : Type} (r : res A) : Prop := reruns r = false.

(** The page of a pager is within the bounds the response reports. *)
Definition in_bounds (k : page_key) (total : Z) (w : world) : Prop :=
  1 <= page k (session_state w) <= total.

(** The tails the pattern accepts after the digits: nothing or a slash, and
    then the end of the string or its final newline. *)
Definition id_tail (t : string) : Prop :=
  t = "" \/ t = String Re.newline "" \/ t = "/" \/ t = String "/" (String Re.newline "").

(** A slash directly followed by a digit somewhere in the string. *)
Fixpoint slash_digit (s : string) : bool :=
  match s with
  | String "/" (String c _ as r) => Re.is_digit c || slash_digit r
  | String _ r => slash_digit r
  | EmptyString => false
  end.

(** The identifier of a character, [char.get('id')], and the characters a
    card can show: dictionaries whose status, when there is one that is
    true, is a string, and whose origin, when there is one that is true, is
    a dictionary. *)
Definition card_id (ch : json) : json :=
  match ch with
  | JObj m => match dict_get "id" m with Some v => v | None => JNull end
  | _ => JNull
  end.

Definition card_shape (ch : json) : Prop :=
  exists m,
    ch = JObj m
    /\ (let status := match dict_get "status" m with
                      | Some v => v
                      | None => JStr "unknown"
                      end in
        py_truthy status = false \/ exists s, status = JStr s)
    /\ (let origin := match dict_get "origin" m with
                      | Some v => v
                      | None => JNull
                      end in
        py_truthy origin = false \/ exists o, origin = JObj o).

(** The keys of the buttons of a list of cards, the latest first. *)
Definition card_keys (items : list json) : list string :=
  rev (map (fun ch => card_key (card_id ch)) items).

(** A filter field with value [value] is sent under the key [key] exactly
    when the value is not empty, and then with that value. *)
Definition emits_filter (ps : params) (key value : string) : Prop :=
  (In key (dict_keys ps) <-> value <> "")
  /\ dict_get key ps = if PyStr.truthy value then Some (PStr value) else None.

(* ================================================================== *)
(** ** Navigation, theme and the character detail page *)

(** The other keys of [st.session_state] (lines 15-26): the view shown in
    the first tab, the character selected for it, and the theme.  A
    character identifier is an integer, as [render_character_detail_page]
    declares it, or [None]. *)
Record nav : Type := mkNav {
  page_view : string;
  selected_char_id : option Z;
  theme : string
}.

Definition initial_nav : nav := mkNav "Characters" None "dark".

(** [toggle_theme]. *)
Definition toggle_theme (n : nav) : nav :=
  mkNav (page_view n) (selected_char_id n)
        (if String.eqb (theme n) "dark" then "light" else "dark").

(** [set_detail_view]. *)
Definition set_detail_view (char_id : option Z) (n : nav) : nav :=
  mkNav "Character_Detail" char_id (theme n).

(** [set_list_view]. *)
Definition set_list_view (n : nav) : nav :=
  mkNav "Characters" None (theme n).

(** The whole state of a session, and the computations of the script that
    also read and write the navigation keys. *)
Record app : Type := mkApp { app_nav : nav; app_world : world }.

Definition App (A : Type) : Type := app -> res A * app.

Definition app_ret {A : Type} (a : A) : App A := fun s => (Val a, s).

Definition app_bind {A B : Type} (m : App A) (k : A -> App B) : App B :=
  fun s =>
    match m s with
    | (Val a, s') => k a s'
    | (Exc e, s') => (Exc e, s')
    end.

(** A computation on the world, run in the whole state. *)
Definition app_lift {A : Type} (m : M A) : App A :=
  fun s =>
    let (r, w) := m (app_world s) in (r, mkApp (app_nav s) w).

Definition get_nav : App nav := fun s => (Val (app_nav s), s).

Definition modify_nav (f : nav -> nav) : App unit :=
  fun s => (Val tt, mkApp (f (app_nav s)) (app_world s)).

Declare Scope app_scope.
Delimit Scope app_scope with app.
Notation "x <- m ;; k" := (app_bind m (fun x => k))
  (at level 61, m at next level, right associativity) : app_scope.
Notation "m ;; k" := (app_bind m (fun _ => k))
  (at level 61, right associativity) : app_scope.

(** [len(x)]. *)
Definition py_len (j : json) : res Z :=
  match j with
  | JList l => Val (Z.of_nat (List.length l))
  | JStr s => Val (Z.of_nat (String.length s))
  | JObj m => Val (Z.of_nat (List.length m))
  | _ => Exc TypeError
  end.

(** What the user did to start a run of the script: an interaction with a
    widget of the list views (or none), a click on the "View Details" button
    of a card, which was created with the identifier of its character, a
    click on "Back to Characters", or a click on the theme button. *)
Inductive app_event : Type :=
| ListEvent (ev : event)
| ViewDetails (char_id : option Z)
| BackToCharacters
| ThemeToggled.

Definition list_event (aev : app_event) : event :=
  match aev with
  | ListEvent ev => ev
  | _ => NoEvent
  end.

Definition back_clicked (aev : app_event) : bool :=
  match aev with
  | BackToCharacters => true
  | _ => false
  end.

Section Script.
Variable up : upstream.

(** What [render_character_detail_page] does with the reply of the API call
    (lines 199-247). *)
Definition show_character_detail (data : json) : M unit :=
  (is_error <- lift (py_in "error" data) ;;
   if is_error then ret tt
   else
     let char := data in
     _ <- lift (py_getitem char "name") ;;
     status <- lift (py_get char "status" JNull) ;;
     _ <- lift (status_class status) ;;
     _ <- lift (py_get char "status" (JStr "Unknown")) ;;
     _ <- lift (py_getitem char "image") ;;
     _ <- lift (py_getitem char "species") ;;
     _ <- lift (py_get char "species" (JStr "Unknown")) ;;
     _ <- lift (py_get char "gender" (JStr "Unknown")) ;;
     origin <- lift (py_get char "origin" (JObj [])) ;;
     _ <- lift (py_get origin "name" (JStr "Unknown")) ;;
     location <- lift (py_get char "location" (JObj [])) ;;
     _ <- lift (py_get location "name" (JStr "Unknown")) ;;
     _ <- lift (py_get char "type" JNull) ;;
     episode_urls <- lift (py_get char "episode" (JList [])) ;;
     if py_truthy episode_urls then
       n <- lift (py_len episode_urls) ;;
       urls <- lift (as_urls episode_urls) ;;
       episodes <- fetch_multiple up urls n ;;
       for_each episodes (fun ep =>
         _ <- lift (py_get ep "name" JNull) ;;
         _ <- lift (py_get ep "episode" JNull) ;;
         _ <- lift (py_get ep "air_date" JNull) ;;
         ret tt)
     else ret tt)%py.

(** [render_character_detail_page] (lines 186-247). *)
Definition render_character_detail_page (aev : app_event) (char_id : Z)
  : App unit :=
  (data <- app_lift (api_get up ("character/" ++ PyStr.of_int char_id) None) ;;
   (if back_clicked aev
    then modify_nav set_list_view ;; app_lift st_rerun
    else app_ret tt) ;;
   app_lift (show_character_detail data))%app.

(** The first tab (lines 649-654): the detail page when a character is
    selected, else the list. *)
Definition render_characters_tab (aev : app_event) : App unit :=
  (n <- get_nav ;;
   match selected_char_id n with
   | Some char_id =>
       if String.eqb (page_view n) "Character_Detail"
       then render_character_detail_page aev char_id
       else app_lift (render_character_list up (list_event aev))
   | None => app_lift (render_character_list up (list_event aev))
   end)%app.

(** The script from the header on (lines 633-662): the three tabs are
    rendered one after the other. *)
Definition script (aev : app_event) : App unit :=
  (render_characters_tab aev ;;
   app_lift (render_episodes up (list_event aev)) ;;
   app_lift (render_locations up (list_event aev)))%app.

(** Before the script runs, the callback of the widget the user touched is
    called: [set_detail_view] for a card button, [toggle_theme] for the
    theme button, the callback of a filter for a filter. *)
Definition apply_app_event (aev : app_event) : App unit :=
  match aev with
  | ListEvent ev => app_lift (apply_event ev)
  | ViewDetails char_id => modify_nav (set_detail_view char_id)
  | ThemeToggled => modify_nav toggle_theme
  | BackToCharacters => app_ret tt
  end.

(** A run starts with no widget created. *)
Definition new_run (w : world) : world := with_run_keys [] w.

Definition start_run : App unit :=
  fun s => (Val tt, mkApp (app_nav s) (new_run (app_world s))).

(** After a run that ended normally or by [st.rerun()], Streamlit forgets
    what it holds for the widgets the run did not create; after a run that
    an exception ended it keeps everything. *)
Definition forget_unrendered (w : world) : world :=
  let s := session_state w in
  let text (wd : widget) := if rendered (widget_key wd) w
                            then widget_value wd s else "" in
  let number (nw : number_widget) := if rendered (number_key nw) w
                                     then number_held nw s else None in
  with_session
    (mkSession (char_page s) (ep_page s) (loc_page s)
               (text W_q_name) (text W_q_status) (text W_q_species)
               (text W_q_gender) (text W_ep_name) (text W_ep_code)
               (text W_loc_name) (text W_loc_type)
               (number N_ep_page) (number N_loc_page))
    w.

Definition finish_run (r : res unit * app) : res unit * app :=
  match r with
  | (Val _, s) | (Exc RerunException, s) =>
      (fst r, mkApp (app_nav s) (forget_unrendered (app_world s)))
  | (Exc _, _) => r
  end.

(** One run of the script for an interaction. *)
Definition run_script (aev : app_event) : App unit :=
  fun s => finish_run ((start_run ;; apply_app_event aev ;; script aev)%app s).

(** [st.rerun()] starts the script again, without an interaction; [settle]
    follows these reruns, [fuel] of them at most. *)
Fixpoint settle (fuel : nat) (r : res unit * app) : res unit * app :=
  match fuel with
  | O => r
  | S fuel' =>
      match r with
      | (Exc RerunException, s) => settle fuel' (run_script (ListEvent NoEvent) s)
      | _ => r
      end
  end.

End Script.

(** The requests a computation adds to the log are at most [n]. *)
Definition sends_at_most {A : Type} (n : nat) (m : M A) : Prop :=
  forall w, exists sent,
    net_log (snd (m w)) = (net_log w ++ sent)%list
    /\ (List.length sent <= n)%nat.

(** A computation of the script is quiet when it neither asks for a rerun
    nor changes the navigation keys or the session state. *)
Definition app_quiet {A : Type} (m : App A) : Prop :=
  forall s, reruns (fst (m s)) = false
            /\ app_nav (snd (m s)) = app_nav s
            /\ session_state (app_world (snd (m s)))
               = session_state (app_world s).

(** A computation keeps a property of the world. *)
Definition keeps {A : Type} (P : world -> Prop) (m : M A) : Prop :=
  forall w, P w -> P (snd (m w)).

Definition app_keeps {A : Type} (P : world -> Prop) (m : App A) : Prop :=
  forall s, P (app_world s) -> P (app_world (snd (m s))).

(** The store of [api_get] holds at most 50 entries. *)
Definition store_bounded (w : world) : Prop :=
  (List.length (api_cache w) <= 50)%nat.

(** Every page cursor is at least 1, and so is every number Streamlit
    holds for a page widget. *)
Definition pages_from_1 (w : world) : Prop :=
  (forall k, 1 <= page k (session_state w))
  /\ (forall nw n, number_held nw (session_state w) = Some n -> 1 <= n).

(** Every request sent went to a URL under [BASE], with a timeout of 20
    seconds. *)
Definition requests_to_api (w : world) : Prop :=
  Forall (fun rq => PyStr.starts_with BASE (req_url rq) = true
                    /\ req_timeout rq = 20) (net_log w).

(** The number of items a list view shows for a reply. *)
Definition shown_items (data : json) : nat :=
  match py_get data "results" (JList []) with
  | Val results =>
      match py_iter results with
      | Val items => List.length items
      | Exc _ => O
      end
  | Exc _ => O
  end.

(* ================================================================== *)
(** * Properties *)

Example extract_id_episode_28 :
  extract_id_from_url "https://rickandmortyapi.com/api/episode/28" = "28".
Proof. reflexivity. Qed.

Example extract_id_trailing_slash :
  extract_id_from_url "https://rickandmortyapi.com/api/episode/28/" = "28".
Proof. reflexivity. Qed.

Example extract_id_malformed :
  extract_id_from_url "https://rickandmortyapi.com/api/episode/" = "".
Proof. reflexivity. Qed.

(** ** Strings and keys *)

Lemma truthy_iff (s : string) : PyStr.truthy s = true <-> s <> "".
Proof. destruct s; simpl; split; congruence. Qed.

Lemma eqb_append_cancel (p a b : string) :
  String.eqb (p ++ a) (p ++ b) = String.eqb a b.
Proof.
  induction p as [|c p IH]; simpl; [reflexivity|].
  now rewrite Ascii.eqb_refl.
Qed.

(** [needle in s] says that [needle] is a substring of [s]. *)
Lemma starts_with_iff (p s : string) :
  PyStr.starts_with p s = true <-> exists b, s = p ++ b.
Proof.
  revert s. induction p as [|a p IH]; intros s; simpl.
  - split; [intros _; now exists s | reflexivity].
  - destruct s as [|c s].
    + split; [discriminate | intros [b Hb]; discriminate].
    + rewrite andb_true_iff, IH. split.
      * intros [Hac [b ->]]. apply Ascii.eqb_eq in Hac as ->. now exists b.
      * intros [b [= -> ->]]. split; [apply Ascii.eqb_refl | now exists b].
Qed.

Lemma contains_iff (needle s : string) :
  PyStr.contains needle s = true <-> exists a b, s = a ++ needle ++ b.
Proof.
  induction s as [|c s IH].
  - simpl. rewrite orb_false_r, starts_with_iff. split.
    + intros [b Hb]. now exists "", b.
    + intros (a & b & H). destruct a; [now exists b | discriminate].
  - cbn [PyStr.contains]. rewrite orb_true_iff, starts_with_iff, IH. split.
    + intros [[b Hb] | (a & b & ->)].
      * now exists "", b.
      * now exists (String c a), b.
    + intros (a & b & H). destruct a as [|c' a].
      * left. now exists b.
      * right. injection H as _ ->. now exists a, b.
Qed.

Lemma pval_eqb_refl (v : pval) : pval_eqb v v = true.
Proof. destruct v; simpl; [apply Z.eqb_refl | apply String.eqb_refl]. Qed.

Lemma params_eqb_refl (ps : params) : params_eqb ps ps = true.
Proof.
  induction ps as [|[k v] ps IH]; simpl; [reflexivity|].
  now rewrite String.eqb_refl, pval_eqb_refl, IH.
Qed.

Lemma api_key_eqb_refl (k : api_key) : api_key_eqb k k = true.
Proof.
  destruct k as [e [ps|]]; unfold api_key_eqb; simpl;
    rewrite String.eqb_refl; simpl; [apply params_eqb_refl | reflexivity].
Qed.

Lemma page_with_page (k : page_key) (n : Z) (s : session) :
  page k (with_page k n s) = n.
Proof. destruct k; reflexivity. Qed.

Lemma with_page_same (k : page_key) (s : session) :
  with_page k (page k s) s = s.
Proof. destruct k, s; reflexivity. Qed.

Lemma with_session_same (w : world) : with_session (session_state w) w = w.
Proof. destruct w; reflexivity. Qed.

(** ** The query builder *)

(** C10.  For every page number and every value of the filter fields, the
    request parameters of each of the three list views hold the page number
    under "page", hold a filter field under its key exactly when the value
    of the field is not the empty string (and then with that value), and
    hold no other key. *)
Theorem request_params_hold_page_and_nonempty_filters :
  forall (n : Z) (name status species gender code type : string),
    let cp := character_params n name status species gender in
    let ep := episode_params n name code in
    let lp := location_params n name type in
    (dict_get "page" cp = Some (PInt n)
     /\ emits_filter cp "name" name
     /\ emits_filter cp "status" status
     /\ emits_filter cp "species" species
     /\ emits_filter cp "gender" gender
     /\ incl (dict_keys cp) ["page"; "name"; "status"; "species"; "gender"])
    /\ (dict_get "page" ep = Some (PInt n)
        /\ emits_filter ep "name" name
        /\ emits_filter ep "episode" code
        /\ incl (dict_keys ep) ["page"; "name"; "episode"])
    /\ (dict_get "page" lp = Some (PInt n)
        /\ emits_filter lp "name" name
        /\ emits_filter lp "type" type
        /\ incl (dict_keys lp) ["page"; "name"; "type"]).
Proof.
  intros n name status species gender code type.
  unfold emits_filter, incl.
  destruct name, status, species, gender, code, type; cbn;
    repeat split; try reflexivity; try discriminate; try tauto;
    intros; intuition (try discriminate; try congruence).
Qed.

(** ** The pager *)

Section Pager.
Variables (members : list (string * json)) (k : page_key) (key_prefix : string)
          (total : Z).
Hypothesis reported : dict_get "pages" members = Some (JNum total).

Lemma pager_prev (w : world) :
  in_bounds k total w ->
  pager_controls (Clicked (key_prefix ++ "-prev")) (JObj members) k key_prefix w
  = if page k (session_state w) =? 1 then (Val tt, w)
    else (Exc RerunException,
          with_session (with_page k (Z.max 1 (page k (session_state w) - 1))
                                  (session_state w)) w).
Proof.
  intros Hin. red in Hin.
  unfold pager_controls, bind, get_session, lift, button, set_page, st_rerun,
    raise, py_get.
  rewrite reported, String.eqb_refl, eqb_append_cancel. cbn.
  destruct (Z.eqb_spec (page k (session_state w)) 1) as [E|E].
  - rewrite E. reflexivity.
  - destruct (Z.leb_spec (page k (session_state w)) 1); [lia|]. reflexivity.
Qed.

Lemma pager_next (w : world) :
  in_bounds k total w ->
  pager_controls (Clicked (key_prefix ++ "-next")) (JObj members) k key_prefix w
  = if page k (session_state w) =? total then (Val tt, w)
    else (Exc RerunException,
          with_session (with_page k (Z.min total (page k (session_state w) + 1))
                                  (session_state w)) w).
Proof.
  intros Hin. red in Hin.
  unfold pager_controls, bind, get_session, lift, button, set_page, st_rerun,
    raise, py_get.
  rewrite reported, String.eqb_refl, eqb_append_cancel. cbn.
  destruct (Z.eqb_spec (page k (session_state w)) total) as [E|E];
    destruct (Z.geb_spec (page k (session_state w)) total); try lia;
    reflexivity.
Qed.

(** One run of the pager, whatever the event, keeps the page in bounds. *)
Lemma pager_step_in_bounds (ev : event) (w : world) :
  in_bounds k total w ->
  in_bounds k total (snd (pager_controls ev (JObj members) k key_prefix w)).
Proof.
  unfold in_bounds. intros Hin.
  unfold pager_controls, bind, get_session, lift, set_page, st_rerun, raise,
    py_get.
  rewrite reported. cbn.
  destruct (button ev (key_prefix ++ "-prev") (page k (session_state w) <=? 1))
    eqn:Eprev; cbn.
  - rewrite page_with_page. lia.
  - destruct (button ev (key_prefix ++ "-next")
                     (page k (session_state w) >=? total)) eqn:Enext; cbn.
    + rewrite page_with_page.
      destruct ev; cbn in Enext; try discriminate.
      apply andb_prop in Enext as [_ Hd].
      destruct (Z.geb_spec (page k (session_state w)) total);
        [discriminate | lia].
    + exact Hin.
Qed.

Lemma pager_run_in_bounds (evs : list event) :
  forall w,
    in_bounds k total w ->
    in_bounds k total (pager_run evs (JObj members) k key_prefix w).
Proof.
  induction evs as [|ev evs IH]; intros w Hin; simpl; [exact Hin|].
  apply IH, pager_step_in_bounds, Hin.
Qed.

End Pager.

(** C7.  For every pager whose page N is within 1..totalPages: a click on
    Prev moves to max(1, N-1) and does nothing at N = 1, where the button is
    disabled; a click on Next moves to min(totalPages, N+1) and does nothing
    at N = totalPages; and after any sequence of events the page is still
    within 1..totalPages. *)
Theorem pager_transitions_stay_in_bounds :
  forall (members : list (string * json)) (k : page_key) (key_prefix : string)
         (total : Z) (w : world) (evs : list event),
    dict_get "pages" members = Some (JNum total) ->
    1 <= page k (session_state w) <= total ->
    let N := page k (session_state w) in
    let info := JObj members in
    let prev := pager_controls (Clicked (key_prefix ++ "-prev")) info k key_prefix w in
    let next := pager_controls (Clicked (key_prefix ++ "-next")) info k key_prefix w in
    page k (session_state (snd prev)) = Z.max 1 (N - 1)
    /\ (N = 1 -> prev = (Val tt, w))
    /\ page k (session_state (snd next)) = Z.min total (N + 1)
    /\ (N = total -> next = (Val tt, w))
    /\ 1 <= page k (session_state (pager_run evs info k key_prefix w)) <= total.
Proof.
  intros members k key_prefix total w evs Hrep Hin N info prev next.
  subst prev next info.
  rewrite (pager_prev members k key_prefix total Hrep w Hin).
  rewrite (pager_next members k key_prefix total Hrep w Hin).
  fold N. repeat split.
  - destruct (Z.eqb_spec N 1); cbn; [fold N; lia | apply page_with_page].
  - intros ->. reflexivity.
  - destruct (Z.eqb_spec N total); cbn; [fold N; lia | apply page_with_page].
  - intros E. rewrite E, Z.eqb_refl. reflexivity.
  - apply (pager_run_in_bounds members k key_prefix total Hrep evs w Hin).
  - apply (pager_run_in_bounds members k key_prefix total Hrep evs w Hin).
Qed.

Lemma pager_transitions_stay_in_bounds_witness :
  let w := fresh_world alive_page_2 in
  let info := [("count", JNum 60); ("pages", JNum 3)] in
  page char_page_key
       (session_state
          (snd (pager_controls (Clicked "char_bottom-prev") (JObj info)
                               char_page_key "char_bottom" w))) = 1
  /\ page char_page_key
       (session_state
          (snd (pager_controls (Clicked "char_bottom-next") (JObj info)
                               char_page_key "char_bottom" w))) = 3.
Proof.
  destruct (pager_transitions_stay_in_bounds
              [("count", JNum 60); ("pages", JNum 3)] char_page_key
              "char_bottom" 3 (fresh_world alive_page_2) [])
    as (Hprev & _ & Hnext & _).
  - reflexivity.
  - cbn. lia.
  - split; [exact Hprev | exact Hnext].
Defined.

(** ** The memoising store *)

Section CacheFacts.
Context {K V : Type} (eqb : K -> K -> bool).
Hypothesis eqb_refl : forall k, eqb k k = true.

Lemma find_app (k : K) (a b : Cache.t K V) :
  Cache.find eqb k (a ++ b)%list
  = match Cache.find eqb k a with
    | Some e => Some e
    | None => Cache.find eqb k b
    end.
Proof.
  induction a as [|e a IH]; simpl; [reflexivity|].
  destruct (eqb k (Cache.key e)); [reflexivity | exact IH].
Qed.

Lemma find_remove (k : K) (c : Cache.t K V) :
  Cache.find eqb k (Cache.remove eqb k c) = None.
Proof.
  induction c as [|e c IH]; simpl; [reflexivity|].
  destruct (eqb k (Cache.key e)) eqn:E; simpl; [exact IH|].
  rewrite E. exact IH.
Qed.

Lemma find_skipn (k : K) (n : nat) :
  forall c : Cache.t K V,
    Cache.find eqb k c = None -> Cache.find eqb k (skipn n c) = None.
Proof.
  induction n as [|n IH]; intros c H; [exact H|].
  destruct c as [|e c]; simpl; [reflexivity|].
  simpl in H. destruct (eqb k (Cache.key e)); [discriminate | apply IH, H].
Qed.

Lemma find_make_room (k : K) (cap : option nat) (c : Cache.t K V) :
  Cache.find eqb k c = None -> Cache.find eqb k (Cache.make_room cap c) = None.
Proof. destruct cap; simpl; [apply find_skipn | trivial]. Qed.

(** What was stored is served until its time to live has passed. *)
Lemma get_put (ttl : Z) (cap : option nat) (t d : Z) (k : K) (v : V)
      (c : Cache.t K V) :
  0 <= d < ttl ->
  exists c', Cache.get eqb (t + d) k (Cache.put eqb ttl cap t k v c) = Some (v, c').
Proof.
  intros Hd. unfold Cache.get, Cache.put.
  rewrite find_app, find_make_room by apply find_remove.
  simpl. rewrite eqb_refl. unfold Cache.live. simpl.
  destruct (Z.ltb_spec (t + d) (t + ttl)); [eauto | lia].
Qed.

(** A lookup that misses keeps missing as time passes. *)
Lemma get_miss_later (t d : Z) (k : K) (c : Cache.t K V) :
  0 <= d -> Cache.get eqb t k c = None -> Cache.get eqb (t + d) k c = None.
Proof.
  intros Hd. unfold Cache.get.
  destruct (Cache.find eqb k c) as [e|]; [|trivial].
  unfold Cache.live.
  destruct (Z.ltb_spec t (Cache.expires e)); [discriminate|].
  intros _. destruct (Z.ltb_spec (t + d) (Cache.expires e)); [lia | reflexivity].
Qed.
End CacheFacts.

Section CacheBound.
Context {K V : Type} (eqb : K -> K -> bool).

(** The store never holds more than [max_entries] entries. *)
Lemma put_length (ttl : Z) (n : nat) (t : Z) (k : K) (v : V) (c : Cache.t K V) :
  (1 <= n)%nat ->
  (List.length (Cache.put eqb ttl (Some n) t k v c) <= n)%nat.
Proof.
  intros Hn. unfold Cache.put, Cache.make_room.
  rewrite length_app, length_skipn. simpl. lia.
Qed.
End CacheBound.

Section ApiFacts.
Variable up : upstream.

Lemma cache_data_miss {K V : Type} (eqb : K -> K -> bool) ttl cap store with_store
      (k : K) (m : M V) (w : world) :
  Cache.get eqb (now w) k (store w) = None ->
  cache_data eqb ttl cap store with_store k m w
  = match m w with
    | (Val v, w') => (Val v, with_store (Cache.put eqb ttl cap (now w') k v (store w')) w')
    | (Exc e, w') => (Exc e, w')
    end.
Proof. intros H. unfold cache_data. rewrite H. reflexivity. Qed.

Lemma api_get_wrapped_eq (endpoint : string) (ps : option params) (w : world) :
  api_get_wrapped up endpoint ps w
  = let w' := with_net_log (net_log w ++ [api_request endpoint ps])%list w in
    match up (List.length (net_log w)) (api_request endpoint ps) with
    | Fails msg => (Exc (RequestException msg), w')
    | Responds r =>
        if status_code r =? 200
        then match body r with
             | Some j => (Val j, w')
             | None => (Exc JSONDecodeError, w')
             end
        else (Val (api_error r), w')
    end.
Proof.
  unfold api_get_wrapped, bind, requests_get, api_request. cbn zeta.
  destruct (up _ _) as [msg|r]; [reflexivity|].
  destruct (status_code r =? 200); [|reflexivity].
  unfold r_json. destruct (body r); reflexivity.
Qed.

(** C3, as the code has it.  For every request signature that is not in the
    store, a fetch sends one request; a fetch that fails by raising (a
    transport failure, or a body that is not JSON) stores nothing, and the
    next fetch for the signature sends the request again; a fetch that
    returns a value, the error value of a status other than 200 included,
    stores it, and for 300 seconds the next fetch for the signature returns
    the stored value without a request. *)
Theorem api_get_stores_values_and_retries_exceptions :
  forall (endpoint : string) (ps : option params) (w : world) (d : Z),
    Cache.get api_key_eqb (now w) (endpoint, ps) (api_cache w) = None ->
    0 <= d ->
    let rq := api_request endpoint ps in
    let first := api_get up endpoint ps w in
    let second := api_get up endpoint ps (elapse d (snd first)) in
    net_log (snd first) = (net_log w ++ [rq])%list
    /\ (forall r, up (List.length (net_log w)) rq = Responds r ->
                  status_code r <> 200 -> fst first = Val (api_error r))
    /\ match fst first with
       | Exc _ => net_log (snd second) = (net_log w ++ [rq; rq])%list
       | Val v =>
           d < 300 ->
           fst second = Val v /\ net_log (snd second) = (net_log w ++ [rq])%list
       end.
Proof.
  intros endpoint ps w d Hmiss Hd rq first second.
  assert (Hfirst : first
    = match api_get_wrapped up endpoint ps w with
      | (Val v, w') =>
          (Val v, with_api_cache
                    (Cache.put api_key_eqb 300 (Some 50%nat) (now w')
                               (endpoint, ps) v (api_cache w')) w')
      | (Exc e, w') => (Exc e, w')
      end).
  { subst first. unfold api_get. now rewrite cache_data_miss. }
  rewrite api_get_wrapped_eq in Hfirst. cbn zeta in Hfirst. fold rq in Hfirst.
  assert (Hlog : net_log (snd first) = (net_log w ++ [rq])%list).
  { rewrite Hfirst. destruct (up _ rq) as [msg|r]; [reflexivity|].
    destruct (status_code r =? 200); [|reflexivity].
    destruct (body r); reflexivity. }
  split; [exact Hlog|]. split.
  { intros r Hr Hs. rewrite Hfirst, Hr.
    destruct (Z.eqb_spec (status_code r) 200); [contradiction | reflexivity]. }
  assert (Hraise : forall e w', first = (Exc e, w') -> api_cache w' = api_cache w /\ now w' = now w).
  { intros e w'. rewrite Hfirst. destruct (up _ rq) as [msg|r].
    - intros [= _ <-]. split; reflexivity.
    - destruct (status_code r =? 200); [|discriminate].
      destruct (body r); [discriminate|]. intros [= _ <-]. split; reflexivity. }
  assert (Hval : forall v w', first = (Val v, w') ->
     exists w0, w' = with_api_cache
                    (Cache.put api_key_eqb 300 (Some 50%nat) (now w)
                               (endpoint, ps) v (api_cache w)) w0 /\ now w0 = now w).
  { intros v w'. rewrite Hfirst. destruct (up _ rq) as [msg|r]; [discriminate|].
    destruct (status_code r =? 200).
    - destruct (body r); [|discriminate]. intros [= <- <-]. eexists; split; reflexivity.
    - intros [= <- <-]. eexists; split; reflexivity. }
  destruct first as [[v|e] w1] eqn:E; cbn [fst snd] in *.
  - intros Hlt. destruct (Hval v w1 eq_refl) as (w0 & -> & Hnow).
    subst second. unfold api_get, cache_data. cbn [now elapse with_api_cache api_cache].
    rewrite Hnow.
    destruct (get_put api_key_eqb api_key_eqb_refl 300 (Some 50%nat) (now w) d
                      (endpoint, ps) v (api_cache w)) as [c' Hc]; [lia|].
    rewrite Hc. cbn. split; [reflexivity | exact Hlog].
  - destruct (Hraise e w1 eq_refl) as [Hc Hn].
    subst second. unfold api_get. rewrite cache_data_miss.
    2:{ cbn. rewrite Hc, Hn. apply get_miss_later; assumption. }
    rewrite api_get_wrapped_eq. cbn zeta.
    set (o := up _ _). fold rq.
    replace (net_log w ++ [rq; rq])%list with ((net_log w ++ [rq]) ++ [rq])%list
      by (now rewrite <- app_assoc).
    rewrite <- Hlog.
    destruct o as [msg|r]; [reflexivity|].
    destruct (status_code r =? 200); [|reflexivity].
    destruct (body r); reflexivity.
Qed.
End ApiFacts.

(** ** Identifiers and reference URLs *)

Lemma span_digits_digits (s : string) : all_digits (fst (Re.span_digits s)) = true.
Proof.
  induction s as [|c s IH]; simpl; [reflexivity|].
  destruct (Re.is_digit c) eqn:E; [|reflexivity].
  destruct (Re.span_digits s) as [d t]. simpl in *. now rewrite E.
Qed.

Lemma span_digits_all (d : string) :
  all_digits d = true -> Re.span_digits d = (d, "").
Proof.
  induction d as [|c d IH]; simpl; [reflexivity|].
  intros H. apply andb_prop in H as [Hc Hd]. now rewrite Hc, (IH Hd).
Qed.

Lemma match_here_digits (s d : string) :
  Re.match_here s = Some d -> all_digits d = true /\ d <> "".
Proof.
  unfold Re.match_here. destruct s as [|c s]; [discriminate|].
  destruct (Ascii.eqb_spec c "/") as [->|N].
  2:{ destruct c as [[] [] [] [] [] [] [] []]; try discriminate. now elim N. }
  pose proof (span_digits_digits s) as Hd.
  destruct (Re.span_digits s) as [d' t]. simpl in Hd.
  destruct d' as [|c' d']; [discriminate|].
  assert (forall o, (if o : bool then Some (String c' d') else None) = Some d ->
                    all_digits d = true /\ d <> "") as Hfin.
  { intros [] [= <-]. split; [exact Hd | discriminate]. }
  destruct t as [|c2 t]; [apply Hfin|].
  destruct c2 as [[] [] [] [] [] [] [] []]; apply Hfin.
Qed.

Lemma search_eq (s : string) :
  Re.search s
  = match Re.match_here s with
    | Some d => Some d
    | None => match s with
              | EmptyString => None
              | String _ r => Re.search r
              end
    end.
Proof. destruct s; reflexivity. Qed.

Lemma search_digits (s d : string) :
  Re.search s = Some d -> all_digits d = true /\ d <> "".
Proof.
  induction s as [|c s IH]; rewrite search_eq.
  - discriminate.
  - destruct (Re.match_here (String c s)) as [d'|] eqn:E.
    + intros [= <-]. eapply match_here_digits, E.
    + exact IH.
Qed.

Lemma extract_id_digits (u : string) : all_digits (extract_id_from_url u) = true.
Proof.
  unfold extract_id_from_url. destruct (Re.search u) as [d|] eqn:E; [|reflexivity].
  apply (search_digits _ _ E).
Qed.

Lemma uint_digits (d : Decimal.uint) :
  all_digits (NilEmpty.string_of_uint d) = true.
Proof. induction d; simpl; auto. Qed.

Lemma of_int_pos_digits (p : positive) :
  all_digits (PyStr.of_int (Z.pos p)) = true /\ PyStr.of_int (Z.pos p) <> "".
Proof.
  unfold PyStr.of_int. simpl.
  destruct (Pos.to_uint p) eqn:E; simpl; split;
    try reflexivity; try discriminate; apply uint_digits.
Qed.

Lemma search_skip (c : ascii) (r : string) :
  Re.match_here (String c r) = None -> Re.search (String c r) = Re.search r.
Proof. intros H. rewrite search_eq at 1. now rewrite H. Qed.

Lemma match_here_id (d : string) :
  all_digits d = true -> d <> "" -> Re.match_here (String "/" d) = Some d.
Proof.
  intros Hd Hne. unfold Re.match_here. rewrite (span_digits_all d Hd).
  destruct d; [contradiction | reflexivity].
Qed.

Lemma search_here (s d : string) :
  Re.match_here s = Some d -> Re.search s = Some d.
Proof. intros H. rewrite search_eq. now rewrite H. Qed.

Lemma extract_id_ref_url (k : kind) (id : positive) :
  extract_id_from_url (ref_url k id) = PyStr.of_int (Z.pos id).
Proof.
  destruct (of_int_pos_digits id) as [Hd Hne].
  unfold extract_id_from_url, ref_url.
  set (d := PyStr.of_int (Z.pos id)) in *. clearbody d.
  destruct k; cbn [BASE kind_name append];
    repeat (rewrite search_skip by reflexivity);
    rewrite (search_here _ d (match_here_id d Hd Hne)); reflexivity.
Qed.

Lemma digit_not_c (c : ascii) : Re.is_digit c = true -> Ascii.eqb "c" c = false.
Proof. destruct c as [[] [] [] [] [] [] [] []]; cbv; congruence. Qed.

Lemma contains_character_digits (d : string) :
  all_digits d = true -> PyStr.contains "character" d = false.
Proof.
  induction d as [|c d IH]; [reflexivity|].
  simpl all_digits. intros H. apply andb_prop in H as [Hc Hd].
  cbn [PyStr.contains PyStr.starts_with].
  now rewrite (digit_not_c c Hc), (IH Hd).
Qed.

Lemma contains_skip (needle : string) (c : ascii) (r : string) :
  PyStr.starts_with needle (String c r) = false ->
  PyStr.contains needle (String c r) = PyStr.contains needle r.
Proof. intros H. cbn [PyStr.contains]. now rewrite H. Qed.

Lemma fm_endpoint_ref_url (k : kind) (id : positive) :
  fm_endpoint (ref_url k id) = served_endpoint k.
Proof.
  destruct (of_int_pos_digits id) as [Hd _].
  unfold fm_endpoint, ref_url.
  set (d := PyStr.of_int (Z.pos id)) in *. clearbody d.
  destruct k; cbn [BASE kind_name append served_endpoint].
  - reflexivity.
  - repeat (rewrite contains_skip by reflexivity).
    now rewrite (contains_character_digits d Hd).
  - repeat (rewrite contains_skip by reflexivity).
    now rewrite (contains_character_digits d Hd).
Qed.

Lemma fm_ids_ref_urls (k : kind) (ids : list positive) :
  fm_ids (map (ref_url k) ids) = map (fun i => PyStr.of_int (Z.pos i)) ids.
Proof.
  unfold fm_ids. induction ids as [|i ids IH]; [reflexivity|].
  cbn [map filter].
  replace (PyStr.truthy (ref_url k i)) with true by (destruct k; reflexivity).
  cbn [map]. now rewrite extract_id_ref_url, IH.
Qed.

(** *** What the pattern finds *)

Lemma at_end_iff (t : string) :
  Re.at_end t = true <-> t = "" \/ t = String Re.newline "".
Proof.
  destruct t as [|c [|c' t]]; simpl.
  - split; [now left | reflexivity].
  - rewrite Ascii.eqb_eq. split.
    + intros ->. now right.
    + intros [H|[= ->]]; [discriminate | reflexivity].
  - split; [discriminate | intros [H|H]; discriminate].
Qed.

Lemma span_digits_eq (s d t : string) :
  Re.span_digits s = (d, t) -> s = d ++ t.
Proof.
  revert d t. induction s as [|c s IH]; intros d t; simpl.
  - now intros [= <- <-].
  - destruct (Re.is_digit c).
    + destruct (Re.span_digits s) as [d' t']. intros [= <- <-].
      simpl. now rewrite (IH d' t' eq_refl).
    + now intros [= <- <-].
Qed.

Lemma match_here_sound (s d : string) :
  Re.match_here s = Some d ->
  exists t, s = "/" ++ d ++ t /\ id_tail t.
Proof.
  unfold Re.match_here. destruct s as [|c s]; [discriminate|].
  destruct (Ascii.eqb_spec c "/") as [->|N].
  2:{ destruct c as [[] [] [] [] [] [] [] []]; try discriminate. now elim N. }
  destruct (Re.span_digits s) as [d' t] eqn:E.
  apply span_digits_eq in E. subst s.
  destruct d' as [|c' d']; [discriminate|].
  assert (Hplain : (if Re.at_end t then Some (String c' d') else None) = Some d ->
                   exists t0, "/" ++ String c' d' ++ t = "/" ++ d ++ t0 /\ id_tail t0).
  { destruct (Re.at_end t) eqn:Ht; [|discriminate]. intros [= <-].
    exists t. split; [reflexivity|]. apply at_end_iff in Ht. unfold id_tail. tauto. }
  destruct t as [|c2 t']; [exact Hplain|].
  destruct (Ascii.eqb_spec c2 "/") as [->|N2].
  - destruct (Re.at_end t') eqn:Ht; [|discriminate]. intros [= <-].
    exists (String "/" t'). split; [reflexivity|].
    apply at_end_iff in Ht as [-> | ->]; unfold id_tail; tauto.
  - destruct c2 as [[] [] [] [] [] [] [] []]; try exact Hplain. now elim N2.
Qed.

(** Whatever [extract_id_from_url] finds is a run of digits that follows a
    slash and ends the URL, up to a final slash and a final newline. *)
Lemma search_sound (u d : string) :
  Re.search u = Some d ->
  exists pre t, u = pre ++ "/" ++ d ++ t /\ id_tail t.
Proof.
  induction u as [|c u IH]; rewrite search_eq.
  - discriminate.
  - destruct (Re.match_here (String c u)) as [d'|] eqn:E.
    + intros [= <-]. destruct (match_here_sound _ _ E) as (t & Hs & Ht).
      exists "", t. split; [exact Hs | exact Ht].
    + intros H. destruct (IH H) as (pre & t & -> & Ht).
      exists (String c pre), t. split; [reflexivity | exact Ht].
Qed.

Lemma slash_digit_cons (c : ascii) (s : string) :
  slash_digit s = true -> slash_digit (String c s) = true.
Proof.
  intros H. simpl.
  destruct c as [[] [] [] [] [] [] [] []]; try exact H.
  destruct s; [discriminate|]. rewrite H. apply orb_true_r.
Qed.

Lemma slash_digit_app (pre d t : string) :
  all_digits d = true -> d <> "" -> slash_digit (pre ++ "/" ++ d ++ t) = true.
Proof.
  intros Hd Hne. induction pre as [|c pre IH].
  - destruct d as [|c d]; [contradiction|].
    simpl in *. apply andb_prop in Hd as [-> _]. reflexivity.
  - simpl append. now apply slash_digit_cons.
Qed.

Lemma slash_digit_span (s d t : string) :
  Re.span_digits s = (d, t) -> slash_digit s = true -> slash_digit t = true.
Proof.
  revert d t. induction s as [|c s IH]; intros d t; simpl Re.span_digits.
  - intros [= <- <-]. trivial.
  - destruct (Re.is_digit c) eqn:Hc.
    + destruct (Re.span_digits s) as [d' t']. intros [= <- <-] H.
      apply (IH d' t' eq_refl).
      destruct c as [[] [] [] [] [] [] [] []]; try exact H; discriminate.
    + intros [= <- <-]. trivial.
Qed.

Lemma match_here_blocked (c : ascii) (r : string) :
  slash_digit r = true -> Re.match_here (String c r) = None.
Proof.
  intros H. destruct (Re.match_here (String c r)) as [d|] eqn:E; [|reflexivity].
  exfalso. unfold Re.match_here in E.
  destruct (Ascii.eqb_spec c "/") as [->|N].
  2:{ destruct c as [[] [] [] [] [] [] [] []]; try discriminate. now elim N. }
  destruct (Re.span_digits r) as [d' t] eqn:Es.
  pose proof (slash_digit_span _ _ _ Es H) as Ht.
  destruct d'; [discriminate|].
  destruct t as [|c2 [|c3 [|c4 t]]]; try discriminate Ht.
  - destruct c2 as [[] [] [] [] [] [] [] []]; discriminate.
  - destruct c2 as [[] [] [] [] [] [] [] []]; try discriminate E.
    destruct c3 as [[] [] [] [] [] [] [] []]; simpl in Ht; try discriminate; 
      cbn in E; discriminate.
  - destruct c2 as [[] [] [] [] [] [] [] []]; try discriminate E.
Qed.

Lemma span_digits_app (d t : string) :
  all_digits d = true ->
  match t with String c _ => Re.is_digit c = false | EmptyString => True end ->
  Re.span_digits (d ++ t) = (d, t).
Proof.
  intros Hd Ht. induction d as [|c d IH]; simpl.
  - destruct t as [|c t]; [reflexivity|]. simpl. now rewrite Ht.
  - simpl in Hd. apply andb_prop in Hd as [Hc Hd]. now rewrite Hc, (IH Hd).
Qed.

Lemma match_here_complete (d t : string) :
  all_digits d = true -> d <> "" -> id_tail t ->
  Re.match_here ("/" ++ d ++ t) = Some d.
Proof.
  intros Hd Hne Ht. simpl. rewrite span_digits_app; [|exact Hd|].
  - destruct d; [contradiction|].
    destruct Ht as [-> | [-> | [-> | ->]]]; reflexivity.
  - destruct Ht as [-> | [-> | [-> | ->]]]; try exact I; reflexivity.
Qed.

(** A URL that ends in a slash, digits, and at most a final slash and a
    final newline, whatever comes before, yields these digits. *)
Lemma search_complete (pre d t : string) :
  all_digits d = true -> d <> "" -> id_tail t ->
  Re.search (pre ++ "/" ++ d ++ t) = Some d.
Proof.
  intros Hd Hne Ht. induction pre as [|c pre IH].
  - apply search_here, match_here_complete; assumption.
  - simpl append. rewrite search_skip; [exact IH|].
    apply match_here_blocked, slash_digit_app; assumption.
Qed.

Lemma extract_id_found (pre d t : string) :
  all_digits d = true -> d <> "" -> id_tail t ->
  extract_id_from_url (pre ++ "/" ++ d ++ t) = d.
Proof.
  intros Hd Hne Ht. unfold extract_id_from_url.
  now rewrite search_complete.
Qed.

Lemma extract_id_shape (u : string) :
  extract_id_from_url u <> "" ->
  exists pre t, u = pre ++ "/" ++ extract_id_from_url u ++ t /\ id_tail t.
Proof.
  unfold extract_id_from_url.
  destruct (Re.search u) as [d|] eqn:E; [|contradiction].
  intros _. apply search_sound, E.
Qed.

(** ** The batch resolver *)

Lemma fm_ids_nil (urls : list string) :
  fm_ids urls = [] <-> Forall (fun u => u = "") urls.
Proof.
  unfold fm_ids. induction urls as [|u urls IH]; simpl.
  - split; [constructor | reflexivity].
  - destruct u as [|c u]; simpl.
    + rewrite IH. split; [now constructor | now inversion 1].
    + split; [discriminate | inversion 1; discriminate].
Qed.

Lemma fm_ids_in (urls : list string) (id : string) :
  In id (fm_ids urls)
  <-> exists u, In u urls /\ u <> "" /\ extract_id_from_url u = id.
Proof.
  unfold fm_ids. rewrite in_map_iff. split.
  - intros (u & E & Hu). apply filter_In in Hu as [Hin Ht].
    exists u. repeat split; [exact Hin | now apply truthy_iff | exact E].
  - intros (u & Hin & Hne & E). exists u. split; [exact E|].
    apply filter_In. split; [exact Hin | now apply truthy_iff].
Qed.

Lemma py_slice_to_bound {A : Type} (n : Z) (l : list A) :
  0 <= n ->
  py_slice_to n l = firstn (Z.to_nat n) l
  /\ Z.of_nat (List.length (py_slice_to n l)) <= n.
Proof.
  intros Hn. unfold py_slice_to.
  destruct (Z.leb_spec 0 n); [|lia].
  split; [reflexivity|]. rewrite length_firstn. lia.
Qed.

Section BatchFacts.
Variable up : upstream.

(** Without an identifier nothing is sent and the result is empty. *)
Lemma fetch_multiple_wrapped_no_ids (urls : list string) (limit : Z) (w : world) :
  fm_ids urls = [] -> fetch_multiple_wrapped up urls limit w = (Val [], w).
Proof. intros H. unfold fetch_multiple_wrapped. now rewrite H. Qed.

(** With an identifier, one request is sent, and every outcome becomes a
    list. *)
Lemma fetch_multiple_wrapped_sends (urls : list string) (limit : Z) (w : world) :
  fm_ids urls <> [] ->
  fetch_multiple_wrapped up urls limit w
  = let rq := bulk_request (hd "" urls) (py_slice_to limit (fm_ids urls)) in
    let w' := with_net_log (net_log w ++ [rq])%list w in
    match up (List.length (net_log w)) rq with
    | Fails _ => (Val [], w')
    | Responds r =>
        if status_code r =? 200
        then match body r with
             | Some (JList l) => (Val l, w')
             | Some j => (Val [j], w')
             | None => (Val [], w')
             end
        else (Val [], w')
    end.
Proof.
  intros Hids. unfold fetch_multiple_wrapped.
  destruct (fm_ids urls) as [|i ids] eqn:E; [contradiction|].
  destruct urls as [|u0 rest]; [discriminate|].
  unfold try_except, bind, requests_get, bulk_request. cbn [hd].
  destruct (up _ _) as [msg|r]; [reflexivity|].
  destruct (status_code r =? 200); [|reflexivity].
  unfold r_json. destruct (body r) as [[]|]; reflexivity.
Qed.

Lemma fetch_multiple_wrapped_log (urls : list string) (limit : Z) (w : world) :
  fm_ids urls <> [] ->
  net_log (snd (fetch_multiple_wrapped up urls limit w))
  = (net_log w
     ++ [bulk_request (hd "" urls) (py_slice_to limit (fm_ids urls))])%list.
Proof.
  intros Hids. rewrite fetch_multiple_wrapped_sends by exact Hids. cbn zeta.
  destruct (up _ _) as [msg|r]; [reflexivity|].
  destruct (status_code r =? 200); [|reflexivity].
  destruct (body r) as [[]|]; reflexivity.
Qed.

End BatchFacts.

Lemma fm_ids_app (a b : list string) :
  fm_ids (a ++ b) = (fm_ids a ++ fm_ids b)%list.
Proof. unfold fm_ids. now rewrite filter_app, map_app. Qed.

Lemma fm_ids_cons (u : string) (urls : list string) :
  u <> "" -> fm_ids (u :: urls) = extract_id_from_url u :: fm_ids urls.
Proof.
  intros Hu. unfold fm_ids. cbn [filter].
  destruct u; [contradiction | reflexivity].
Qed.

Lemma firstn_middle {A : Type} (n : nat) (a : list A) (x : A) (b : list A) :
  (List.length a < n)%nat ->
  firstn n (a ++ x :: b) = (a ++ x :: firstn (n - S (List.length a)) b)%list.
Proof.
  intros Hlt. rewrite firstn_app, firstn_all2 by lia.
  replace (n - List.length a)%nat with (S (n - S (List.length a))) by lia.
  reflexivity.
Qed.

(** C4, as the code has it.  A URL is left out of the batch only when it is
    the empty string or when [limit] non-empty URLs come before it: every
    other URL contributes one identifier, at its place, the digits that end
    it or the empty string when it does not end in digits, and the bulk
    request is built from these identifiers, an empty one included. *)
Theorem fetch_multiple_keeps_every_nonempty_url :
  forall (up : upstream) (before : list string) (u : string)
         (after : list string) (limit : Z) (w : world),
    u <> "" ->
    Z.of_nat (List.length (fm_ids before)) < limit ->
    let urls := (before ++ u :: after)%list in
    let id := extract_id_from_url u in
    let rest := firstn (Z.to_nat limit - S (List.length (fm_ids before)))
                       (fm_ids after) in
    all_digits id = true
    /\ py_slice_to limit (fm_ids urls) = (fm_ids before ++ id :: rest)%list
    /\ net_log (snd (fetch_multiple_wrapped up urls limit w))
       = (net_log w
          ++ [bulk_request (hd "" urls) (fm_ids before ++ id :: rest)])%list.
Proof.
  intros up before u after limit w Hne Hlt urls id rest.
  assert (Hids : fm_ids urls = (fm_ids before ++ id :: fm_ids after)%list).
  { subst urls id. now rewrite fm_ids_app, fm_ids_cons. }
  assert (Hslice : py_slice_to limit (fm_ids urls)
                   = (fm_ids before ++ id :: rest)%list).
  { destruct (py_slice_to_bound limit (fm_ids urls)) as [-> _]; [lia|].
    rewrite Hids. apply firstn_middle. lia. }
  split; [apply extract_id_digits|]. split; [exact Hslice|].
  rewrite <- Hslice. apply fetch_multiple_wrapped_log.
  rewrite Hids. now destruct (fm_ids before).
Qed.

Lemma fetch_multiple_keeps_every_nonempty_url_witness :
  py_slice_to 8 (fm_ids ["https://rickandmortyapi.com/api/episode/28";
                         "https://rickandmortyapi.com/api/episode/"])
  = ["28"; ""]
  /\ net_log (snd (fetch_multiple_wrapped
                     (always not_found)
                     ["https://rickandmortyapi.com/api/episode/28";
                      "https://rickandmortyapi.com/api/episode/"]
                     8 (fresh_world initial_session)))
     = [mkRequest "https://rickandmortyapi.com/api/episode/28," None 20].
Proof.
  destruct (fetch_multiple_keeps_every_nonempty_url
              (always not_found)
              ["https://rickandmortyapi.com/api/episode/28"]
              "https://rickandmortyapi.com/api/episode/" []
              8 (fresh_world initial_session))
    as (_ & Hslice & Hlog).
  - discriminate.
  - cbn. lia.
  - split; [exact Hslice | exact Hlog].
Defined.

(** C4, as the claim states it, fails: the bulk request for ".../episode/28"
    and the malformed ".../episode/" is built from the identifiers "28" and
    "", so not every identifier of the request is non-empty. *)
Lemma malformed_reference_is_sent :
  fetch_multiple_wrapped
    (always not_found)
    ["https://rickandmortyapi.com/api/episode/28";
     "https://rickandmortyapi.com/api/episode/"]
    8 (fresh_world initial_session)
  = (Val [],
     with_net_log
       [mkRequest "https://rickandmortyapi.com/api/episode/28," None 20]
       (fresh_world initial_session))
  /\ ~ Forall (fun id => id <> "")
              (py_slice_to 8 (fm_ids ["https://rickandmortyapi.com/api/episode/28";
                                      "https://rickandmortyapi.com/api/episode/"])).
Proof.
  split; [reflexivity|].
  intros H. inversion H as [|? ? _ H']. inversion H' as [|? ? Hne _].
  now apply Hne.
Qed.

(** C6, as the code has it.  For every non-empty list of reference URLs of
    one kind, the bulk request goes to the endpoint picked from the first
    URL: "character" for character references, "episode" for episode
    references and also for location references. *)
Theorem fetch_multiple_endpoint_by_kind :
  forall (up : upstream) (k : kind) (id : positive) (ids : list positive)
         (limit : Z) (w : world),
    fm_endpoint (ref_url k id) = served_endpoint k
    /\ net_log (snd (fetch_multiple_wrapped up (map (ref_url k) (id :: ids))
                                            limit w))
       = (net_log w
          ++ [mkRequest
                (BASE ++ served_endpoint k ++ "/"
                 ++ PyStr.join ","
                      (py_slice_to limit
                         (map (fun i => PyStr.of_int (Z.pos i)) (id :: ids))))
                None 20])%list.
Proof.
  intros up k id ids limit w.
  split; [apply fm_endpoint_ref_url|].
  rewrite fetch_multiple_wrapped_log.
  - unfold bulk_request. cbn [map hd].
    rewrite fm_endpoint_ref_url.
    change (ref_url k id :: map (ref_url k) ids) with (map (ref_url k) (id :: ids)).
    now rewrite fm_ids_ref_urls.
  - rewrite fm_ids_ref_urls. discriminate.
Qed.

(** C6, as the claim states it, fails: a list of location references is
    looked up on the episode endpoint, not on the location endpoint. *)
Lemma location_references_go_to_episode_endpoint :
  fetch_multiple_wrapped
    (always not_found) ["https://rickandmortyapi.com/api/location/3"] 8
    (fresh_world initial_session)
  = (Val [],
     with_net_log
       [mkRequest "https://rickandmortyapi.com/api/episode/3" None 20]
       (fresh_world initial_session))
  /\ ref_url Location 3 = "https://rickandmortyapi.com/api/location/3"
  /\ fm_endpoint (ref_url Location 3) <> kind_name Location.
Proof. repeat split; try reflexivity. discriminate. Qed.

(** C8, as the code has it.  For every list of reference URLs and every
    limit n >= 0, the bulk request is built from the first n identifiers, so
    from at most n, however many URLs there are; when the list is empty or
    holds only empty strings, the result is the empty list and nothing is
    sent; for every other list one bulk request is sent, whether or not an
    identifier could be parsed from its URLs. *)
Theorem fetch_multiple_truncates_to_limit :
  forall (up : upstream) (urls : list string) (limit : Z) (w : world),
    0 <= limit ->
    let batch := firstn (Z.to_nat limit) (fm_ids urls) in
    let run := fetch_multiple_wrapped up urls limit w in
    Z.of_nat (List.length batch) <= limit
    /\ (Forall (fun u => u = "") urls -> run = (Val [], w))
    /\ (~ Forall (fun u => u = "") urls ->
        net_log (snd run)
        = (net_log w ++ [bulk_request (hd "" urls) batch])%list).
Proof.
  intros up urls limit w Hlimit batch run.
  destruct (py_slice_to_bound limit (fm_ids urls) Hlimit) as [Hslice Hlen].
  split; [|split].
  - subst batch. now rewrite <- Hslice.
  - intros Hall. apply fetch_multiple_wrapped_no_ids, fm_ids_nil, Hall.
  - intros Hsome. subst run batch. rewrite <- Hslice.
    apply fetch_multiple_wrapped_log. intros Hnil. apply Hsome.
    now apply fm_ids_nil.
Qed.

Lemma fetch_multiple_truncates_to_limit_witness :
  net_log (snd (fetch_multiple_wrapped
                  (always not_found)
                  ["https://rickandmortyapi.com/api/episode/1";
                   "https://rickandmortyapi.com/api/episode/2";
                   "https://rickandmortyapi.com/api/episode/3"]
                  2 (fresh_world initial_session)))
  = [mkRequest "https://rickandmortyapi.com/api/episode/1,2" None 20]
  /\ fetch_multiple_wrapped (always not_found) [""; ""] 8
                            (fresh_world initial_session)
     = (Val [], fresh_world initial_session).
Proof.
  split.
  - destruct (fetch_multiple_truncates_to_limit
                (always not_found)
                ["https://rickandmortyapi.com/api/episode/1";
                 "https://rickandmortyapi.com/api/episode/2";
                 "https://rickandmortyapi.com/api/episode/3"]
                2 (fresh_world initial_session))
      as (_ & _ & Hrun); [lia|].
    apply Hrun. intros H. inversion H. discriminate.
  - destruct (fetch_multiple_truncates_to_limit
                (always not_found) [""; ""] 8 (fresh_world initial_session))
      as (_ & Hrun & _); [lia|].
    apply Hrun. repeat constructor.
Defined.

(** C8, as the claim states it, fails: no identifier can be parsed from the
    reference ".../episode/", and yet a bulk request is sent for it, to the
    URL that ends in "episode/". *)
Lemma unparsable_reference_is_requested :
  extract_id_from_url "https://rickandmortyapi.com/api/episode/" = ""
  /\ fetch_multiple_wrapped
       (always not_found) ["https://rickandmortyapi.com/api/episode/"] 8
       (fresh_world initial_session)
     = (Val [],
        with_net_log
          [mkRequest "https://rickandmortyapi.com/api/episode/" None 20]
          (fresh_world initial_session)).
Proof. split; reflexivity. Qed.

(** C9.  For every batch request answered with status 200 and a JSON body,
    the result is the body itself when the body is a list, and the list of
    exactly one element, the body, when it is a bare object (or any other
    value); in both cases a list. *)
Theorem fetch_multiple_normalizes_single_object :
  forall (up : upstream) (urls : list string) (limit : Z) (w : world)
         (r : response) (j : json),
    fm_ids urls <> [] ->
    up (List.length (net_log w))
       (bulk_request (hd "" urls) (py_slice_to limit (fm_ids urls)))
    = Responds r ->
    status_code r = 200 ->
    body r = Some j ->
    fst (fetch_multiple_wrapped up urls limit w)
    = Val (match j with
           | JList l => l
           | JNull | JBool _ | JNum _ | JStr _ | JObj _ => [j]
           end).
Proof.
  intros up urls limit w r j Hids Hup Hstatus Hbody.
  rewrite fetch_multiple_wrapped_sends by exact Hids. cbn zeta.
  rewrite Hup, Hstatus, Hbody. destruct j; reflexivity.
Qed.

Lemma fetch_multiple_normalizes_single_object_witness :
  fst (fetch_multiple_wrapped (always (answers pilot))
                              ["https://rickandmortyapi.com/api/episode/1"] 8
                              (fresh_world initial_session))
  = Val [pilot]
  /\ fst (fetch_multiple_wrapped (always (answers (JList [pilot; pilot])))
                                 ["https://rickandmortyapi.com/api/episode/1";
                                  "https://rickandmortyapi.com/api/episode/1"]
                                 8 (fresh_world initial_session))
     = Val [pilot; pilot].
Proof.
  split.
  - apply (fetch_multiple_normalizes_single_object
             (always (answers pilot))
             ["https://rickandmortyapi.com/api/episode/1"] 8
             (fresh_world initial_session)
             (mkResponse 200 "" (Some pilot)) pilot);
      [discriminate | reflexivity | reflexivity | reflexivity].
  - apply (fetch_multiple_normalizes_single_object
             (always (answers (JList [pilot; pilot])))
             ["https://rickandmortyapi.com/api/episode/1";
              "https://rickandmortyapi.com/api/episode/1"] 8
             (fresh_world initial_session)
             (mkResponse 200 "" (Some (JList [pilot; pilot])))
             (JList [pilot; pilot]));
      [discriminate | reflexivity | reflexivity | reflexivity].
Defined.

(** ** The memoised functions, as the callers see them *)

(** A value served from the store costs no request. *)
Lemma cache_data_hit_log {K V : Type} (eqb : K -> K -> bool) (ttl : Z)
      (cap : option nat) (store : world -> Cache.t K V)
      (with_store : Cache.t K V -> world -> world) (k : K) (m : M V)
      (w : world) (v : V) (c : Cache.t K V) :
  (forall c' w', net_log (with_store c' w') = net_log w') ->
  Cache.get eqb (now w) k (store w) = Some (v, c) ->
  fst (cache_data eqb ttl cap store with_store k m w) = Val v
  /\ net_log (snd (cache_data eqb ttl cap store with_store k m w)) = net_log w.
Proof.
  intros Hlog Hhit. unfold cache_data. rewrite Hhit. cbn [fst snd].
  split; [reflexivity | apply Hlog].
Qed.

(** On a miss the caller gets what the body returns, and the requests of
    the body are the only ones sent. *)
Lemma fetch_multiple_miss (up : upstream) (urls : list string) (limit : Z)
      (w : world) :
  Cache.get fm_key_eqb (now w) (urls, limit) (fm_cache w) = None ->
  fst (fetch_multiple up urls limit w)
  = fst (fetch_multiple_wrapped up urls limit w)
  /\ net_log (snd (fetch_multiple up urls limit w))
     = net_log (snd (fetch_multiple_wrapped up urls limit w)).
Proof.
  intros Hmiss. unfold fetch_multiple. rewrite cache_data_miss by exact Hmiss.
  destruct (fetch_multiple_wrapped up urls limit w) as [[v|e] w'];
    split; reflexivity.
Qed.

(** Without an identifier, [fetch_multiple] sends nothing, from the store or
    not. *)
Lemma fetch_multiple_no_ids_sends_nothing (up : upstream) (urls : list string)
      (limit : Z) (w : world) :
  fm_ids urls = [] ->
  net_log (snd (fetch_multiple up urls limit w)) = net_log w.
Proof.
  intros Hids.
  destruct (Cache.get fm_key_eqb (now w) (urls, limit) (fm_cache w))
    as [[v c]|] eqn:Hget.
  - unfold fetch_multiple.
    now apply (cache_data_hit_log fm_key_eqb 300 None fm_cache with_fm_cache
                                  (urls, limit) _ w v c).
  - destruct (fetch_multiple_miss up urls limit w Hget) as [_ ->].
    now rewrite fetch_multiple_wrapped_no_ids.
Qed.

(** ** The fetch boundary *)

Lemma api_get_stores_values_and_retries_exceptions_witness :
  fst (api_get (first_then not_found (answers one_page_reply)) "character" None
               (elapse 10
                  (snd (api_get (first_then not_found (answers one_page_reply))
                                "character" None
                                (fresh_world initial_session)))))
  = Val (api_error (mkResponse 404 "There is nothing here" None))
  /\ net_log
       (snd (api_get (first_then timed_out (answers one_page_reply))
                     "character" None
                     (elapse 10
                        (snd (api_get (first_then timed_out (answers one_page_reply))
                                      "character" None
                                      (fresh_world initial_session))))))
     = [api_request "character" None; api_request "character" None].
Proof.
  split.
  - destruct (api_get_stores_values_and_retries_exceptions
                (first_then not_found (answers one_page_reply))
                "character" None (fresh_world initial_session) 10)
      as (_ & _ & Hsecond); [reflexivity | lia |].
    apply Hsecond. lia.
  - destruct (api_get_stores_values_and_retries_exceptions
                (first_then timed_out (answers one_page_reply))
                "character" None (fresh_world initial_session) 10)
      as (_ & _ & Hsecond); [reflexivity | lia |].
    exact Hsecond.
Defined.

(** C3, as the claim states it, fails: after a fetch answered with status
    404, the next fetch for the same signature returns the stored error
    value, although the upstream would now answer, and no second request is
    sent. *)
Lemma failed_status_is_served_from_the_store :
  api_get (first_then not_found (answers one_page_reply)) "character"
          (Some [("page", PInt 1)]) (fresh_world initial_session)
  = (Val (JObj [("error", JStr "API Error 404: There is nothing here")]),
     mkWorld 0
       [mkRequest "https://rickandmortyapi.com/api/character"
                  (Some [("page", PInt 1)]) 20]
       [Cache.mkEntry
          ("character", Some [("page", PInt 1)])
          (JObj [("error", JStr "API Error 404: There is nothing here")])
          300]
       [] initial_session [])
  /\ (let w1 :=
        snd (api_get (first_then not_found (answers one_page_reply)) "character"
                     (Some [("page", PInt 1)]) (fresh_world initial_session)) in
      let second :=
        api_get (first_then not_found (answers one_page_reply)) "character"
                (Some [("page", PInt 1)]) (elapse 1 w1) in
      fst second
      = Val (JObj [("error", JStr "API Error 404: There is nothing here")])
      /\ net_log (snd second)
         = [mkRequest "https://rickandmortyapi.com/api/character"
                      (Some [("page", PInt 1)]) 20]).
Proof. repeat split; reflexivity. Qed.

(** C2: the code at the failing input.  When the transport fails, [api_get]
    raises the exception of [requests]: no value is returned. *)
Theorem api_get_raises_on_transport_failure :
  api_get (always timed_out) "character" (Some [("page", PInt 1)])
          (fresh_world initial_session)
  = (Exc (RequestException "Read timed out."),
     with_net_log
       [mkRequest "https://rickandmortyapi.com/api/character"
                  (Some [("page", PInt 1)]) 20]
       (fresh_world initial_session)).
Proof. reflexivity. Qed.

(** The part of C2 the code keeps: a status other than 200, so every status
    outside 2xx, comes back as the value [{"error": ...}]. *)
Lemma api_get_wrapped_error_value (up : upstream) (endpoint : string)
      (ps : option params) (w : world) (r : response) :
  up (List.length (net_log w)) (api_request endpoint ps) = Responds r ->
  status_code r <> 200 ->
  fst (api_get_wrapped up endpoint ps w) = Val (api_error r).
Proof.
  intros Hup Hs. rewrite api_get_wrapped_eq. cbn zeta. rewrite Hup.
  destruct (Z.eqb_spec (status_code r) 200); [contradiction | reflexivity].
Qed.

(** The sibling [fetch_multiple] turns every failure of its request into the
    empty list. *)
Lemma fetch_multiple_wrapped_never_raises (up : upstream) (urls : list string)
      (limit : Z) (w : world) :
  exists l, fst (fetch_multiple_wrapped up urls limit w) = Val l.
Proof.
  destruct (fm_ids urls) as [|i ids] eqn:E.
  - rewrite fetch_multiple_wrapped_no_ids by exact E. eexists; reflexivity.
  - rewrite fetch_multiple_wrapped_sends by (rewrite E; discriminate).
    cbn zeta. destruct (up _ _) as [msg|r]; [eexists; reflexivity|].
    destruct (status_code r =? 200); [|eexists; reflexivity].
    destruct (body r) as [[]|]; eexists; reflexivity.
Qed.

(** ** Filters and the page cursor *)

Lemma character_params_page (n : Z) (name status species gender : string) :
  dict_get "page" (character_params n name status species gender)
  = Some (PInt n).
Proof. destruct name, status, species, gender; reflexivity. Qed.

(** A change of any of the four character filters puts the character list
    on page 1 before the view is rendered. *)
Lemma character_filter_change_resets_page (wd : widget) (v : string)
      (w : world) :
  on_change wd = Some reset_char_page ->
  let w' := snd (apply_event (TextChanged wd v) w) in
  char_page (session_state w') = 1
  /\ widget_value wd (session_state w') = v
  /\ dict_get "page" (view_params Characters (session_state w')) = Some (PInt 1).
Proof.
  intros Hcb. destruct wd; try discriminate; cbn;
    repeat split; apply character_params_page.
Qed.

(** C5: the code at the failing input.  On page 3 of the episode list, the
    user changes the filter "Episode name" to "Pilot": the page cursor stays
    at 3 and the request is built with page 3 and the new filter value. *)
Theorem episode_filter_change_keeps_page :
  interact (always not_found) Episodes (TextChanged W_ep_name "Pilot")
           (fresh_world episodes_page_3)
  = (Val tt,
     mkWorld 0
       [mkRequest "https://rickandmortyapi.com/api/episode"
                  (Some [("page", PInt 3); ("name", PStr "Pilot")]) 20]
       [Cache.mkEntry
          ("episode", Some [("page", PInt 3); ("name", PStr "Pilot")])
          (JObj [("error", JStr "API Error 404: There is nothing here")])
          300]
       []
       (mkSession 1 3 1 "" "" "" "" "Pilot" "" "" "" (Some 3) None)
       ["ep-page-input"; "ep-code"; "ep-name"]).
Proof. reflexivity. Qed.

(** ** The page cursor and the reply *)

Lemma reruns_false {A : Type} (r : res A) :
  reruns r = false <-> r <> Exc RerunException.
Proof.
  destruct r as [a|e]; simpl; [split; [discriminate | reflexivity]|].
  destruct e; split; try discriminate; try reflexivity; try congruence.
Qed.

Lemma quiet_ret {A : Type} (a : A) : quiet (ret a).
Proof. intros w. split; reflexivity. Qed.

Lemma quiet_lift {A : Type} (r : res A) : calm r -> quiet (lift r).
Proof. intros H w. split; [exact H | reflexivity]. Qed.

Lemma quiet_raise {A : Type} (e : exn) : e <> RerunException -> quiet (@raise A e).
Proof. intros H w. split; [destruct e; try reflexivity; now elim H | reflexivity]. Qed.

Lemma quiet_bind {A B : Type} (m : M A) (k : A -> M B) :
  quiet m -> (forall a, quiet (k a)) -> quiet (bind m k).
Proof.
  intros Hm Hk w. unfold bind. destruct (Hm w) as [Hr Hs].
  destruct (m w) as [[a|e] w']; cbn [fst snd] in *.
  - destruct (Hk a w') as [Hr' Hs']. split; [exact Hr' | congruence].
  - split; [exact Hr | exact Hs].
Qed.

Lemma quiet_for_each {A : Type} (l : list A) (body : A -> M unit) :
  (forall a, quiet (body a)) -> quiet (for_each l body).
Proof.
  intros Hb. induction l as [|a l IH]; simpl.
  - apply quiet_ret.
  - apply quiet_bind; [apply Hb | intros _; exact IH].
Qed.

Lemma quiet_try_except {A : Type} (m : M A) (h : exn -> M A) :
  quiet m -> (forall e, quiet (h e)) -> quiet (try_except m h).
Proof.
  intros Hm Hh w. unfold try_except. destruct (Hm w) as [Hr Hs].
  destruct (m w) as [[a|e] w']; cbn [fst snd] in *.
  - split; [reflexivity | exact Hs].
  - destruct (is_Exception e) eqn:Ex.
    + destruct (Hh e w') as [Hr' Hs']. split; [exact Hr' | congruence].
    + split; [exact Hr | exact Hs].
Qed.

Lemma quiet_get_session : quiet get_session.
Proof. intros w. split; reflexivity. Qed.

Lemma quiet_requests_get (up : upstream) url ps t : quiet (requests_get up url ps t).
Proof.
  intros w. unfold requests_get. destruct (up _ _); split; reflexivity.
Qed.

Lemma quiet_cache_data {K V : Type} (eqb : K -> K -> bool) ttl cap
      store with_store (k : K) (m : M V) :
  (forall c w, session_state (with_store c w) = session_state w) ->
  quiet m -> quiet (cache_data eqb ttl cap store with_store k m).
Proof.
  intros Hst Hm w. unfold cache_data.
  destruct (Cache.get eqb (now w) k (store w)) as [[v c]|].
  - split; [reflexivity | apply Hst].
  - destruct (Hm w) as [Hr Hs]. destruct (m w) as [[v|e] w']; cbn [fst snd] in *.
    + split; [reflexivity | now rewrite Hst].
    + split; [exact Hr | exact Hs].
Qed.

Lemma calm_res_bind {A B : Type} (r : res A) (k : A -> res B) :
  calm r -> (forall a, calm (k a)) -> calm (res_bind r k).
Proof. intros Hr Hk. destruct r; simpl; [apply Hk | exact Hr]. Qed.

Lemma calm_val {A : Type} (a : A) : calm (Val a).
Proof. reflexivity. Qed.

Lemma calm_py_get d k x : calm (py_get d k x).
Proof. destruct d; reflexivity. Qed.
Lemma calm_py_getitem d k : calm (py_getitem d k).
Proof.
  destruct d as [| | | | |m]; try reflexivity.
  unfold calm; simpl. destruct (dict_get k m); reflexivity.
Qed.
Lemma calm_py_in k d : calm (py_in k d).
Proof. destruct d; reflexivity. Qed.
Lemma calm_py_iter d : calm (py_iter d).
Proof. destruct d; reflexivity. Qed.
Lemma calm_py_lower d : calm (py_lower d).
Proof. destruct d; reflexivity. Qed.
Lemma calm_py_number d : calm (py_number d).
Proof. destruct d; reflexivity. Qed.
Lemma calm_as_urls d : calm (as_urls d).
Proof.
  destruct d; try reflexivity. simpl.
  induction l as [|j l IH]; simpl; [reflexivity|].
  destruct j; try reflexivity. apply calm_res_bind; [exact IH | intros; apply calm_val].
Qed.
Lemma calm_status_class d : calm (status_class d).
Proof. apply calm_res_bind; [apply calm_py_lower | intros; apply calm_val]. Qed.
Lemma calm_get_status_color d : calm (get_status_color d).
Proof. apply calm_res_bind; [apply calm_py_lower | intros; apply calm_val]. Qed.

Create HintDb calm.
#[local] Hint Resolve calm_val calm_py_get calm_py_getitem calm_py_in calm_py_iter
  calm_py_lower calm_py_number calm_as_urls calm_status_class
  calm_get_status_color : calm.

Lemma calm_card_fields ch : calm (card_fields ch).
Proof.
  unfold card_fields.
  repeat (apply calm_res_bind; [auto with calm | intros ?]).
  apply calm_val.
Qed.

#[local] Hint Resolve calm_card_fields : calm.

Lemma quiet_created key : quiet (created key).
Proof. intros w. split; reflexivity. Qed.

Lemma quiet_keyed_button key : quiet (keyed_button key).
Proof.
  intros w. unfold keyed_button. destruct (rendered key w); split; reflexivity.
Qed.

Lemma quiet_render_character_card ch : quiet (render_character_card ch).
Proof.
  unfold render_character_card.
  apply quiet_bind; [apply quiet_lift; auto with calm | intros char_id].
  apply quiet_keyed_button.
Qed.

Ltac quiet_step :=
  first
    [ apply quiet_ret
    | apply quiet_get_session
    | apply quiet_created
    | apply quiet_requests_get
    | apply quiet_lift; solve [auto with calm]
    | apply quiet_for_each; intros ?
    | apply quiet_try_except; [|intros ?]
    | apply quiet_bind; [|intros ?] ].

Lemma quiet_api_get up endpoint ps : quiet (api_get up endpoint ps).
Proof.
  unfold api_get. apply quiet_cache_data; [reflexivity|].
  unfold api_get_wrapped. apply quiet_bind; [apply quiet_requests_get | intros r].
  destruct (status_code r =? 200); [|apply quiet_ret].
  unfold r_json. destruct (body r); [apply quiet_ret | apply quiet_raise; discriminate].
Qed.

Lemma quiet_fetch_multiple up urls limit : quiet (fetch_multiple up urls limit).
Proof.
  unfold fetch_multiple. apply quiet_cache_data; [reflexivity|].
  unfold fetch_multiple_wrapped.
  destruct (fm_ids urls); [apply quiet_ret|].
  destruct urls; [apply quiet_raise; discriminate|].
  apply quiet_try_except; [|intros; apply quiet_ret].
  apply quiet_bind; [apply quiet_requests_get | intros r].
  destruct (status_code r =? 200); [|apply quiet_ret].
  apply quiet_bind; [|intros; apply quiet_ret].
  unfold r_json. destruct (body r); [apply quiet_ret | apply quiet_raise; discriminate].
Qed.

Lemma quiet_pager_no_event info k prefix : quiet (pager_controls NoEvent info k prefix).
Proof.
  unfold pager_controls. cbn [button].
  repeat quiet_step.
Qed.

Lemma quiet_render_episode_item up ep : quiet (render_episode_item up ep).
Proof.
  unfold render_episode_item.
  repeat first [apply quiet_fetch_multiple | quiet_step].
Qed.

Lemma quiet_render_location_item up loc : quiet (render_location_item up loc).
Proof.
  unfold render_location_item.
  repeat first [apply quiet_fetch_multiple | quiet_step].
Qed.

Lemma quiet_show_episodes_reply up data : quiet (show_episodes_reply up NoEvent data).
Proof.
  unfold show_episodes_reply.
  apply quiet_bind; [apply quiet_lift; auto with calm | intros is_error].
  destruct is_error.
  - repeat quiet_step.
  - apply quiet_bind; [apply quiet_lift; auto with calm | intros info].
    apply quiet_bind; [apply quiet_lift; auto with calm | intros results].
    destruct (py_truthy results); [|apply quiet_ret].
    apply quiet_bind; [apply quiet_lift; auto with calm | intros items].
    apply quiet_bind; [|intros; apply quiet_pager_no_event].
    apply quiet_for_each. intros ep. apply quiet_render_episode_item.
Qed.

Lemma quiet_show_locations_reply up data : quiet (show_locations_reply up NoEvent data).
Proof.
  unfold show_locations_reply.
  apply quiet_bind; [apply quiet_lift; auto with calm | intros is_error].
  destruct is_error.
  - repeat quiet_step.
  - apply quiet_bind; [apply quiet_lift; auto with calm | intros info].
    apply quiet_bind; [apply quiet_lift; auto with calm | intros results].
    destruct (py_truthy results); [|apply quiet_ret].
    apply quiet_bind; [apply quiet_lift; auto with calm | intros items].
    apply quiet_bind; [|intros; apply quiet_pager_no_event].
    apply quiet_for_each. intros ep. apply quiet_render_location_item.
Qed.

Lemma bind_lift_val {A B : Type} (a : A) (k : A -> M B) (w : world) :
  bind (lift (Val a)) k w = k a w.
Proof. reflexivity. Qed.

Lemma bind_val {A B : Type} (m : M A) (k : A -> M B) (w w' : world) (a : A) :
  m w = (Val a, w') -> bind m k w = k a w'.
Proof. intros H. unfold bind. now rewrite H. Qed.

Lemma bind_ret {A B : Type} (a : A) (k : A -> M B) (w : world) :
  bind (ret a) k w = k a w.
Proof. reflexivity. Qed.

Lemma bind_get_session {B : Type} (k : session -> M B) (w : world) :
  bind get_session k w = k (session_state w) w.
Proof. reflexivity. Qed.

Lemma quiet_show_character_reply data :
  is_error_reply data = false -> quiet (show_character_reply NoEvent data).
Proof.
  intros Hok. unfold show_character_reply.
  assert (Hsuccess : quiet (
    info <- lift (py_get data "info" (JObj [])) ;;
    results <- lift (py_get data "results" (JList [])) ;;
    if py_truthy results then
      items <- lift (py_iter results) ;;
      for_each items render_character_card ;;
      pager_controls NoEvent info char_page_key "char_bottom"
    else ret tt)).
  { apply quiet_bind; [apply quiet_lift; auto with calm | intros info].
    apply quiet_bind; [apply quiet_lift; auto with calm | intros results].
    destruct (py_truthy results); [|apply quiet_ret].
    apply quiet_bind; [apply quiet_lift; auto with calm | intros items].
    apply quiet_bind; [|intros; apply quiet_pager_no_event].
    apply quiet_for_each. intros ch. apply quiet_render_character_card. }
  intros w.
  destruct data as [| b | n | s | l | m]; cbn [py_in];
    try (split; reflexivity).
  - rewrite bind_lift_val. destruct (PyStr.contains "error" s).
    + split; reflexivity.
    + apply Hsuccess.
  - rewrite bind_lift_val. destruct (existsb (is_str "error") l).
    + split; reflexivity.
    + apply Hsuccess.
  - cbn in Hok. rewrite bind_lift_val.
    destruct (dict_get "error" m); [discriminate | apply Hsuccess].
Qed.


(** What a call of [api_get] does depends on the clock, the log and the
    store only. *)
Lemma api_get_at up endpoint ps (w : world) (s : session) (ks : list string) :
  api_get up endpoint ps (with_run_keys ks (with_session s w))
  = (fst (api_get up endpoint ps w),
     with_run_keys ks (with_session s (snd (api_get up endpoint ps w)))).
Proof.
  unfold api_get, cache_data. cbn [now api_cache with_run_keys with_session].
  destruct (Cache.get api_key_eqb (now w) (endpoint, ps) (api_cache w))
    as [[v c]|]; [reflexivity|].
  unfold api_get_wrapped, bind, requests_get.
  cbn [net_log with_run_keys with_session].
  destruct (up _ _) as [msg|r]; [reflexivity|].
  destruct (status_code r =? 200); [|reflexivity].
  unfold r_json. destruct (body r); reflexivity.
Qed.

Lemma api_get_keys up endpoint ps (w : world) (ks : list string) :
  api_get up endpoint ps (with_run_keys ks w)
  = (fst (api_get up endpoint ps w),
     with_run_keys ks (snd (api_get up endpoint ps w))).
Proof.
  rewrite <- (with_session_same w) at 1. rewrite api_get_at.
  destruct (quiet_api_get up endpoint ps w) as [_ Hs].
  now rewrite <- Hs, with_session_same.
Qed.

(** The character list creates its four filter widgets and asks for the
    parameters of the session. *)
Lemma render_character_list_eq up ev (w : world) :
  render_character_list up ev w
  = bind (api_get up "character" (Some (view_params Characters (session_state w))))
         (show_character_reply ev)
         (with_run_keys (view_keys Characters ++ run_keys w)%list w).
Proof. reflexivity. Qed.

(** The episode list creates its widgets, sets the page cursor to the number
    of the page widget and asks for the parameters of the session. *)
Lemma render_episodes_eq up ev (w : world) :
  render_episodes up ev w
  = let s := session_state w in
    let w1 := with_run_keys (view_keys Episodes ++ run_keys w)%list w in
    if ep_page s <? 1 then (Exc StreamlitAPIException, w1)
    else
      let n := shown_page Episodes s in
      bind (api_get up "episode" (Some (view_params Episodes s)))
           (show_episodes_reply up ev)
           (with_session
              (with_page ep_page_key n (with_number N_ep_page (Some n) s)) w1).
Proof.
  unfold render_episodes, text_input, number_input, bind, created, get_session,
    ret, raise, set_number, set_page.
  cbn [session_state with_run_keys with_session fst snd].
  destruct (ep_page (session_state w) <? 1); reflexivity.
Qed.

Lemma render_locations_eq up ev (w : world) :
  render_locations up ev w
  = let s := session_state w in
    let w1 := with_run_keys (view_keys Locations ++ run_keys w)%list w in
    if loc_page s <? 1 then (Exc StreamlitAPIException, w1)
    else
      let n := shown_page Locations s in
      bind (api_get up "location" (Some (view_params Locations s)))
           (show_locations_reply up ev)
           (with_session
              (with_page loc_page_key n (with_number N_loc_page (Some n) s)) w1).
Proof.
  unfold render_locations, text_input, number_input, bind, created, get_session,
    ret, raise, set_number, set_page.
  cbn [session_state with_run_keys with_session fst snd].
  destruct (loc_page (session_state w) <? 1); reflexivity.
Qed.

(** Without an interaction, the episode and the location list ask for no
    rerun, and from a page cursor of at least 1 they leave the cursor at the
    number of the page widget, whatever the reply. *)
Lemma render_episodes_no_event up (w : world) :
  let run := render_episodes up NoEvent w in
  reruns (fst run) = false
  /\ (1 <= ep_page (session_state w) ->
      ep_page (session_state (snd run)) = shown_page Episodes (session_state w)).
Proof.
  cbv zeta. rewrite render_episodes_eq. cbv zeta.
  destruct (Z.ltb_spec (ep_page (session_state w)) 1) as [Hlt|Hge].
  - split; [reflexivity | lia].
  - set (w2 := with_session _ _).
    assert (Hq : quiet (bind (api_get up "episode"
                                (Some (view_params Episodes (session_state w))))
                             (show_episodes_reply up NoEvent))).
    { apply quiet_bind; [apply quiet_api_get | intros data].
      apply quiet_show_episodes_reply. }
    destruct (Hq w2) as [Hr Hs]. split; [exact Hr|].
    intros _. rewrite Hs. subst w2. cbn [session_state with_session].
    apply (page_with_page ep_page_key).
Qed.

Lemma render_locations_no_event up (w : world) :
  let run := render_locations up NoEvent w in
  reruns (fst run) = false
  /\ (1 <= loc_page (session_state w) ->
      loc_page (session_state (snd run)) = shown_page Locations (session_state w)).
Proof.
  cbv zeta. rewrite render_locations_eq. cbv zeta.
  destruct (Z.ltb_spec (loc_page (session_state w)) 1) as [Hlt|Hge].
  - split; [reflexivity | lia].
  - set (w2 := with_session _ _).
    assert (Hq : quiet (bind (api_get up "location"
                                (Some (view_params Locations (session_state w))))
                             (show_locations_reply up NoEvent))).
    { apply quiet_bind; [apply quiet_api_get | intros data].
      apply quiet_show_locations_reply. }
    destruct (Hq w2) as [Hr Hs]. split; [exact Hr|].
    intros _. rewrite Hs. subst w2. cbn [session_state with_session].
    apply (page_with_page loc_page_key).
Qed.




(* ================================================================== *)
(** * More properties of the code *)

(** ** Status helpers *)

Lemma lower_char_idem (c : ascii) :
  PyStr.lower_char (PyStr.lower_char c) = PyStr.lower_char c.
Proof. destruct c as [[] [] [] [] [] [] [] []]; vm_compute; reflexivity. Qed.

Lemma lower_idem (s : string) : PyStr.lower (PyStr.lower s) = PyStr.lower s.
Proof.
  induction s as [|c s IH]; simpl; [reflexivity|].
  now rewrite lower_char_idem, IH.
Qed.

Lemma lower_truthy (s : string) : PyStr.truthy (PyStr.lower s) = PyStr.truthy s.
Proof. destruct s; reflexivity. Qed.

(** X1.  [status_class] and [get_status_color] agree on every value: both
    raise [AttributeError] (a value that is true and not a string), or they
    return the class and the colour of the same status: alive with
    var(--ok), dead with var(--bad), unknown with var(--warn). *)
Theorem status_class_and_color_agree :
  forall s : json,
    match status_class s, get_status_color s with
    | Val c, Val v =>
        (c = "alive" /\ v = "var(--ok)")
        \/ (c = "dead" /\ v = "var(--bad)")
        \/ (c = "unknown" /\ v = "var(--warn)")
    | Exc e1, Exc e2 => e1 = AttributeError /\ e2 = AttributeError
    | _, _ => False
    end.
Proof.
  intros s. unfold status_class, get_status_color.
  destruct (py_lower (py_or s (JStr ""))) as [l|e] eqn:E; simpl.
  - destruct (String.eqb l "alive"); [tauto|].
    destruct (String.eqb l "dead"); tauto.
  - unfold py_lower in E. destruct (py_or s (JStr "")); try discriminate;
      injection E as <-; auto.
Qed.

(** X2.  The class of a status does not depend on the case of its letters,
    and it is always one of alive, dead and unknown; [None] and the empty
    string are unknown. *)
Theorem status_class_ignores_case :
  forall s : string,
    status_class (JStr (PyStr.lower s)) = status_class (JStr s)
    /\ (exists c, status_class (JStr s) = Val c
                  /\ In c ["alive"; "dead"; "unknown"])
    /\ status_class JNull = Val "unknown"
    /\ status_class (JStr "") = Val "unknown".
Proof.
  intros s. repeat split.
  - unfold status_class, py_or, py_truthy. rewrite lower_truthy.
    destruct (PyStr.truthy s); simpl; [now rewrite lower_idem | reflexivity].
  - unfold status_class, py_or, py_truthy.
    destruct (PyStr.truthy s); simpl.
    + destruct (String.eqb (PyStr.lower s) "alive");
        [eexists; split; [reflexivity | simpl; tauto]|].
      destruct (String.eqb (PyStr.lower s) "dead");
        eexists; split; try reflexivity; simpl; tauto.
    + eexists; split; [reflexivity | simpl; tauto].
Qed.

(** ** Identifiers *)

(** X3.  A URL that ends in a slash and a run of digits, followed by at most
    one slash and a final newline, yields exactly these digits, whatever
    comes before. *)
Theorem extract_id_from_url_finds_final_digits :
  forall pre d t : string,
    all_digits d = true -> d <> "" -> id_tail t ->
    extract_id_from_url (pre ++ "/" ++ d ++ t) = d.
Proof.
  intros pre d t Hd Hne Ht.
  assert (Hfound : Re.search (pre ++ "/" ++ d ++ t) = Some d).
  { induction pre as [|c pre IH].
    - apply search_here, match_here_complete; assumption.
    - simpl append. rewrite search_skip; [exact IH|].
      apply match_here_blocked, slash_digit_app; assumption. }
  unfold extract_id_from_url. now rewrite Hfound.
Qed.

Lemma extract_id_from_url_finds_final_digits_witness :
  extract_id_from_url ("https://rickandmortyapi.com/api/character/2" ++ "/" ++ "183" ++ "/")
  = "183".
Proof.
  apply (extract_id_from_url_finds_final_digits
           "https://rickandmortyapi.com/api/character/2" "183" "/");
    [reflexivity | discriminate | unfold id_tail; tauto].
Defined.

(** X4.  [extract_id_from_url] returns digits only; when it returns an
    identifier, the URL is some prefix, a slash, that identifier, and at
    most one slash and a final newline. *)
Theorem extract_id_from_url_only_final_digits :
  forall u : string,
    extract_id_from_url u <> "" ->
    all_digits (extract_id_from_url u) = true
    /\ exists pre t, u = pre ++ "/" ++ extract_id_from_url u ++ t /\ id_tail t.
Proof.
  intros u Hne. split; [apply extract_id_digits | now apply extract_id_shape].
Qed.

Lemma extract_id_from_url_only_final_digits_witness :
  exists pre t,
    "https://rickandmortyapi.com/api/location/20/"
    = pre ++ "/" ++ "20" ++ t /\ id_tail t.
Proof.
  apply (extract_id_from_url_only_final_digits
           "https://rickandmortyapi.com/api/location/20/").
  discriminate.
Defined.

(** ** Time to live and size of the stores *)

Section StoreFacts.
Context {K V : Type} (eqb : K -> K -> bool).
Hypothesis eqb_refl : forall k, eqb k k = true.

(** What was stored is not served once its time to live has passed. *)
Lemma get_put_expired (ttl : Z) (cap : option nat) (t d : Z) (k : K) (v : V)
      (c : Cache.t K V) :
  ttl <= d ->
  Cache.get eqb (t + d) k (Cache.put eqb ttl cap t k v c) = None.
Proof.
  intros Hd. unfold Cache.get, Cache.put.
  rewrite find_app, find_make_room by apply find_remove.
  simpl. rewrite eqb_refl. unfold Cache.live. simpl.
  destruct (Z.ltb_spec (t + d) (t + ttl)); [lia | reflexivity].
Qed.

Lemma remove_length (k : K) (c : Cache.t K V) :
  (List.length (Cache.remove eqb k c) <= List.length c)%nat.
Proof. apply filter_length_le. Qed.

Lemma remove_length_found (k : K) (c : Cache.t K V) (e : Cache.entry K V) :
  Cache.find eqb k c = Some e ->
  (S (List.length (Cache.remove eqb k c)) <= List.length c)%nat.
Proof.
  induction c as [|e' c IH]; simpl; [discriminate|].
  destruct (eqb k (Cache.key e')) eqn:E; simpl.
  - intros _. pose proof (remove_length k c). unfold Cache.remove in *. lia.
  - intros H. specialize (IH H). unfold Cache.remove in *. lia.
Qed.

(** A lookup does not make the store longer. *)
Lemma get_length (t : Z) (k : K) (c c' : Cache.t K V) (v : V) :
  Cache.get eqb t k c = Some (v, c') ->
  (List.length c' <= List.length c)%nat.
Proof.
  unfold Cache.get. destruct (Cache.find eqb k c) as [e|] eqn:E; [|discriminate].
  destruct (Cache.live t e); [|discriminate]. intros [= _ <-].
  rewrite length_app. simpl. pose proof (remove_length_found k c e E). lia.
Qed.
End StoreFacts.

Lemma urls_eqb_refl (l : list string) : urls_eqb l l = true.
Proof.
  induction l as [|u l IH]; simpl; [reflexivity|].
  now rewrite String.eqb_refl, IH.
Qed.

Lemma fm_key_eqb_refl (k : fm_key) : fm_key_eqb k k = true.
Proof.
  destruct k as [urls limit]. unfold fm_key_eqb. simpl.
  now rewrite urls_eqb_refl, Z.eqb_refl.
Qed.

Lemma api_get_miss (up : upstream) (endpoint : string) (ps : option params)
      (w : world) :
  Cache.get api_key_eqb (now w) (endpoint, ps) (api_cache w) = None ->
  api_get up endpoint ps w
  = let w' := with_net_log (net_log w ++ [api_request endpoint ps])%list w in
    match up (List.length (net_log w)) (api_request endpoint ps) with
    | Fails msg => (Exc (RequestException msg), w')
    | Responds r =>
        if status_code r =? 200
        then match body r with
             | Some j =>
                 (Val j,
                  with_api_cache
                    (Cache.put api_key_eqb 300 (Some 50%nat) (now w)
                               (endpoint, ps) j (api_cache w)) w')
             | None => (Exc JSONDecodeError, w')
             end
        else (Val (api_error r),
              with_api_cache
                (Cache.put api_key_eqb 300 (Some 50%nat) (now w)
                           (endpoint, ps) (api_error r) (api_cache w)) w')
    end.
Proof.
  intros Hmiss. unfold api_get. rewrite cache_data_miss by exact Hmiss.
  rewrite api_get_wrapped_eq. cbn zeta.
  destruct (up _ _) as [msg|r]; [reflexivity|].
  destruct (status_code r =? 200); [|reflexivity].
  destruct (body r); reflexivity.
Qed.

(** X5.  A value [api_get] stored is served for 300 seconds only: a fetch
    for the same signature 300 seconds or more after a fetch that went to
    the upstream goes to the upstream again. *)
Theorem api_get_refetches_after_ttl :
  forall (up : upstream) (endpoint : string) (ps : option params) (w : world)
         (d : Z),
    Cache.get api_key_eqb (now w) (endpoint, ps) (api_cache w) = None ->
    300 <= d ->
    let rq := api_request endpoint ps in
    let first := api_get up endpoint ps w in
    let second := api_get up endpoint ps (elapse d (snd first)) in
    net_log (snd second) = (net_log w ++ [rq; rq])%list.
Proof.
  intros up endpoint ps w d Hmiss Hd rq first second.
  assert (Hfirst : net_log (snd first) = (net_log w ++ [rq])%list
                   /\ Cache.get api_key_eqb (now w + d) (endpoint, ps)
                                (api_cache (snd first)) = None
                   /\ now (snd first) = now w).
  { subst first. rewrite api_get_miss by exact Hmiss. cbn zeta. fold rq.
    assert (Hold : Cache.get api_key_eqb (now w + d) (endpoint, ps) (api_cache w) = None)
      by (apply get_miss_later; [lia | exact Hmiss]).
    destruct (up _ rq) as [msg|r]; [now repeat split|].
    destruct (status_code r =? 200).
    - destruct (body r); [|now repeat split].
      repeat split. cbn [snd api_cache with_api_cache]. apply get_put_expired; [apply api_key_eqb_refl | exact Hd].
    - repeat split. cbn [snd api_cache with_api_cache]. apply get_put_expired; [apply api_key_eqb_refl | exact Hd]. }
  destruct Hfirst as (Hlog & Hget & Hnow).
  subst second. rewrite api_get_miss.
  2:{ cbn. rewrite Hnow. exact Hget. }
  cbn zeta. fold rq.
  replace (net_log w ++ [rq; rq])%list with ((net_log w ++ [rq]) ++ [rq])%list
    by (now rewrite <- app_assoc).
  rewrite <- Hlog.
  change (net_log (elapse d (snd first))) with (net_log (snd first)).
  destruct (up _ rq) as [msg|r]; [reflexivity|].
  destruct (status_code r =? 200); [|reflexivity].
  destruct (body r); reflexivity.
Qed.

Lemma api_get_refetches_after_ttl_witness :
  net_log
    (snd (api_get (always (answers one_page_reply)) "character" None
                  (elapse 300
                     (snd (api_get (always (answers one_page_reply)) "character"
                                   None (fresh_world initial_session))))))
  = [api_request "character" None; api_request "character" None].
Proof.
  apply (api_get_refetches_after_ttl
           (always (answers one_page_reply)) "character" None
           (fresh_world initial_session) 300); [reflexivity | lia].
Defined.

(** A fetch keeps the store of [api_get] within its 50 entries. *)
Lemma api_get_bounded :
  forall (up : upstream) (endpoint : string) (ps : option params) (w : world),
    (List.length (api_cache w) <= 50)%nat ->
    (List.length (api_cache (snd (api_get up endpoint ps w))) <= 50)%nat.
Proof.
  intros up endpoint ps w Hb.
  destruct (Cache.get api_key_eqb (now w) (endpoint, ps) (api_cache w))
    as [[v c]|] eqn:Hget.
  - unfold api_get, cache_data. rewrite Hget. cbn.
    pose proof (get_length api_key_eqb _ _ _ _ _ Hget). lia.
  - rewrite api_get_miss by exact Hget. cbn zeta.
    destruct (up _ _) as [msg|r]; [exact Hb|].
    destruct (status_code r =? 200).
    + destruct (body r); [|exact Hb]. cbn [snd api_cache with_api_cache]. apply put_length. lia.
    + cbn [snd api_cache with_api_cache]. apply put_length. lia.
Qed.

(** ** The batch resolver, as the callers see it *)

Lemma fetch_multiple_hit (up : upstream) (urls : list string) (limit : Z)
      (w : world) (v : list json) (c : Cache.t fm_key (list json)) :
  Cache.get fm_key_eqb (now w) (urls, limit) (fm_cache w) = Some (v, c) ->
  fetch_multiple up urls limit w = (Val v, with_fm_cache c w).
Proof. intros H. unfold fetch_multiple, cache_data. now rewrite H. Qed.

Lemma fetch_multiple_miss_eq (up : upstream) (urls : list string) (limit : Z)
      (w : world) :
  Cache.get fm_key_eqb (now w) (urls, limit) (fm_cache w) = None ->
  exists l w',
    fetch_multiple_wrapped up urls limit w = (Val l, w')
    /\ fetch_multiple up urls limit w
       = (Val l,
          with_fm_cache (Cache.put fm_key_eqb 300 None (now w') (urls, limit) l
                                   (fm_cache w')) w').
Proof.
  intros Hmiss. unfold fetch_multiple. rewrite cache_data_miss by exact Hmiss.
  destruct (fetch_multiple_wrapped_never_raises up urls limit w) as [l Hl].
  destruct (fetch_multiple_wrapped up urls limit w) as [r w'] eqn:E.
  simpl in Hl. subst r. exists l, w'. split; reflexivity.
Qed.

Lemma fetch_multiple_wrapped_frame (up : upstream) (urls : list string)
      (limit : Z) (w : world) :
  let w' := snd (fetch_multiple_wrapped up urls limit w) in
  now w' = now w /\ fm_cache w' = fm_cache w /\ api_cache w' = api_cache w
  /\ session_state w' = session_state w.
Proof.
  destruct (fm_ids urls) as [|i ids] eqn:E.
  - rewrite fetch_multiple_wrapped_no_ids by exact E. now repeat split.
  - rewrite fetch_multiple_wrapped_sends by (rewrite E; discriminate).
    cbn zeta. destruct (up _ _) as [msg|r]; [now repeat split|].
    destruct (status_code r =? 200); [|now repeat split].
    destruct (body r) as [[]|]; now repeat split.
Qed.

(** X6.  [fetch_multiple] never raises: whatever the references, the limit
    and the outcome of the request, it returns a list; and it sends at most
    one request, leaving the session state as it was. *)
Theorem fetch_multiple_returns_a_list :
  forall (up : upstream) (urls : list string) (limit : Z) (w : world),
    (exists l, fst (fetch_multiple up urls limit w) = Val l)
    /\ (net_log (snd (fetch_multiple up urls limit w)) = net_log w
        \/ net_log (snd (fetch_multiple up urls limit w))
           = (net_log w
              ++ [bulk_request (hd "" urls) (py_slice_to limit (fm_ids urls))])%list)
    /\ session_state (snd (fetch_multiple up urls limit w)) = session_state w.
Proof.
  intros up urls limit w.
  destruct (Cache.get fm_key_eqb (now w) (urls, limit) (fm_cache w))
    as [[v c]|] eqn:Hget.
  - rewrite (fetch_multiple_hit up urls limit w v c Hget). cbn.
    split; [now exists v | split; [now left | reflexivity]].
  - destruct (fetch_multiple_miss_eq up urls limit w Hget) as (l & w' & Hw & ->).
    pose proof (fetch_multiple_wrapped_frame up urls limit w) as Hf.
    rewrite Hw in Hf. cbn in Hf. destruct Hf as (_ & _ & _ & Hs).
    cbn [fst snd]. split; [now exists l|]. split; [|exact Hs].
    cbn [net_log with_fm_cache].
    destruct (fm_ids urls) as [|i ids] eqn:E.
    + rewrite fetch_multiple_wrapped_no_ids in Hw by exact E.
      injection Hw as _ <-. now left.
    + right. pose proof (fetch_multiple_wrapped_log up urls limit w) as Hl.
      rewrite E in Hl. rewrite Hw in Hl. apply Hl. discriminate.
Qed.

(** X7.  [fetch_multiple] memoises its failures too: after a call that went
    to the upstream, whatever came back, the same call within 300 seconds
    returns the same list without a request; and when the request failed in
    transport or was answered with a status other than 200, that list is
    empty. *)
Theorem fetch_multiple_memoises_every_result :
  forall (up : upstream) (urls : list string) (limit : Z) (w : world) (d : Z),
    Cache.get fm_key_eqb (now w) (urls, limit) (fm_cache w) = None ->
    0 <= d < 300 ->
    let rq := bulk_request (hd "" urls) (py_slice_to limit (fm_ids urls)) in
    let first := fetch_multiple up urls limit w in
    let second := fetch_multiple up urls limit (elapse d (snd first)) in
    fst second = fst first
    /\ net_log (snd second) = net_log (snd first)
    /\ match up (List.length (net_log w)) rq with
       | Fails _ => fst first = Val []
       | Responds r => status_code r <> 200 -> fst first = Val []
       end.
Proof.
  intros up urls limit w d Hmiss Hd rq first second.
  destruct (fetch_multiple_miss_eq up urls limit w Hmiss) as (l & w' & Hw & Hfirst).
  pose proof (fetch_multiple_wrapped_frame up urls limit w) as Hf.
  rewrite Hw in Hf. cbn in Hf. destruct Hf as (Hnow & Hc & _ & _).
  assert (Hsecond : fst second = Val l
                    /\ net_log (snd second) = net_log (snd first)
                    /\ fst first = Val l).
  { subst second first. rewrite Hfirst. cbn [fst snd].
    destruct (get_put fm_key_eqb fm_key_eqb_refl 300 None (now w') d
                      (urls, limit) l (fm_cache w')) as [c' Hc']; [lia|].
    rewrite (fetch_multiple_hit up urls limit _ l c').
    - repeat split.
    - cbn [now elapse fm_cache with_fm_cache]. exact Hc'. }
  destruct Hsecond as (Hs2 & Hlog & Hs1). rewrite Hs1, Hs2.
  split; [reflexivity|]. split; [exact Hlog|].
  assert (Hcase : fm_ids urls = [] \/ fm_ids urls <> [])
    by (destruct (fm_ids urls); [left | right]; congruence).
  destruct Hcase as [E|E].
  - rewrite fetch_multiple_wrapped_no_ids in Hw by exact E.
    injection Hw as <- _. destruct (up _ _); reflexivity.
  - rewrite fetch_multiple_wrapped_sends in Hw by exact E.
    cbn zeta in Hw. fold rq in Hw.
    destruct (up _ rq) as [msg|r].
    + now injection Hw as <- _.
    + intros Hs. destruct (Z.eqb_spec (status_code r) 200); [contradiction|].
      now injection Hw as <- _.
Qed.

Lemma fetch_multiple_memoises_every_result_witness :
  fst (fetch_multiple (first_then timed_out (answers pilot))
                      ["https://rickandmortyapi.com/api/episode/1"] 8
                      (elapse 10
                         (snd (fetch_multiple
                                 (first_then timed_out (answers pilot))
                                 ["https://rickandmortyapi.com/api/episode/1"] 8
                                 (fresh_world initial_session)))))
  = Val [].
Proof.
  destruct (fetch_multiple_memoises_every_result
              (first_then timed_out (answers pilot))
              ["https://rickandmortyapi.com/api/episode/1"] 8
              (fresh_world initial_session) 10)
    as (Hsame & _ & Hempty); [reflexivity | lia |].
  rewrite Hsame. exact Hempty.
Defined.

Lemma fm_ids_length (urls : list string) :
  (List.length (fm_ids urls) <= List.length urls)%nat.
Proof. unfold fm_ids. rewrite length_map. apply filter_length_le. Qed.

(** X8.  With the limit the detail page passes, the number of references,
    no identifier is cut off: the bulk request holds every identifier. *)
Theorem fetch_multiple_with_len_limit_keeps_all :
  forall (up : upstream) (urls : list string) (w : world),
    fm_ids urls <> [] ->
    py_slice_to (Z.of_nat (List.length urls)) (fm_ids urls) = fm_ids urls
    /\ net_log (snd (fetch_multiple_wrapped up urls (Z.of_nat (List.length urls)) w))
       = (net_log w ++ [bulk_request (hd "" urls) (fm_ids urls)])%list.
Proof.
  intros up urls w Hids.
  assert (Hslice : py_slice_to (Z.of_nat (List.length urls)) (fm_ids urls)
                   = fm_ids urls).
  { unfold py_slice_to. destruct (Z.leb_spec 0 (Z.of_nat (List.length urls))); [|lia].
    rewrite Nat2Z.id. apply firstn_all2, fm_ids_length. }
  split; [exact Hslice|].
  rewrite fetch_multiple_wrapped_log by exact Hids. now rewrite Hslice.
Qed.

Lemma fetch_multiple_with_len_limit_keeps_all_witness :
  net_log (snd (fetch_multiple_wrapped
                  (always not_found)
                  ["https://rickandmortyapi.com/api/episode/1";
                   "https://rickandmortyapi.com/api/episode/2";
                   "https://rickandmortyapi.com/api/episode/3"]
                  3 (fresh_world initial_session)))
  = [mkRequest "https://rickandmortyapi.com/api/episode/1,2,3" None 20].
Proof.
  destruct (fetch_multiple_with_len_limit_keeps_all
              (always not_found)
              ["https://rickandmortyapi.com/api/episode/1";
               "https://rickandmortyapi.com/api/episode/2";
               "https://rickandmortyapi.com/api/episode/3"]
              (fresh_world initial_session)) as [_ H]; [discriminate|].
  exact H.
Defined.

(** ** More on the pager *)

(** X9.  When the response reports no page count, the pager takes the
    current page as the last one: a click on Next does nothing, and a click
    on Prev moves to max(1, N-1), asking for a rerun when N > 1. *)
Theorem pager_without_page_count :
  forall (members : list (string * json)) (k : page_key) (key_prefix : string)
         (w : world),
    dict_get "pages" members = None ->
    let N := page k (session_state w) in
    pager_controls (Clicked (key_prefix ++ "-next")) (JObj members) k key_prefix w
    = (Val tt, w)
    /\ pager_controls (Clicked (key_prefix ++ "-prev")) (JObj members) k key_prefix w
       = if N <=? 1 then (Val tt, w)
         else (Exc RerunException,
               with_session (with_page k (Z.max 1 (N - 1)) (session_state w)) w).
Proof.
  intros members k key_prefix w Hnone N.
  unfold pager_controls, bind, get_session, lift, button, set_page, st_rerun,
    raise, py_get.
  rewrite Hnone, !String.eqb_refl, !eqb_append_cancel. cbn. fold N.
  split.
  - destruct (Z.geb_spec N N); [reflexivity | lia].
  - destruct (Z.leb_spec N 1); reflexivity.
Qed.

Lemma pager_without_page_count_witness :
  pager_controls (Clicked ("ep_bottom" ++ "-next")) (JObj [("count", JNum 3)])
                 ep_page_key "ep_bottom" (fresh_world episodes_page_3)
  = (Val tt, fresh_world episodes_page_3).
Proof.
  destruct (pager_without_page_count [("count", JNum 3)] ep_page_key "ep_bottom"
                                     (fresh_world episodes_page_3))
    as [Hnext _]; [reflexivity | exact Hnext].
Defined.

(** A run of the pager either changes nothing, or moves the page under
    its key by one step, and asks for a rerun. *)
Lemma pager_step (ev : event) (info : json) (k : page_key) (key_prefix : string)
      (w : world) :
  let run := pager_controls ev info k key_prefix w in
  let N := page k (session_state w) in
  (snd run = w /\ fst run <> Exc RerunException)
  \/ (exists n, ((n = N - 1 /\ 1 < N) \/ n = N + 1)
                /\ run = (Exc RerunException,
                          with_session (with_page k n (session_state w)) w)).
Proof.
  intros run N. subst run.
  unfold pager_controls, bind, get_session, lift, set_page, st_rerun, raise.
  fold N.
  destruct (py_get info "pages" (JNum N)) as [total_pages|e] eqn:Eget; cbn.
  2:{ left. split; [reflexivity|]. destruct info; try discriminate;
      injection Eget as <-; discriminate. }
  destruct (button ev (key_prefix ++ "-prev") (N <=? 1)) eqn:Eprev; cbn.
  { right. exists (N - 1).
    destruct ev; cbn in Eprev; try discriminate.
    apply andb_prop in Eprev as [_ Hd].
    destruct (Z.leb_spec N 1); [discriminate|].
    split; [left; split; [reflexivity | lia]|].
    now replace (Z.max 1 (N - 1)) with (N - 1) by lia. }
  destruct (py_number total_pages) as [total|e] eqn:Enum; cbn.
  2:{ left. split; [reflexivity|]. destruct total_pages; try discriminate;
      injection Enum as <-; discriminate. }
  destruct (button ev (key_prefix ++ "-next") (N >=? total)) eqn:Enext; cbn.
  - right. exists (N + 1). split; [now right|].
    destruct ev; cbn in Enext; try discriminate.
    apply andb_prop in Enext as [_ Hd].
    destruct (Z.geb_spec N total); [discriminate|].
    now replace (Z.min total (N + 1)) with (N + 1) by lia.
  - left. split; [reflexivity | discriminate].
Qed.

(** X10.  Whatever the event and the page information, a run of the pager
    either leaves the whole state as it was, or changes the page under its
    own key, by one step, and asks for a rerun; so it never touches another
    page cursor, a filter, the log or a store. *)
Theorem pager_changes_only_its_page :
  forall (ev : event) (info : json) (k : page_key) (key_prefix : string)
         (w : world),
    let run := pager_controls ev info k key_prefix w in
    let N := page k (session_state w) in
    (snd run = w /\ fst run <> Exc RerunException)
    \/ (exists n, (n = N - 1 \/ n = N + 1)
                  /\ run = (Exc RerunException,
                            with_session (with_page k n (session_state w)) w)).
Proof.
  intros ev info k key_prefix w run N.
  destruct (pager_step ev info k key_prefix w) as [H | (n & Hn & H)];
    [now left | right].
  exists n. split; [tauto | exact H].
Qed.

(** ** Requests per run *)

Lemma sends_ret {A : Type} (a : A) : sends_at_most 0 (ret a).
Proof. intros w. exists []. split; [now rewrite app_nil_r | reflexivity]. Qed.

Lemma sends_raise {A : Type} (e : exn) : sends_at_most 0 (@raise A e).
Proof. intros w. exists []. split; [now rewrite app_nil_r | reflexivity]. Qed.

Lemma sends_lift {A : Type} (r : res A) : sends_at_most 0 (lift r).
Proof. intros w. exists []. split; [now rewrite app_nil_r | reflexivity]. Qed.

Lemma sends_get_session : sends_at_most 0 get_session.
Proof. intros w. exists []. split; [now rewrite app_nil_r | reflexivity]. Qed.

Lemma sends_set_page (k : page_key) (n : Z) : sends_at_most 0 (set_page k n).
Proof. intros w. exists []. split; [now rewrite app_nil_r | reflexivity]. Qed.

Lemma sends_created (key : string) : sends_at_most 0 (created key).
Proof. intros w. exists []. split; [now rewrite app_nil_r | reflexivity]. Qed.

Lemma sends_keyed_button (key : string) : sends_at_most 0 (keyed_button key).
Proof.
  intros w. exists []. unfold keyed_button.
  destruct (rendered key w); split; try reflexivity; cbn; now rewrite app_nil_r.
Qed.

Lemma sends_weaken {A : Type} (a b : nat) (m : M A) :
  (a <= b)%nat -> sends_at_most a m -> sends_at_most b m.
Proof.
  intros Hab Hm w. destruct (Hm w) as (sent & Hlog & Hlen).
  exists sent. split; [exact Hlog | lia].
Qed.

Lemma sends_bind {A B : Type} (a b : nat) (m : M A) (k : A -> M B) :
  sends_at_most a m -> (forall x, sends_at_most b (k x)) ->
  sends_at_most (a + b) (bind m k).
Proof.
  intros Hm Hk w. unfold bind. destruct (Hm w) as (s1 & Hlog1 & Hlen1).
  destruct (m w) as [[x|e] w']; cbn [snd] in *.
  - destruct (Hk x w') as (s2 & Hlog2 & Hlen2).
    exists (s1 ++ s2)%list. split.
    + now rewrite Hlog2, Hlog1, app_assoc.
    + rewrite length_app. lia.
  - exists s1. split; [exact Hlog1 | lia].
Qed.

(** A step that sends nothing, before a computation that knows its
    result. *)
Lemma sends_bind_lift {A B : Type} (n : nat) (r : res A) (k : A -> M B) :
  (forall a, r = Val a -> sends_at_most n (k a)) ->
  sends_at_most n (bind (lift r) k).
Proof.
  intros Hk w. unfold bind, lift. destruct r as [a|e].
  - apply (Hk a eq_refl).
  - exists []. split; [now rewrite app_nil_r | cbn; lia].
Qed.

Lemma sends_for_each {A : Type} (l : list A) (body : A -> M unit) :
  (forall x, sends_at_most 1 (body x)) ->
  sends_at_most (List.length l) (for_each l body).
Proof.
  intros Hb. induction l as [|x l IH]; simpl.
  - apply sends_ret.
  - change (S (List.length l)) with (1 + List.length l)%nat.
    apply sends_bind; [apply Hb | intros _; exact IH].
Qed.

Lemma sends_for_each_lift {A : Type} (l : list A) (f : A -> res unit) :
  sends_at_most 0 (for_each l (fun x => lift (f x))).
Proof.
  induction l as [|x l IH]; simpl.
  - apply sends_ret.
  - change 0%nat with (0 + 0)%nat.
    apply sends_bind; [apply sends_lift | intros _; exact IH].
Qed.

Lemma sends_api_get (up : upstream) (endpoint : string) (ps : option params) :
  sends_at_most 1 (api_get up endpoint ps).
Proof.
  intros w.
  destruct (Cache.get api_key_eqb (now w) (endpoint, ps) (api_cache w))
    as [[v c]|] eqn:Hget.
  - exists []. unfold api_get, cache_data. rewrite Hget.
    split; [cbn; now rewrite app_nil_r | cbn; lia].
  - exists [api_request endpoint ps]. rewrite api_get_miss by exact Hget.
    cbn zeta. split; [|reflexivity].
    destruct (up _ _) as [msg|r]; [reflexivity|].
    destruct (status_code r =? 200); [|reflexivity].
    destruct (body r); reflexivity.
Qed.

Lemma sends_fetch_multiple (up : upstream) (urls : list string) (limit : Z) :
  sends_at_most 1 (fetch_multiple up urls limit).
Proof.
  intros w.
  destruct (Cache.get fm_key_eqb (now w) (urls, limit) (fm_cache w))
    as [[v c]|] eqn:Hget.
  - rewrite (fetch_multiple_hit up urls limit w v c Hget).
    exists []. split; [cbn; now rewrite app_nil_r | cbn; lia].
  - destruct (fetch_multiple_miss up urls limit w Hget) as [_ ->].
    destruct (fm_ids urls) as [|i ids] eqn:E.
    + rewrite fetch_multiple_wrapped_no_ids by exact E.
      exists []. split; [cbn; now rewrite app_nil_r | cbn; lia].
    + exists [bulk_request (hd "" urls) (py_slice_to limit (fm_ids urls))].
      split; [|reflexivity].
      apply fetch_multiple_wrapped_log. rewrite E. discriminate.
Qed.

Lemma sends_pager (ev : event) (info : json) (k : page_key) (prefix : string) :
  sends_at_most 0 (pager_controls ev info k prefix).
Proof.
  intros w. exists []. rewrite app_nil_r. split; [|reflexivity].
  destruct (pager_step ev info k prefix w)
    as [[-> _] | (n & _ & ->)]; reflexivity.
Qed.

Ltac sends_zero :=
  repeat first
    [ apply sends_ret
    | apply sends_lift
    | apply sends_get_session
    | apply sends_set_page
    | apply sends_created
    | apply sends_keyed_button
    | apply sends_raise
    | apply sends_pager
    | apply sends_for_each_lift
    | match goal with
      | |- sends_at_most 0 (bind _ _) =>
          change 0%nat with (0 + 0)%nat; apply sends_bind; [|intros ?]
      | |- sends_at_most 0 (if ?b then _ else _) => destruct b
      end ].

Lemma sends_render_character_card (ch : json) :
  sends_at_most 0 (render_character_card ch).
Proof. unfold render_character_card. sends_zero. Qed.

Lemma sends_for_each_zero {A : Type} (l : list A) (body : A -> M unit) :
  (forall x, sends_at_most 0 (body x)) ->
  sends_at_most 0 (for_each l body).
Proof.
  intros Hb. induction l as [|x l IH]; simpl.
  - apply sends_ret.
  - change 0%nat with (0 + 0)%nat.
    apply sends_bind; [apply Hb | intros _; exact IH].
Qed.

Lemma sends_show_character_reply (ev : event) (data : json) :
  sends_at_most 0 (show_character_reply ev data).
Proof.
  unfold show_character_reply, st_rerun.
  repeat first [ apply sends_for_each_zero; intros ?;
                 apply sends_render_character_card
               | progress sends_zero ].
Qed.

Lemma sends_render_episode_item (up : upstream) (ep : json) :
  sends_at_most 1 (render_episode_item up ep).
Proof.
  unfold render_episode_item.
  repeat (apply sends_bind_lift; intros ? _).
  change 1%nat with (1 + 0)%nat.
  apply sends_bind; [apply sends_fetch_multiple | intros chars].
  induction chars as [|c chars IH]; simpl; [apply sends_ret|].
  change 0%nat with (0 + 0)%nat. apply sends_bind; [|intros _; exact IH].
  sends_zero.
Qed.

Lemma sends_render_location_item (up : upstream) (loc : json) :
  sends_at_most 1 (render_location_item up loc).
Proof.
  unfold render_location_item.
  repeat (apply sends_bind_lift; intros ? _).
  change 1%nat with (1 + 0)%nat.
  apply sends_bind; [apply sends_fetch_multiple | intros chars].
  induction chars as [|c chars IH]; simpl; [apply sends_ret|].
  change 0%nat with (0 + 0)%nat. apply sends_bind; [|intros _; exact IH].
  sends_zero.
Qed.

Lemma sends_show_items (data : json) (ev : event) (k : page_key)
      (prefix : string) (item : json -> M unit) :
  (forall x, sends_at_most 1 (item x)) ->
  sends_at_most (shown_items data)
    (is_error <- lift (py_in "error" data) ;;
     if is_error then
       _ <- lift (py_getitem data "error") ;; ret tt
     else
       info <- lift (py_get data "info" (JObj [])) ;;
       results <- lift (py_get data "results" (JList [])) ;;
       if py_truthy results then
         items <- lift (py_iter results) ;;
         for_each items item ;;
         pager_controls ev info k prefix
       else ret tt).
Proof.
  intros Hitem.
  apply sends_bind_lift. intros is_error _. destruct is_error.
  { apply (sends_weaken 0); [lia|]. sends_zero. }
  apply sends_bind_lift. intros info _.
  apply sends_bind_lift. intros results Hres.
  destruct (py_truthy results); [|apply (sends_weaken 0); [lia | apply sends_ret]].
  apply sends_bind_lift. intros items Hitems.
  unfold shown_items. rewrite Hres, Hitems.
  replace (List.length items) with (List.length items + 0)%nat by lia.
  apply sends_bind; [apply sends_for_each, Hitem | intros _; apply sends_pager].
Qed.

(** X11.  A run of a list view sends at most one request for the list, and
    then, in the episode and the location views, at most one bulk request
    for each item shown; the character list sends none for its cards. *)
Theorem list_views_send_one_request_per_item :
  forall (up : upstream) (ev : event) (data : json),
    (forall endpoint ps, sends_at_most 1 (api_get up endpoint ps))
    /\ sends_at_most 0 (show_character_reply ev data)
    /\ sends_at_most (shown_items data) (show_episodes_reply up ev data)
    /\ sends_at_most (shown_items data) (show_locations_reply up ev data).
Proof.
  intros up ev data. split; [intros; apply sends_api_get|].
  split; [apply sends_show_character_reply|]. split.
  - apply sends_show_items. apply sends_render_episode_item.
  - apply sends_show_items. apply sends_render_location_item.
Qed.

(** ** Cards and the character list *)

Lemma status_cases (st : json) :
  ((py_truthy st = false \/ exists s, st = JStr s)
   /\ exists l, py_lower (py_or st (JStr "")) = Val l)
  \/ (~ (py_truthy st = false \/ exists s, st = JStr s)
      /\ py_lower (py_or st (JStr "")) = Exc AttributeError).
Proof.
  unfold py_or. destruct (py_truthy st) eqn:T.
  - destruct st; try (right; split; [intros [H|[x H]]; discriminate | reflexivity]).
    left. split; [right; eauto | cbn; eauto].
  - left. split; [now left | cbn; eauto].
Qed.

Lemma origin_cases (o d : json) :
  ((py_truthy o = false \/ exists m, o = JObj m)
   /\ exists v, py_get (py_or o (JObj [])) "name" d = Val v)
  \/ (~ (py_truthy o = false \/ exists m, o = JObj m)
      /\ py_get (py_or o (JObj [])) "name" d = Exc AttributeError).
Proof.
  unfold py_or. destruct (py_truthy o) eqn:T.
  - destruct o; try (right; split; [intros [H|[x H]]; discriminate | reflexivity]).
    left. split; [right; eauto | cbn; eauto].
  - left. split; [now left | cbn; eauto].
Qed.

Lemma card_fields_cases (ch : json) :
  (card_shape ch /\ card_fields ch = Val (card_id ch))
  \/ (~ card_shape ch /\ card_fields ch = Exc AttributeError).
Proof.
  destruct ch as [| b | n | s | l | m];
    try (right; split; [intros (m & H & _); discriminate | reflexivity]).
  unfold card_fields, card_id, py_get, status_class, get_status_color.
  cbn [res_bind]. cbv zeta.
  set (st := match dict_get "status" m with Some v => v | None => JStr "unknown" end).
  set (o := match dict_get "origin" m with Some v => v | None => JNull end).
  fold (py_get (py_or o (JObj [])) "name" (JStr "-")).
  destruct (status_cases st) as [[Hst [l ->]] | [Hst ->]]; cbn [res_bind].
  - destruct (origin_cases o (JStr "-")) as [[Ho [v ->]] | [Ho ->]]; cbn [res_bind].
    + left. split; [exists m; auto | reflexivity].
    + right. split; [|reflexivity].
      intros (m' & [= <-] & _ & Ho'). contradiction.
  - right. split; [|reflexivity].
    intros (m' & [= <-] & Hst' & _). contradiction.
Qed.

(** X12.  A card is shown for a dictionary whose status (when there is one
    that is true) is a string and whose origin (when there is one that is
    true) is a dictionary, every missing field having a default; its button
    is then created under the key "char_btn_" followed by the identifier of
    the character, which Streamlit refuses when the run has created a
    widget under this key before, as for a second card of one character.
    For any other value [render_character_card] raises [AttributeError]. *)
Theorem character_card_renders_once :
  forall (ch : json) (w : world),
    let run := render_character_card ch w in
    let key := card_key (card_id ch) in
    (card_shape ch -> rendered key w = false ->
     run = (Val tt, with_run_keys (key :: run_keys w) w))
    /\ (card_shape ch -> rendered key w = true ->
        run = (Exc StreamlitAPIException, w))
    /\ (~ card_shape ch -> run = (Exc AttributeError, w)).
Proof.
  intros ch w run key. subst run key. unfold render_character_card.
  destruct (card_fields_cases ch) as [[Hshape Hf] | [Hshape Hf]];
    unfold bind, lift; rewrite Hf; unfold keyed_button.
  - split; [|split].
    + intros _ ->. reflexivity.
    + intros _ ->. reflexivity.
    + intros H. contradiction.
  - split; [|split]; try (intros H; contradiction). reflexivity.
Qed.

Lemma character_card_renders_once_witness :
  render_character_card rick (fresh_world initial_session)
  = (Val tt, with_run_keys ["char_btn_1"] (fresh_world initial_session))
  /\ render_character_card
       rick (with_run_keys ["char_btn_1"] (fresh_world initial_session))
     = (Exc StreamlitAPIException,
        with_run_keys ["char_btn_1"] (fresh_world initial_session))
  /\ render_character_card (JList [rick]) (fresh_world initial_session)
     = (Exc AttributeError, fresh_world initial_session).
Proof.
  assert (Hrick : card_shape rick).
  { exists [("id", JNum 1); ("name", JStr "Rick Sanchez");
            ("status", JStr "Alive"); ("species", JStr "Human");
            ("image",
             JStr "https://rickandmortyapi.com/api/character/avatar/1.jpeg");
            ("origin", JObj [("name", JStr "Earth (C-137)")])].
    split; [reflexivity|]. split; right; eexists; reflexivity. }
  split; [|split].
  - destruct (character_card_renders_once rick (fresh_world initial_session))
      as (Hnew & _ & _).
    exact (Hnew Hrick eq_refl).
  - destruct (character_card_renders_once
                rick (with_run_keys ["char_btn_1"] (fresh_world initial_session)))
      as (_ & Htwice & _).
    exact (Htwice Hrick eq_refl).
  - destruct (character_card_renders_once
                (JList [rick]) (fresh_world initial_session))
      as (_ & _ & Hother).
    apply Hother. intros (m & H & _). discriminate.
Defined.

Lemma rendered_cons (key k : string) (ks : list string) (w : world) :
  rendered key (with_run_keys (k :: ks) w)
  = String.eqb key k || rendered key (with_run_keys ks w).
Proof. reflexivity. Qed.

Lemma rendered_app (key : string) (ks ks' : list string) (w : world) :
  rendered key (with_run_keys (ks ++ ks')%list w)
  = rendered key (with_run_keys ks w) || rendered key (with_run_keys ks' w).
Proof. unfold rendered. cbn [run_keys with_run_keys]. apply existsb_app. Qed.

Lemma rendered_false (key : string) (ks : list string) (w : world) :
  rendered key (with_run_keys ks w) = false <-> ~ In key ks.
Proof.
  unfold rendered. cbn [run_keys with_run_keys]. split.
  - intros H Hin. assert (existsb (String.eqb key) ks = true); [|congruence].
    apply existsb_exists. exists key. split; [exact Hin | apply String.eqb_refl].
  - intros H. destruct (existsb (String.eqb key) ks) eqn:E; [|reflexivity].
    apply existsb_exists in E as (k & Hin & Hk).
    apply String.eqb_eq in Hk as <-. contradiction.
Qed.

(** Cards of characters with distinct keys, none of them created before in
    the run, are all shown. *)
Lemma for_each_cards_ok (items : list json) (w : world) :
  Forall card_shape items ->
  NoDup (map (fun ch => card_key (card_id ch)) items) ->
  (forall ch, In ch items -> rendered (card_key (card_id ch)) w = false) ->
  for_each items render_character_card w
  = (Val tt, with_run_keys (card_keys items ++ run_keys w)%list w).
Proof.
  unfold card_keys. revert w.
  induction items as [|ch items IH]; intros w Hshape Hnodup Hfresh.
  - cbn. unfold ret. now destruct w.
  - inversion Hshape as [|? ? Hch Hrest]; subst.
    inversion Hnodup as [|? ? Hnotin Hnodup']; subst.
    cbn [for_each map rev].
    assert (Hcard : render_character_card ch w
                    = (Val tt, with_run_keys (card_key (card_id ch) :: run_keys w) w)).
    { unfold render_character_card.
      destruct (card_fields_cases ch) as [[_ Hf] | [Hn _]]; [|contradiction].
      unfold bind, lift. rewrite Hf. unfold keyed_button.
      now rewrite (Hfresh ch (or_introl eq_refl)). }
    rewrite (bind_val _ _ _ _ _ Hcard).
    rewrite IH; [| exact Hrest | exact Hnodup' |].
    + cbn [run_keys with_run_keys]. rewrite <- app_assoc. reflexivity.
    + intros ch' Hin.
      change (with_run_keys (card_key (card_id ch) :: run_keys w) w)
        with (with_run_keys (card_key (card_id ch) :: run_keys w)
                            (with_run_keys (run_keys w) w)).
      rewrite rendered_cons.
      apply orb_false_iff. split.
      * apply String.eqb_neq. intros E. apply Hnotin.
        rewrite <- E.
        apply (in_map (fun ch => card_key (card_id ch))). exact Hin.
      * replace (with_run_keys (run_keys w) w) with w by now destruct w.
        apply Hfresh. now right.
Qed.

(** X13.  In the character list, when the reply has results whose cards
    can all be shown, under keys that differ from each other and from the
    keys the run has created, and reports [total] pages, a click on Next on
    a page below [total] moves to the next page and asks for a rerun, and on
    the page [total] or beyond it changes no page. *)
Theorem character_list_next_page :
  forall (m info : list (string * json)) (items : list json) (total : Z)
         (w : world),
    dict_get "error" m = None ->
    dict_get "info" m = Some (JObj info) ->
    dict_get "pages" info = Some (JNum total) ->
    dict_get "results" m = Some (JList items) ->
    items <> [] ->
    Forall card_shape items ->
    NoDup (map (fun ch => card_key (card_id ch)) items) ->
    (forall ch, In ch items -> rendered (card_key (card_id ch)) w = false) ->
    let N := char_page (session_state w) in
    let w' := with_run_keys (card_keys items ++ run_keys w)%list w in
    show_character_reply (Clicked "char_bottom-next") (JObj m) w
    = if N <? total
      then (Exc RerunException,
            with_session (with_page char_page_key (N + 1) (session_state w)) w')
      else (Val tt, w').
Proof.
  intros m info items total w Herr Hinfo Hpages Hres Hne Hshape Hnodup Hfresh
         N w'.
  unfold show_character_reply. cbn [py_in py_get]. rewrite Herr, Hinfo, Hres.
  rewrite !bind_lift_val.
  destruct items as [|ch items]; [contradiction|]. cbn [py_truthy py_iter].
  rewrite bind_lift_val.
  rewrite (bind_val _ _ _ _ _ (for_each_cards_ok _ w Hshape Hnodup Hfresh)).
  fold w'.
  unfold pager_controls, bind, get_session, lift, button, set_page, st_rerun,
    raise, py_get.
  rewrite Hpages. cbn. fold N.
  destruct (Z.ltb_spec N total); destruct (Z.geb_spec N total); try lia.
  - cbn. now replace (Z.min total (N + 1)) with (N + 1) by lia.
  - reflexivity.
Qed.

Lemma character_list_next_page_witness :
  show_character_reply
    (Clicked "char_bottom-next")
    (JObj [("info", JObj [("count", JNum 60); ("pages", JNum 3)]);
           ("results", JList [rick])])
    (fresh_world alive_page_2)
  = (Exc RerunException,
     with_session (with_page char_page_key 3 alive_page_2)
                  (with_run_keys ["char_btn_1"] (fresh_world alive_page_2))).
Proof.
  apply (character_list_next_page
           [("info", JObj [("count", JNum 60); ("pages", JNum 3)]);
            ("results", JList [rick])]
           [("count", JNum 60); ("pages", JNum 3)] [rick] 3
           (fresh_world alive_page_2));
    try reflexivity; try discriminate.
  - constructor; [|constructor].
    eexists. split; [reflexivity|]. split; right; eexists; reflexivity.
  - constructor; [intros [] | constructor].
Defined.

(** Two cards of one character: the second button has the key of the first,
    and the run ends there with the exception of Streamlit. *)
Example two_cards_of_one_character :
  show_character_reply
    NoEvent
    (JObj [("info", JObj [("count", JNum 2); ("pages", JNum 1)]);
           ("results", JList [rick; rick])])
    (fresh_world initial_session)
  = (Exc StreamlitAPIException,
     with_run_keys ["char_btn_1"] (fresh_world initial_session)).
Proof. reflexivity. Qed.

(** X14.  In the character list, after a change of any of its four filters
    the request is built with page 1 and the new value of the filter; when
    it is not in the store, it is the one request the run sends. *)
Theorem character_filter_change_requests_page_1 :
  forall (up : upstream) (wd : widget) (v : string) (w : world),
    on_change wd = Some reset_char_page ->
    let s' := with_page char_page_key 1 (with_widget wd v (session_state w)) in
    let ps := view_params Characters s' in
    Cache.get api_key_eqb (now w) ("character", Some ps) (api_cache w) = None ->
    net_log (snd (interact up Characters (TextChanged wd v) w))
    = (net_log w ++ [api_request "character" (Some ps)])%list
    /\ dict_get "page" ps = Some (PInt 1)
    /\ widget_value wd s' = v
    /\ char_page s' = 1.
Proof.
  intros up wd v w Hcb s' ps Hmiss.
  assert (Hs : widget_value wd s' = v /\ char_page s' = 1)
    by (destruct wd; try discriminate; split; reflexivity).
  split; [|split; [apply character_params_page | exact Hs]].
  unfold interact, apply_event. rewrite Hcb.
  unfold reset_char_page.
  set (w' := with_session s' w).
  assert (Hrun : forall k : unit -> M unit,
             bind (bind (fun w0 => (Val tt, with_session (with_widget wd v (session_state w0)) w0))
                        (fun _ => set_page char_page_key 1)) k w = k tt w')
    by reflexivity.
  rewrite Hrun. cbn [render]. rewrite render_character_list_eq.
  change (session_state w') with s'. fold ps.
  set (wk := with_run_keys (view_keys Characters ++ run_keys w')%list w').
  unfold bind at 1.
  assert (Hfirst : net_log (snd (api_get up "character" (Some ps) wk))
                   = (net_log w ++ [api_request "character" (Some ps)])%list).
  { subst wk. rewrite api_get_keys. cbn [snd net_log with_run_keys].
    rewrite api_get_miss by exact Hmiss. cbn zeta.
    destruct (up _ _) as [msg|r]; [reflexivity|].
    destruct (status_code r =? 200); [|reflexivity].
    destruct (body r); reflexivity. }
  destruct (api_get up "character" (Some ps) wk) as [[data|e] w1];
    cbn [snd] in *; [|exact Hfirst].
  destruct (sends_show_character_reply (TextChanged wd v) data w1)
    as (sent' & Hlog' & Hlen').
  destruct sent'; [|cbn in Hlen'; lia].
  rewrite Hlog', app_nil_r. exact Hfirst.
Qed.

Lemma character_filter_change_requests_page_1_witness :
  net_log (snd (interact (always not_found) Characters
                         (TextChanged W_q_name "rick")
                         (fresh_world alive_page_2)))
  = [api_request "character"
       (Some [("page", PInt 1); ("name", PStr "rick"); ("status", PStr "alive")])].
Proof.
  destruct (character_filter_change_requests_page_1
              (always not_found) W_q_name "rick" (fresh_world alive_page_2))
    as [Hlog _]; [reflexivity | reflexivity | exact Hlog].
Defined.

(** ** Theme and navigation *)

(** X15.  [toggle_theme] always leaves the theme dark or light and touches
    nothing else; from dark or light, toggling twice gives the state back. *)
Theorem toggle_theme_twice :
  forall n : nav,
    (theme (toggle_theme n) = "dark" \/ theme (toggle_theme n) = "light")
    /\ page_view (toggle_theme n) = page_view n
    /\ selected_char_id (toggle_theme n) = selected_char_id n
    /\ (theme n = "dark" \/ theme n = "light" ->
        toggle_theme (toggle_theme n) = n).
Proof.
  intros [pv sel th]. unfold toggle_theme. cbn.
  destruct (String.eqb_spec th "dark") as [->|Hd]; cbn.
  - repeat split; auto.
  - repeat split; auto. intros [-> | ->]; [contradiction | reflexivity].
Qed.

(** ** The detail page *)

Lemma calm_py_len (j : json) : calm (py_len j).
Proof. destruct j; reflexivity. Qed.

#[local] Hint Resolve calm_py_len : calm.

Lemma quiet_show_character_detail (up : upstream) (data : json) :
  quiet (show_character_detail up data).
Proof.
  unfold show_character_detail.
  apply quiet_bind; [apply quiet_lift; auto with calm | intros is_error].
  destruct is_error; [apply quiet_ret|].
  repeat (apply quiet_bind; [apply quiet_lift; auto with calm | intros ?]).
  match goal with |- quiet (if ?b then _ else _) => destruct b end;
    [|apply quiet_ret].
  repeat (apply quiet_bind; [apply quiet_lift; auto with calm | intros ?]).
  apply quiet_bind; [apply quiet_fetch_multiple | intros episodes].
  apply quiet_for_each. intros ep. repeat quiet_step.
Qed.

Lemma sends_show_character_detail (up : upstream) (data : json) :
  sends_at_most 1 (show_character_detail up data).
Proof.
  unfold show_character_detail.
  apply sends_bind_lift. intros is_error _.
  destruct is_error; [apply (sends_weaken 0); [lia | apply sends_ret]|].
  repeat (apply sends_bind_lift; intros ? _).
  match goal with |- sends_at_most _ (if ?b then _ else _) => destruct b end;
    [|apply (sends_weaken 0); [lia | apply sends_ret]].
  repeat (apply sends_bind_lift; intros ? _).
  change 1%nat with (1 + 0)%nat.
  apply sends_bind; [apply sends_fetch_multiple | intros episodes].
  induction episodes as [|ep episodes IH]; simpl; [apply sends_ret|].
  change 0%nat with (0 + 0)%nat. apply sends_bind; [|intros _; exact IH].
  sends_zero.
Qed.

(** X16.  What the detail page shows of a reply never asks for a rerun and
    never changes a page cursor or a filter, and it sends at most one
    request, the bulk request for the episodes; for an error reply it does
    nothing at all. *)
Theorem character_detail_is_quiet :
  forall (up : upstream) (data : json) (w : world),
    let run := show_character_detail up data w in
    fst run <> Exc RerunException
    /\ session_state (snd run) = session_state w
    /\ (exists sent, net_log (snd run) = (net_log w ++ sent)%list
                     /\ (List.length sent <= 1)%nat)
    /\ (is_error_reply data = true -> run = (Val tt, w)).
Proof.
  intros up data w run. subst run.
  destruct (quiet_show_character_detail up data w) as [Hr Hs].
  split; [now apply reruns_false|]. split; [exact Hs|].
  split; [apply sends_show_character_detail|].
  destruct data as [| | | | |m]; try discriminate. cbn.
  unfold show_character_detail. cbn [py_in].
  destruct (dict_get "error" m); [reflexivity | discriminate].
Qed.

(** ** The script *)

Lemma app_quiet_ret {A : Type} (a : A) : app_quiet (app_ret a).
Proof. intros s. now repeat split. Qed.

Lemma app_quiet_lift {A : Type} (m : M A) : quiet m -> app_quiet (app_lift m).
Proof.
  intros Hm s. unfold app_lift. destruct (Hm (app_world s)) as [Hr Hs].
  destruct (m (app_world s)) as [r w]. now repeat split.
Qed.

Lemma app_quiet_bind {A B : Type} (m : App A) (k : A -> App B) :
  app_quiet m -> (forall a, app_quiet (k a)) -> app_quiet (app_bind m k).
Proof.
  intros Hm Hk s. unfold app_bind. destruct (Hm s) as (Hr & Hn & Hs).
  destruct (m s) as [[a|e] s']; cbn [fst snd] in *.
  - destruct (Hk a s') as (Hr' & Hn' & Hs'). repeat split; congruence.
  - now repeat split.
Qed.

Lemma app_quiet_get_nav : app_quiet get_nav.
Proof. intros s. now repeat split. Qed.

Lemma bind_exc {A B : Type} (m : M A) (k : A -> M B) (w w' : world) (e : exn) :
  m w = (Exc e, w') -> bind m k w = (Exc e, w').
Proof. intros H. unfold bind. now rewrite H. Qed.

(** Without a click on Back, the detail page is quiet. *)
Lemma app_quiet_detail_page (up : upstream) (aev : app_event) (char_id : Z) :
  back_clicked aev = false ->
  app_quiet (render_character_detail_page up aev char_id).
Proof.
  intros Hb. unfold render_character_detail_page. rewrite Hb.
  apply app_quiet_bind; [apply app_quiet_lift, quiet_api_get | intros data].
  apply app_quiet_bind; [apply app_quiet_ret | intros _].
  apply app_quiet_lift, quiet_show_character_detail.
Qed.

(** A run of the character list without an event either is quiet, or has
    found an error reply on a page other than 1, has put the page to 1 and
    asks for a rerun. *)
Lemma character_list_no_event (up : upstream) (w : world) :
  let run := render_character_list up NoEvent w in
  (reruns (fst run) = false /\ session_state (snd run) = session_state w)
  \/ (fst run = Exc RerunException
      /\ char_page (session_state w) <> 1
      /\ session_state (snd run) = with_page char_page_key 1 (session_state w)).
Proof.
  intros run. subst run. rewrite render_character_list_eq.
  set (ps := view_params Characters (session_state w)).
  set (wk := with_run_keys (view_keys Characters ++ run_keys w)%list w).
  assert (Hwk : session_state wk = session_state w) by reflexivity.
  destruct (quiet_api_get up "character" (Some ps) wk) as [Hr Hs].
  destruct (api_get up "character" (Some ps) wk) as [[data|e] w1] eqn:Eget;
    cbn [fst snd] in *.
  2:{ rewrite (bind_exc _ _ _ _ _ Eget). left. cbn [fst snd].
      split; [exact Hr | congruence]. }
  rewrite (bind_val _ _ _ _ _ Eget).
  destruct (is_error_reply data) eqn:Herr.
  - destruct data as [| | | | |m]; try discriminate. cbn in Herr.
    unfold show_character_reply. cbn [py_in py_getitem].
    destruct (dict_get "error" m) as [x|]; [|discriminate].
    rewrite !bind_lift_val, bind_get_session, Hs, Hwk.
    destruct (Z.eqb_spec (char_page (session_state w)) 1) as [E|E]; cbn [negb].
    + left. cbn. split; [reflexivity | congruence].
    + right. unfold bind, set_page, st_rerun, raise. cbn. now rewrite Hs, Hwk.
  - left. destruct (quiet_show_character_reply data Herr w1) as [Hr' Hs'].
    split; [exact Hr' | congruence].
Qed.

Lemma script_eq (up : upstream) (aev : app_event) (s : app) :
  script up aev s
  = match render_characters_tab up aev s with
    | (Val _, s1) =>
        app_bind (app_lift (render_episodes up (list_event aev)))
                 (fun _ => app_lift (render_locations up (list_event aev))) s1
    | (Exc e, s1) => (Exc e, s1)
    end.
Proof. reflexivity. Qed.

Lemma render_characters_tab_eq (up : upstream) (aev : app_event) (s : app) :
  render_characters_tab up aev s
  = match selected_char_id (app_nav s) with
    | Some char_id =>
        if String.eqb (page_view (app_nav s)) "Character_Detail"
        then render_character_detail_page up aev char_id s
        else app_lift (render_character_list up (list_event aev)) s
    | None => app_lift (render_character_list up (list_event aev)) s
    end.
Proof.
  unfold render_characters_tab, app_bind, get_nav.
  destruct (selected_char_id (app_nav s)); [|reflexivity].
  destruct (String.eqb (page_view (app_nav s)) "Character_Detail"); reflexivity.
Qed.

(** Without an interaction, the episode and the location tab ask for no
    rerun and keep the navigation keys. *)
Lemma other_tabs_no_event (up : upstream) (s : app) :
  let run := app_bind (app_lift (render_episodes up NoEvent))
                      (fun _ => app_lift (render_locations up NoEvent)) s in
  reruns (fst run) = false /\ app_nav (snd run) = app_nav s.
Proof.
  cbv zeta. unfold app_bind, app_lift.
  destruct (render_episodes_no_event up (app_world s)) as [Hr _].
  destruct (render_episodes up NoEvent (app_world s)) as [[u|e] w1];
    cbn [fst snd app_nav app_world] in *; [|now split].
  destruct (render_locations_no_event up w1) as [Hr' _].
  destruct (render_locations up NoEvent w1) as [r w2].
  cbn [fst snd app_nav] in *. now split.
Qed.

(** A run of the script without a list event and without a click on Back
    keeps the navigation keys, and asks for a rerun only when it has reset
    the character page from another page to 1. *)
Lemma script_no_list_event (up : upstream) (aev : app_event) (s : app) :
  list_event aev = NoEvent -> back_clicked aev = false ->
  let run := script up aev s in
  app_nav (snd run) = app_nav s
  /\ (reruns (fst run) = false
      \/ (fst run = Exc RerunException
          /\ char_page (session_state (app_world s)) <> 1
          /\ char_page (session_state (app_world (snd run))) = 1)).
Proof.
  intros Hev Hb run. subst run. rewrite script_eq, Hev.
  assert (Htab :
    let tab := render_characters_tab up aev s in
    app_nav (snd tab) = app_nav s
    /\ (reruns (fst tab) = false
        \/ (fst tab = Exc RerunException
            /\ char_page (session_state (app_world s)) <> 1
            /\ char_page (session_state (app_world (snd tab))) = 1))).
  { cbv zeta. rewrite render_characters_tab_eq.
    assert (Hlist :
      let tab := app_lift (render_character_list up (list_event aev)) s in
      app_nav (snd tab) = app_nav s
      /\ (reruns (fst tab) = false
          \/ (fst tab = Exc RerunException
              /\ char_page (session_state (app_world s)) <> 1
              /\ char_page (session_state (app_world (snd tab))) = 1))).
    { cbv zeta. rewrite Hev. unfold app_lift.
      pose proof (character_list_no_event up (app_world s)) as H. cbv zeta in H.
      destruct (render_character_list up NoEvent (app_world s)) as [r w].
      cbn [fst snd app_nav app_world] in *. split; [reflexivity|].
      destruct H as [[Hr Hs] | (Hr & Hp & Hs)]; [now left | right].
      split; [exact Hr | split; [exact Hp | now rewrite Hs]]. }
    destruct (selected_char_id (app_nav s)) as [char_id|]; [|exact Hlist].
    destruct (String.eqb (page_view (app_nav s)) "Character_Detail");
      [|exact Hlist].
    destruct (app_quiet_detail_page up aev char_id Hb s) as (Hr & Hn & Hs).
    split; [exact Hn | now left]. }
  cbv zeta in Htab.
  destruct (render_characters_tab up aev s) as [[u|e] s1];
    cbn [fst snd] in *.
  - destruct Htab as [Hn _].
    destruct (other_tabs_no_event up s1) as (Hr' & Hn').
    split; [congruence | now left].
  - exact Htab.
Qed.

(** *** Runs and reruns *)

Lemma run_script_eq (up : upstream) (aev : app_event) (s : app) :
  run_script up aev s
  = finish_run
      match apply_app_event aev (mkApp (app_nav s) (new_run (app_world s))) with
      | (Val _, s') => script up aev s'
      | (Exc e, s') => (Exc e, s')
      end.
Proof. reflexivity. Qed.

Lemma finish_run_fst (r : res unit * app) : fst (finish_run r) = fst r.
Proof. destruct r as [[u|e] s]; [reflexivity | destruct e; reflexivity]. Qed.

Lemma finish_run_nav (r : res unit * app) :
  app_nav (snd (finish_run r)) = app_nav (snd r).
Proof. destruct r as [[u|e] s]; [reflexivity | destruct e; reflexivity]. Qed.

Lemma finish_run_char_page (r : res unit * app) :
  char_page (session_state (app_world (snd (finish_run r))))
  = char_page (session_state (app_world (snd r))).
Proof. destruct r as [[u|e] s]; [reflexivity | destruct e; reflexivity]. Qed.

(** An exception other than the request for a rerun ends the run as it
    is. *)
Lemma finish_run_exception (e : exn) (s : app) :
  is_Exception e = true -> finish_run (Exc e, s) = (Exc e, s).
Proof. destruct e; try reflexivity. discriminate. Qed.

(** A run without an interaction asks for a rerun only when it has reset
    the character page from another page to 1. *)
Lemma run_no_event (up : upstream) (s : app) :
  let run := run_script up (ListEvent NoEvent) s in
  reruns (fst run) = false
  \/ (fst run = Exc RerunException
      /\ char_page (session_state (app_world s)) <> 1
      /\ char_page (session_state (app_world (snd run))) = 1).
Proof.
  cbv zeta. rewrite run_script_eq. cbn [apply_app_event apply_event app_lift ret].
  rewrite finish_run_fst, finish_run_char_page.
  destruct (script_no_list_event
              up (ListEvent NoEvent)
              (mkApp (app_nav s) (new_run (app_world s))) eq_refl eq_refl)
    as [_ [Hr | (Hr & Hne & Hp)]]; [now left | right].
  split; [exact Hr | split; [exact Hne | exact Hp]].
Qed.

Lemma settle_done (up : upstream) (fuel : nat) (r : res unit * app) :
  reruns (fst r) = false -> settle up fuel r = r.
Proof.
  intros H. destruct fuel; [reflexivity|]. destruct r as [[u|e] s]; [reflexivity|].
  destruct e; try reflexivity. discriminate.
Qed.

Lemma settle_rerun (up : upstream) (fuel : nat) (s : app) :
  settle up (S fuel) (Exc RerunException, s)
  = settle up fuel (run_script up (ListEvent NoEvent) s).
Proof. reflexivity. Qed.

(** X17.  The script never keeps rerunning itself: after a run for any
    interaction, at most two reruns follow, whatever the upstream answers. *)
Theorem reruns_settle_after_two :
  forall (up : upstream) (aev : app_event) (s : app),
    reruns (fst (settle up 2 (run_script up aev s))) = false.
Proof.
  intros up aev s.
  destruct (run_script up aev s) as [r1 s1].
  destruct (reruns r1) eqn:E1; [|now rewrite settle_done].
  destruct r1 as [u|e]; [discriminate|]. destruct e; try discriminate.
  rewrite settle_rerun.
  destruct (run_no_event up s1) as [Hr | (Hr & _ & Hp)].
  - rewrite settle_done by exact Hr. exact Hr.
  - destruct (run_script up (ListEvent NoEvent) s1) as [r2 s2].
    cbn [fst snd] in *. subst r2. rewrite settle_rerun. cbn [settle].
    destruct (run_no_event up s2) as [Hr | (_ & Hne & _)];
      [exact Hr | contradiction].
Qed.

Lemma detail_tab (up : upstream) (aev : app_event) (s : app) (char_id : Z) :
  page_view (app_nav s) = "Character_Detail" ->
  selected_char_id (app_nav s) = Some char_id ->
  render_characters_tab up aev s = render_character_detail_page up aev char_id s.
Proof.
  intros Hv Hsel. rewrite render_characters_tab_eq. now rewrite Hv, Hsel.
Qed.

Lemma api_get_new_run (up : upstream) (endpoint : string) (ps : option params)
      (w : world) (r : res json) (w1 : world) :
  api_get up endpoint ps (new_run w) = (r, w1) ->
  run_keys w1 = [] /\ session_state w1 = session_state w.
Proof.
  unfold new_run. rewrite api_get_keys. intros [= _ <-].
  split; [reflexivity|]. apply (quiet_api_get up endpoint ps w).
Qed.

(** X18.  The way back from a detail page: when the fetch of the character
    returns, a click on Back puts the list view back, with no character
    selected, and asks for a rerun before the run has created any filter or
    page widget, so Streamlit forgets what it held for all of them.  The
    page cursors are kept: the character list is next requested with its
    page alone, without the filters it had before the visit. *)
Theorem back_forgets_the_filters :
  forall (up : upstream) (char_id : Z) (s : app) (data : json) (w1 : world),
    page_view (app_nav s) = "Character_Detail" ->
    selected_char_id (app_nav s) = Some char_id ->
    api_get up ("character/" ++ PyStr.of_int char_id) None (new_run (app_world s))
    = (Val data, w1) ->
    let run := run_script up BackToCharacters s in
    let before := session_state (app_world s) in
    let after := session_state (app_world (snd run)) in
    fst run = Exc RerunException
    /\ app_nav (snd run) = mkNav "Characters" None (theme (app_nav s))
    /\ (forall k, page k after = page k before)
    /\ (forall wd, widget_value wd after = "")
    /\ (forall nw, number_held nw after = None)
    /\ view_params Characters after = [("page", PInt (char_page before))].
Proof.
  intros up char_id s data w1 Hv Hsel Hget run before after.
  destruct (api_get_new_run _ _ _ _ _ _ Hget) as [Hkeys Hs1].
  assert (Hrun : run = (Exc RerunException,
                        mkApp (mkNav "Characters" None (theme (app_nav s)))
                              (forget_unrendered w1))).
  { subst run. rewrite run_script_eq. cbn [apply_app_event app_ret].
    rewrite script_eq.
    rewrite (detail_tab up BackToCharacters _ char_id) by assumption.
    unfold render_character_detail_page, app_bind, app_lift.
    cbn [app_world app_nav]. rewrite Hget. reflexivity. }
  subst after. rewrite Hrun. cbn [fst snd app_nav app_world].
  unfold forget_unrendered, rendered. rewrite Hkeys. cbn [existsb].
  cbn [session_state with_session]. fold before in Hs1. rewrite Hs1.
  repeat split; intros x; destruct x; reflexivity.
Qed.

Lemma back_forgets_the_filters_witness :
  fst (run_script (always (answers rick)) BackToCharacters
                  (mkApp (mkNav "Character_Detail" (Some 1) "dark")
                         (fresh_world alive_page_2)))
  = Exc RerunException
  /\ view_params Characters alive_page_2
     = [("page", PInt 2); ("status", PStr "alive")]
  /\ view_params Characters
       (session_state
          (app_world
             (snd (run_script (always (answers rick)) BackToCharacters
                              (mkApp (mkNav "Character_Detail" (Some 1) "dark")
                                     (fresh_world alive_page_2))))))
     = [("page", PInt 2)].
Proof.
  destruct (back_forgets_the_filters
              (always (answers rick)) 1
              (mkApp (mkNav "Character_Detail" (Some 1) "dark")
                     (fresh_world alive_page_2))
              rick
              (snd (api_get (always (answers rick)) "character/1" None
                            (new_run (fresh_world alive_page_2)))))
    as (Hrerun & _ & _ & _ & _ & Hparams); try reflexivity.
  split; [exact Hrerun | split; [reflexivity | exact Hparams]].
Defined.

(** X19.  The Back button is read after the fetch of the character: when
    that fetch raises, a click on Back is lost, the exception ends the run
    and the detail page stays selected. *)
Theorem back_is_lost_when_the_fetch_raises :
  forall (up : upstream) (char_id : Z) (s : app) (e : exn) (w1 : world),
    page_view (app_nav s) = "Character_Detail" ->
    selected_char_id (app_nav s) = Some char_id ->
    api_get up ("character/" ++ PyStr.of_int char_id) None (new_run (app_world s))
    = (Exc e, w1) ->
    run_script up BackToCharacters s = (Exc e, mkApp (app_nav s) w1).
Proof.
  intros up char_id s e w1 Hv Hsel Hget.
  rewrite run_script_eq. cbn [apply_app_event app_ret].
  rewrite script_eq, (detail_tab up BackToCharacters _ char_id) by assumption.
  unfold render_character_detail_page, app_bind, app_lift.
  cbn [app_world app_nav]. rewrite Hget.
  apply finish_run_exception.
  destruct (quiet_api_get up ("character/" ++ PyStr.of_int char_id) None
                          (new_run (app_world s))) as [Hr _].
  rewrite Hget in Hr. cbn in Hr. now destruct e.
Qed.

Lemma back_is_lost_when_the_fetch_raises_witness :
  run_script (always timed_out) BackToCharacters
             (mkApp (mkNav "Character_Detail" (Some 1) "dark")
                    (fresh_world initial_session))
  = (Exc (RequestException "Read timed out."),
     mkApp (mkNav "Character_Detail" (Some 1) "dark")
           (with_net_log [api_request "character/1" None]
                         (fresh_world initial_session))).
Proof.
  apply (back_is_lost_when_the_fetch_raises
           (always timed_out) 1
           (mkApp (mkNav "Character_Detail" (Some 1) "dark")
                  (fresh_world initial_session))
           (RequestException "Read timed out.")
           (with_net_log [api_request "character/1" None]
                         (fresh_world initial_session)));
    reflexivity.
Defined.

(** X20.  A failure of the character request is not confined to its tab:
    when the list is shown and the request of the character list fails in
    transport, the run of the script ends with that exception after this
    one request, and the episode and location tabs are not rendered. *)
Theorem transport_failure_ends_the_run :
  forall (up : upstream) (s : app) (msg : string),
    selected_char_id (app_nav s) = None ->
    let w := app_world s in
    let ps := view_params Characters (session_state w) in
    Cache.get api_key_eqb (now w) ("character", Some ps) (api_cache w) = None ->
    up (List.length (net_log w)) (api_request "character" (Some ps)) = Fails msg ->
    script up (ListEvent NoEvent) s
    = (Exc (RequestException msg),
       mkApp (app_nav s)
             (with_run_keys
                (view_keys Characters ++ run_keys w)%list
                (with_net_log (net_log w ++ [api_request "character" (Some ps)])%list
                              w))).
Proof.
  intros up s msg Hsel w ps Hmiss Hup.
  rewrite script_eq, render_characters_tab_eq, Hsel.
  unfold app_lift. cbn [list_event]. rewrite render_character_list_eq.
  fold w. fold ps.
  assert (Hget : api_get up "character" (Some ps) w
                 = (Exc (RequestException msg),
                    with_net_log (net_log w ++ [api_request "character" (Some ps)])%list w)).
  { rewrite api_get_miss by exact Hmiss. cbn zeta. now rewrite Hup. }
  assert (Hget' : api_get up "character" (Some ps)
                          (with_run_keys (view_keys Characters ++ run_keys w)%list w)
                  = (Exc (RequestException msg),
                     with_run_keys
                       (view_keys Characters ++ run_keys w)%list
                       (with_net_log
                          (net_log w ++ [api_request "character" (Some ps)])%list w)))
    by (now rewrite api_get_keys, Hget).
  now rewrite (bind_exc _ _ _ _ _ Hget').
Qed.

Lemma transport_failure_ends_the_run_witness :
  script (always timed_out) (ListEvent NoEvent)
         (mkApp initial_nav (fresh_world initial_session))
  = (Exc (RequestException "Read timed out."),
     mkApp initial_nav
           (with_run_keys
              ["q_gender"; "q_species"; "q_status"; "q_name"]
              (with_net_log [api_request "character" (Some [("page", PInt 1)])]
                            (fresh_world initial_session)))).
Proof.
  apply (transport_failure_ends_the_run
           (always timed_out) (mkApp initial_nav (fresh_world initial_session))
           "Read timed out."); reflexivity.
Defined.

(** ** Invariants of a session *)

Section Invariant.
Variable up : upstream.
Variable P : world -> Prop.
Hypothesis P_request :
  forall x ps, keeps P (requests_get up (BASE ++ x) ps 20).
Hypothesis P_api_get : forall endpoint ps, keeps P (api_get up endpoint ps).
Hypothesis P_fm_store : forall c w, P w -> P (with_fm_cache c w).
Hypothesis P_page : forall k n, 1 <= n -> keeps P (set_page k n).
Hypothesis P_pager :
  forall ev info k prefix, keeps P (pager_controls ev info k prefix).
Hypothesis P_widget :
  forall wd v w, P w -> P (with_session (with_widget wd v (session_state w)) w).
Hypothesis P_keys : forall ks w, P w -> P (with_run_keys ks w).
Hypothesis P_number : forall nw n, 1 <= n -> keeps P (set_number nw (Some n)).
Hypothesis P_number_input :
  forall nw lo v, 1 <= lo -> keeps P (number_input nw lo v).
Hypothesis P_number_page :
  forall nw lo v k n w w',
    1 <= lo -> P w -> number_input nw lo v w = (Val n, w') ->
    keeps P (set_page k n).
Hypothesis P_forget : forall w, P w -> P (forget_unrendered w).

Lemma keeps_ret {A : Type} (a : A) : keeps P (ret a).
Proof. intros w H. exact H. Qed.

Lemma keeps_raise {A : Type} (e : exn) : keeps P (@raise A e).
Proof. intros w H. exact H. Qed.

Lemma keeps_lift {A : Type} (r : res A) : keeps P (lift r).
Proof. intros w H. exact H. Qed.

Lemma keeps_get_session : keeps P get_session.
Proof. intros w H. exact H. Qed.

Lemma keeps_bind {A B : Type} (m : M A) (k : A -> M B) :
  keeps P m -> (forall a, keeps P (k a)) -> keeps P (bind m k).
Proof.
  intros Hm Hk w Hw. unfold bind. specialize (Hm w Hw).
  destruct (m w) as [[a|e] w']; cbn [snd] in *; [apply Hk, Hm | exact Hm].
Qed.

(** The continuation may use that its argument is a value [m] gave in a
    world with the property. *)
Lemma keeps_bind_value {A B : Type} (m : M A) (k : A -> M B) :
  keeps P m ->
  (forall a, (exists w w', P w /\ m w = (Val a, w')) -> keeps P (k a)) ->
  keeps P (bind m k).
Proof.
  intros Hm Hk w Hw. unfold bind. pose proof (Hm w Hw) as Hw'.
  destruct (m w) as [[a|e] w'] eqn:E; cbn [snd] in *; [|exact Hw'].
  apply (Hk a); [now exists w, w' | exact Hw'].
Qed.

Lemma keeps_created (key : string) : keeps P (created key).
Proof. intros w Hw. apply P_keys, Hw. Qed.

Lemma keeps_keyed_button (key : string) : keeps P (keyed_button key).
Proof.
  intros w Hw. unfold keyed_button.
  destruct (rendered key w); [exact Hw | apply P_keys, Hw].
Qed.

Lemma keeps_for_each {A : Type} (l : list A) (body : A -> M unit) :
  (forall a, keeps P (body a)) -> keeps P (for_each l body).
Proof.
  intros Hb. induction l as [|a l IH]; simpl; [apply keeps_ret|].
  apply keeps_bind; [apply Hb | intros _; exact IH].
Qed.

Lemma keeps_try_except {A : Type} (m : M A) (h : exn -> M A) :
  keeps P m -> (forall e, keeps P (h e)) -> keeps P (try_except m h).
Proof.
  intros Hm Hh w Hw. unfold try_except. specialize (Hm w Hw).
  destruct (m w) as [[a|e] w']; cbn [snd] in *; [exact Hm|].
  destruct (is_Exception e); [apply Hh, Hm | exact Hm].
Qed.

Ltac keeps_step :=
  first
    [ apply keeps_ret
    | apply keeps_raise
    | apply keeps_lift
    | apply keeps_get_session
    | apply keeps_created
    | apply keeps_keyed_button
    | apply P_api_get
    | apply P_pager
    | apply P_request
    | apply keeps_for_each; intros ?
    | apply keeps_try_except; [|intros ?]
    | apply keeps_bind; [|intros ?]
    | match goal with
      | |- keeps P (if ?b then _ else _) => destruct b
      | |- keeps P (match ?x with Some _ => _ | None => _ end) => destruct x
      end ].

Lemma keeps_fetch_multiple (urls : list string) (limit : Z) :
  keeps P (fetch_multiple up urls limit).
Proof.
  intros w Hw. unfold fetch_multiple, cache_data.
  destruct (Cache.get fm_key_eqb (now w) (urls, limit) (fm_cache w))
    as [[v c]|]; [apply P_fm_store, Hw|].
  assert (Hbody : keeps P (fetch_multiple_wrapped up urls limit)).
  { unfold fetch_multiple_wrapped.
    destruct (fm_ids urls); [apply keeps_ret|].
    destruct urls as [|u0 rest]; [apply keeps_raise|].
    cbv zeta. unfold r_json. repeat keeps_step. }
  specialize (Hbody w Hw).
  destruct (fetch_multiple_wrapped up urls limit w) as [[l|e] w'];
    cbn [snd] in *; [apply P_fm_store, Hbody | exact Hbody].
Qed.

Lemma keeps_render_character_card (ch : json) :
  keeps P (render_character_card ch).
Proof. unfold render_character_card. repeat keeps_step. Qed.

Lemma keeps_text_input (wd : widget) : keeps P (text_input wd).
Proof. unfold text_input. repeat keeps_step. Qed.

Lemma keeps_show_character_reply (ev : event) (data : json) :
  keeps P (show_character_reply ev data).
Proof.
  unfold show_character_reply, st_rerun.
  repeat first [apply P_page; lia | apply keeps_render_character_card
               | keeps_step].
Qed.

Lemma keeps_render_character_list (ev : event) :
  keeps P (render_character_list up ev).
Proof.
  unfold render_character_list.
  repeat first [apply keeps_show_character_reply | apply keeps_text_input
               | keeps_step].
Qed.

Lemma keeps_render_episode_item (ep : json) : keeps P (render_episode_item up ep).
Proof.
  unfold render_episode_item.
  repeat first [apply keeps_fetch_multiple | keeps_step].
Qed.

Lemma keeps_render_location_item (loc : json) :
  keeps P (render_location_item up loc).
Proof.
  unfold render_location_item.
  repeat first [apply keeps_fetch_multiple | keeps_step].
Qed.

Lemma keeps_show_episodes_reply (ev : event) (data : json) :
  keeps P (show_episodes_reply up ev data).
Proof.
  unfold show_episodes_reply.
  repeat first [apply keeps_render_episode_item | keeps_step].
Qed.

Lemma keeps_show_locations_reply (ev : event) (data : json) :
  keeps P (show_locations_reply up ev data).
Proof.
  unfold show_locations_reply.
  repeat first [apply keeps_render_location_item | keeps_step].
Qed.

Lemma keeps_render_episodes (ev : event) : keeps P (render_episodes up ev).
Proof.
  unfold render_episodes.
  do 3 (apply keeps_bind; [first [apply keeps_text_input | keeps_step] | intros ?]).
  apply keeps_bind_value;
    [apply P_number_input; lia | intros n (w & w' & Hw & Hn)].
  apply keeps_bind;
    [refine (P_number_page _ 1 _ _ _ _ _ _ Hw Hn); lia | intros _].
  repeat first [apply keeps_show_episodes_reply | keeps_step].
Qed.

Lemma keeps_render_locations (ev : event) : keeps P (render_locations up ev).
Proof.
  unfold render_locations.
  do 3 (apply keeps_bind; [first [apply keeps_text_input | keeps_step] | intros ?]).
  apply keeps_bind_value;
    [apply P_number_input; lia | intros n (w & w' & Hw & Hn)].
  apply keeps_bind;
    [refine (P_number_page _ 1 _ _ _ _ _ _ Hw Hn); lia | intros _].
  repeat first [apply keeps_show_locations_reply | keeps_step].
Qed.

Lemma keeps_show_character_detail (data : json) :
  keeps P (show_character_detail up data).
Proof.
  unfold show_character_detail.
  repeat first [apply keeps_fetch_multiple | keeps_step].
Qed.

Lemma keeps_apply_event (ev : event) : keeps P (apply_event ev).
Proof.
  unfold apply_event. destruct ev; try apply keeps_ret.
  - apply keeps_bind; [intros w Hw; apply P_widget, Hw | intros _].
    destruct (on_change wd) eqn:E; [|apply keeps_ret].
    destruct wd; try discriminate; injection E as <-; apply P_page; lia.
  - destruct (number_widget_of_key key) as [nw|]; [|apply keeps_ret].
    unfold number_min. destruct (Z.leb_spec 1 n); [|apply keeps_ret].
    now apply P_number.
Qed.

Lemma app_keeps_lift {A : Type} (m : M A) : keeps P m -> app_keeps P (app_lift m).
Proof.
  intros Hm s Hs. unfold app_lift. specialize (Hm _ Hs).
  now destruct (m (app_world s)).
Qed.

Lemma app_keeps_bind {A B : Type} (m : App A) (k : A -> App B) :
  app_keeps P m -> (forall a, app_keeps P (k a)) -> app_keeps P (app_bind m k).
Proof.
  intros Hm Hk s Hs. unfold app_bind. specialize (Hm s Hs).
  destruct (m s) as [[a|e] s']; cbn [snd] in *; [apply Hk, Hm | exact Hm].
Qed.

Lemma app_keeps_nav {A : Type} (m : App A) :
  (forall s, app_world (snd (m s)) = app_world s) -> app_keeps P m.
Proof. intros H s Hs. now rewrite H. Qed.

Lemma app_keeps_script (aev : app_event) : app_keeps P (script up aev).
Proof.
  unfold script.
  apply app_keeps_bind; [|intros _; apply app_keeps_bind;
                           [apply app_keeps_lift, keeps_render_episodes
                           |intros _; apply app_keeps_lift, keeps_render_locations]].
  unfold render_characters_tab.
  apply app_keeps_bind; [now apply app_keeps_nav | intros n].
  destruct (selected_char_id n);
    [|apply app_keeps_lift, keeps_render_character_list].
  destruct (String.eqb (page_view n) "Character_Detail");
    [|apply app_keeps_lift, keeps_render_character_list].
  unfold render_character_detail_page.
  apply app_keeps_bind; [apply app_keeps_lift, P_api_get | intros data].
  apply app_keeps_bind; [|intros _; apply app_keeps_lift, keeps_show_character_detail].
  destruct (back_clicked aev); [|now apply app_keeps_nav].
  apply app_keeps_bind; [now apply app_keeps_nav | intros _].
  apply app_keeps_lift. intros w Hw. exact Hw.
Qed.

Lemma keeps_finish_run (r : res unit * app) :
  P (app_world (snd r)) -> P (app_world (snd (finish_run r))).
Proof.
  destruct r as [[u|e] s]; cbn [snd]; intros Hr;
    [apply P_forget, Hr | destruct e; try exact Hr; apply P_forget, Hr].
Qed.

Lemma app_keeps_run_script (aev : app_event) : app_keeps P (run_script up aev).
Proof.
  intros s Hs. unfold run_script. apply keeps_finish_run.
  revert s Hs. change (app_keeps P (app_bind start_run (fun _ =>
                         app_bind (apply_app_event aev) (fun _ => script up aev)))).
  apply app_keeps_bind; [intros s Hs; apply P_keys, Hs | intros _].
  apply app_keeps_bind; [|intros _; apply app_keeps_script].
  destruct aev; cbn [apply_app_event];
    [apply app_keeps_lift, keeps_apply_event | now apply app_keeps_nav ..].
Qed.

Lemma keeps_settle (fuel : nat) (r : res unit * app) :
  P (app_world (snd r)) -> P (app_world (snd (settle up fuel r))).
Proof.
  revert r. induction fuel as [|fuel IH]; intros r Hr; [exact Hr|].
  destruct r as [[u|e] s]; [exact Hr|]. destruct e; try exact Hr.
  cbn [settle]. apply IH, app_keeps_run_script, Hr.
Qed.

(** Whatever the interaction, a run of the script with the reruns that
    follow it keeps the property. *)
Lemma session_keeps (aev : app_event) (fuel : nat) (s : app) :
  P (app_world s) ->
  P (app_world (snd (settle up fuel (run_script up aev s)))).
Proof. intros Hs. apply keeps_settle, app_keeps_run_script, Hs. Qed.

End Invariant.

Lemma pager_frame (ev : event) (info : json) (k : page_key) (prefix : string)
      (w : world) :
  let w' := snd (pager_controls ev info k prefix w) in
  now w' = now w /\ net_log w' = net_log w /\ api_cache w' = api_cache w
  /\ fm_cache w' = fm_cache w.
Proof.
  destruct (pager_step ev info k prefix w) as [[-> _] | (n & _ & ->)];
    now repeat split.
Qed.

Lemma api_get_frame (up : upstream) (endpoint : string) (ps : option params)
      (w : world) :
  let w' := snd (api_get up endpoint ps w) in
  session_state w' = session_state w
  /\ (net_log w' = net_log w
      \/ net_log w' = (net_log w ++ [api_request endpoint ps])%list).
Proof.
  cbv zeta. split; [apply (quiet_api_get up endpoint ps w)|].
  destruct (Cache.get api_key_eqb (now w) (endpoint, ps) (api_cache w))
    as [[v c]|] eqn:Hget.
  - left. unfold api_get, cache_data. now rewrite Hget.
  - right. rewrite api_get_miss by exact Hget. cbn zeta.
    destruct (up _ _) as [msg|r]; [reflexivity|].
    destruct (status_code r =? 200); [|reflexivity].
    destruct (body r); reflexivity.
Qed.

(** A page widget touches the session state and the keys of the run
    only. *)
Lemma number_input_frame (nw : number_widget) (lo v : Z) (w : world) :
  let w' := snd (number_input nw lo v w) in
  now w' = now w /\ net_log w' = net_log w /\ api_cache w' = api_cache w
  /\ fm_cache w' = fm_cache w.
Proof.
  unfold number_input, bind, created, raise, get_session, set_number, ret.
  cbv zeta. cbn [fst snd]. destruct (v <? lo); now repeat split.
Qed.

(** X21.  The store of [api_get] stays within its bound through a whole
    session: when it holds at most 50 entries, it still does after a run of
    the script for any interaction and the reruns that follow. *)
Theorem session_keeps_store_bounded :
  forall (up : upstream) (aev : app_event) (fuel : nat) (s : app),
    store_bounded (app_world s) ->
    store_bounded (app_world (snd (settle up fuel (run_script up aev s)))).
Proof.
  intros up aev fuel s. apply session_keeps.
  - intros x ps w Hw. unfold requests_get. cbv zeta.
    destruct (up _ _); exact Hw.
  - intros endpoint ps w Hw. apply api_get_bounded, Hw.
  - intros c w Hw. exact Hw.
  - intros k n _ w Hw. exact Hw.
  - intros ev info k prefix w Hw. unfold store_bounded.
    destruct (pager_frame ev info k prefix w) as (_ & _ & -> & _). exact Hw.
  - intros wd v w Hw. exact Hw.
  - intros ks w Hw. exact Hw.
  - intros nw n _ w Hw. exact Hw.
  - intros nw lo v _ w Hw. unfold store_bounded.
    destruct (number_input_frame nw lo v w) as (_ & _ & -> & _). exact Hw.
  - intros nw lo v k n w w' _ _ _ w0 Hw0. exact Hw0.
  - intros w Hw. exact Hw.
Qed.

Lemma session_keeps_store_bounded_witness :
  store_bounded
    (app_world
       (snd (settle (always not_found) 2
                    (run_script (always not_found) (ListEvent NoEvent)
                                (mkApp initial_nav (fresh_world alive_page_2)))))).
Proof.
  apply (session_keeps_store_bounded
           (always not_found) (ListEvent NoEvent) 2
           (mkApp initial_nav (fresh_world alive_page_2))).
  unfold store_bounded. cbn. lia.
Defined.

Lemma pages_from_1_session (w w' : world) :
  session_state w' = session_state w -> pages_from_1 w -> pages_from_1 w'.
Proof. unfold pages_from_1. now intros ->. Qed.

Lemma pages_from_1_set (k : page_key) (n : Z) (w : world) :
  1 <= n -> pages_from_1 w ->
  pages_from_1 (with_session (with_page k n (session_state w)) w).
Proof.
  intros Hn [Hw Hheld]. split.
  - intros k'. cbn [session_state with_session].
    destruct k, k'; cbn; try exact Hn;
      first [exact (Hw char_page_key) | exact (Hw ep_page_key)
            | exact (Hw loc_page_key)].
  - intros nw x. cbn [session_state with_session].
    destruct k, nw; cbn; apply (Hheld N_ep_page) || apply (Hheld N_loc_page).
Qed.

Lemma pages_from_1_number (nw : number_widget) (n : Z) (w : world) :
  1 <= n -> pages_from_1 w ->
  pages_from_1 (with_session (with_number nw (Some n) (session_state w)) w).
Proof.
  intros Hn [Hw Hheld]. split.
  - intros k. cbn [session_state with_session].
    destruct k; [exact (Hw char_page_key) | exact (Hw ep_page_key)
                | exact (Hw loc_page_key)].
  - intros nw' x. cbn [session_state with_session].
    destruct nw, nw'; cbn;
      first [ intros [= <-]; exact Hn
            | apply (Hheld N_ep_page) | apply (Hheld N_loc_page) ].
Qed.

(** The number a page widget gives is at least 1 when its [min_value] is
    and Streamlit holds no number below 1. *)
Lemma number_input_from_1 (nw : number_widget) (lo v n : Z) (w w' : world) :
  1 <= lo -> pages_from_1 w ->
  number_input nw lo v w = (Val n, w') ->
  1 <= n
  /\ w' = with_session (with_number nw (Some n) (session_state w))
                       (with_run_keys (number_key nw :: run_keys w) w).
Proof.
  intros Hlo [_ Hheld].
  unfold number_input, bind, created, raise, get_session, set_number, ret.
  cbn [fst snd session_state with_run_keys].
  destruct (Z.ltb_spec v lo); [discriminate|].
  intros [= <- <-]. split; [|reflexivity].
  destruct (number_held nw (session_state w)) as [held|] eqn:E;
    [exact (Hheld nw held E) | lia].
Qed.

(** X22.  The page cursors stay valid through a whole session: when all
    three are at least 1, and so is every number Streamlit holds for a page
    widget, this still holds after a run of the script for any interaction
    and the reruns that follow. *)
Theorem session_keeps_pages_from_1 :
  forall (up : upstream) (aev : app_event) (fuel : nat) (s : app),
    pages_from_1 (app_world s) ->
    pages_from_1 (app_world (snd (settle up fuel (run_script up aev s)))).
Proof.
  intros up aev fuel s. apply session_keeps.
  - intros x ps w Hw. unfold requests_get. cbv zeta.
    destruct (up _ _); exact Hw.
  - intros endpoint ps w Hw.
    destruct (api_get_frame up endpoint ps w) as [Hs _].
    exact (pages_from_1_session _ _ Hs Hw).
  - intros c w Hw. exact Hw.
  - intros k n Hn w Hw. now apply pages_from_1_set.
  - intros ev info k prefix w Hw.
    destruct (pager_step ev info k prefix w) as [[-> _] | (n & Hn & ->)];
      [exact Hw|].
    apply pages_from_1_set; [|exact Hw].
    destruct Hw as [Hw _]. specialize (Hw k). lia.
  - intros wd v w [Hw Hheld]. split.
    + intros k.
      destruct k; [exact (Hw char_page_key) | exact (Hw ep_page_key)
                  | exact (Hw loc_page_key)].
    + intros nw x.
      destruct nw; [exact (Hheld N_ep_page x) | exact (Hheld N_loc_page x)].
  - intros ks w Hw. exact Hw.
  - intros nw n Hn w Hw. now apply pages_from_1_number.
  - intros nw lo v Hlo w Hw.
    destruct (number_input nw lo v w) as [[n|e] w'] eqn:E; cbn [snd].
    + destruct (number_input_from_1 nw lo v n w w' Hlo Hw E) as [Hn ->].
      apply (pages_from_1_number nw n (with_run_keys _ w) Hn). exact Hw.
    + revert E.
      unfold number_input, bind, created, raise, get_session, set_number, ret.
      cbn [fst snd]. destruct (v <? lo); [|discriminate].
      intros [= _ <-]. exact Hw.
  - intros nw lo v k n w w' Hlo Hw E w0 Hw0.
    destruct (number_input_from_1 nw lo v n w w' Hlo Hw E) as [Hn _].
    now apply pages_from_1_set.
  - intros w [Hw Hheld]. split.
    + intros k.
      destruct k; [exact (Hw char_page_key) | exact (Hw ep_page_key)
                  | exact (Hw loc_page_key)].
    + intros nw x. unfold forget_unrendered. cbn [session_state with_session].
      destruct nw; cbn [number_held ep_page_input loc_page_input].
      * destruct (rendered (number_key N_ep_page) w); [|discriminate].
        exact (Hheld N_ep_page x).
      * destruct (rendered (number_key N_loc_page) w); [|discriminate].
        exact (Hheld N_loc_page x).
Qed.

Lemma session_keeps_pages_from_1_witness :
  pages_from_1
    (app_world
       (snd (settle (always not_found) 2
                    (run_script (always not_found)
                                (ListEvent (Clicked "char_bottom-prev"))
                                (mkApp initial_nav (fresh_world alive_page_2)))))).
Proof.
  apply (session_keeps_pages_from_1
           (always not_found) (ListEvent (Clicked "char_bottom-prev")) 2
           (mkApp initial_nav (fresh_world alive_page_2))).
  split; [intros k; destruct k; cbn; lia | intros nw n; destruct nw; discriminate].
Defined.

Lemma starts_with_base (x : string) : PyStr.starts_with BASE (BASE ++ x) = true.
Proof. apply starts_with_iff. now exists x. Qed.

(** X23.  The script only talks to the API: when every request of the log
    went to a URL under [BASE] with a timeout of 20 seconds, this still
    holds after a run of the script for any interaction and the reruns that
    follow. *)
Theorem session_keeps_requests_to_api :
  forall (up : upstream) (aev : app_event) (fuel : nat) (s : app),
    requests_to_api (app_world s) ->
    requests_to_api (app_world (snd (settle up fuel (run_script up aev s)))).
Proof.
  intros up aev fuel s. apply session_keeps.
  - intros x ps w Hw. unfold requests_get, requests_to_api. cbv zeta.
    assert (Hnew : Forall (fun rq => PyStr.starts_with BASE (req_url rq) = true
                                     /\ req_timeout rq = 20)
                          (net_log w ++ [mkRequest (BASE ++ x) ps 20])%list).
    { apply Forall_app. split; [exact Hw|]. constructor; [|constructor].
      split; [apply starts_with_base | reflexivity]. }
    destruct (up _ _); exact Hnew.
  - intros endpoint ps w Hw. unfold requests_to_api.
    destruct (api_get_frame up endpoint ps w) as [_ [-> | ->]]; [exact Hw|].
    apply Forall_app. split; [exact Hw|]. constructor; [|constructor].
    split; [apply starts_with_base | reflexivity].
  - intros c w Hw. exact Hw.
  - intros k n _ w Hw. exact Hw.
  - intros ev info k prefix w Hw. unfold requests_to_api.
    destruct (pager_frame ev info k prefix w) as (_ & -> & _). exact Hw.
  - intros wd v w Hw. exact Hw.
  - intros ks w Hw. exact Hw.
  - intros nw n _ w Hw. exact Hw.
  - intros nw lo v _ w Hw. unfold requests_to_api.
    destruct (number_input_frame nw lo v w) as (_ & -> & _). exact Hw.
  - intros nw lo v k n w w' _ _ _ w0 Hw0. exact Hw0.
  - intros w Hw. exact Hw.
Qed.

Lemma session_keeps_requests_to_api_witness :
  requests_to_api
    (app_world
       (snd (settle (always (answers one_page_reply)) 2
                    (run_script (always (answers one_page_reply))
                                (ViewDetails (Some 1))
                                (mkApp initial_nav (fresh_world alive_page_2)))))).
Proof.
  apply (session_keeps_requests_to_api
           (always (answers one_page_reply)) (ViewDetails (Some 1)) 2
           (mkApp initial_nav (fresh_world alive_page_2))).
  constructor.
Defined.
